(** * Movie search app: a shallow embedding of [App.tsx] and its properties

    The application is one React component.  Its logic is embedded here
    function by function:

    - an integer ([code], [page], a TMDB id, [window.innerWidth]) is a [Z];
      a temperature, which the code only compares with integer literals, is
      a [Q]; a pixel offset, on which the code computes, is a [Number.t]:
      an IEEE 754 binary64 value with the rounding operations of
      [SpecFloat];
    - a JavaScript string is a [string]; the empty string is the only falsy
      one;
    - [Map<string, string | null>] is a [gmap string (option string)];
    - an [async] function is a computation in the monad [M]: it reads the
      provider, threads the component state and the log of requests issued,
      and ends by returning, by throwing (a rejected promise) or, for a
      [while (true)] loop run with too little fuel, by running out of fuel;
      the suggestion loader, which calls more services, runs in the wider
      monad [L];
    - what may interleave with pending work (the trailer effect, the timers
      of the preview) is a step function over the events of a session. *)

From Stdlib Require Import ZArith QArith Lia SpecFloat.
From stdpp Require Import base strings list gmap.

Open Scope Z_scope.

(** ** Data model *)

(** [interface Movie] *)
Record Movie := {
  imdbID : string;
  Title : string;
  Year : string;
  Poster : string
}.

(** [interface SearchHistoryEntry] *)
Module SearchHistoryEntry.
Record t := { query : string; movies : list Movie }.
End SearchHistoryEntry.

(** [interface TrailerState] *)
Record TrailerState := {
  youtubeKey : option string;
  loading : bool;
  error : bool
}.

(** An entry of the [results] array of TMDB's title search; the code reads
    its [id] only. *)
Module TmdbMovie.
Record t := { id : Z }.
End TmdbMovie.

(** An entry of the [results] array of TMDB's video listing. *)
Module Video.
Record t := { type : string; site : string; key : string }.
End Video.

(** [!s] and [s ? .. : ..] on a string. *)
Definition truthy (s : string) : bool :=
  match s with EmptyString => false | String _ _ => true end.

(** [const GENRES] *)
Definition GENRES : list string :=
  ["adventure"; "mystery"; "romance"; "fantasy"; "action"; "family"; "drama"].

(** ** Genre mapper *)

Definition getGenreForWeather (code : Z) (temp : Q) : string :=
  if (0 <=? code) && (code <=? 3) then "adventure"
  else if (45 <=? code) && (code <=? 48) then "mystery"
  else if (51 <=? code) && (code <=? 67) then "romance"
  else if (71 <=? code) && (code <=? 77) then "fantasy"
  else if Qle_bool 30 temp then "action"
  else if Qle_bool temp 5 then "family"
  else "drama".

(** The rule table as the specification words it: an ordered list of
    (condition, genre) pairs with a default, the first matching pair winning. *)
Definition genre_rules_spec : list ((Z -> Q -> bool) * string) :=
  [ (fun code _ => (0 <=? code) && (code <=? 3), "adventure");
    (fun code _ => (45 <=? code) && (code <=? 48), "mystery");
    (fun code _ => (51 <=? code) && (code <=? 67), "romance");
    (fun code _ => (71 <=? code) && (code <=? 77), "fantasy");
    (fun _ temp => Qle_bool 30 temp, "action");
    (fun _ temp => Qle_bool temp 5, "family") ].

Fixpoint first_match_spec (rules : list ((Z -> Q -> bool) * string))
    (default : string) (code : Z) (temp : Q) : string :=
  match rules with
  | [] => default
  | (cond, genre) :: rules' =>
      if cond code temp then genre else first_match_spec rules' default code temp
  end.

(** No code range of the table contains [code]. *)
Definition outside_code_ranges (code : Z) : Prop :=
  ~ (0 <= code <= 3) /\ ~ (45 <= code <= 48) /\
  ~ (51 <= code <= 67) /\ ~ (71 <= code <= 77).

(** ** Component state (the search controller's [useState] cells) *)

Record AppState := {
  query : string;
  searchedQuery : string;
  movies : list Movie;
  suggested : list Movie;
  hasSearched : bool;
  isSearching : bool;
  searchHistory : list SearchHistoryEntry.t;
  selectedGenre : string;
  weatherReason : string
}.

(** The state of the first render. *)
Definition initialState : AppState :=
  {| query := EmptyString; searchedQuery := EmptyString; movies := [];
     suggested := []; hasSearched := false; isSearching := false;
     searchHistory := []; selectedGenre := EmptyString;
     weatherReason := EmptyString |}.

Definition setQuery (v : string) (s : AppState) : AppState :=
  {| query := v; searchedQuery := searchedQuery s; movies := movies s;
     suggested := suggested s; hasSearched := hasSearched s;
     isSearching := isSearching s; searchHistory := searchHistory s;
     selectedGenre := selectedGenre s; weatherReason := weatherReason s |}.

Definition setSearchedQuery (v : string) (s : AppState) : AppState :=
  {| query := query s; searchedQuery := v; movies := movies s;
     suggested := suggested s; hasSearched := hasSearched s;
     isSearching := isSearching s; searchHistory := searchHistory s;
     selectedGenre := selectedGenre s; weatherReason := weatherReason s |}.

Definition setMovies (v : list Movie) (s : AppState) : AppState :=
  {| query := query s; searchedQuery := searchedQuery s; movies := v;
     suggested := suggested s; hasSearched := hasSearched s;
     isSearching := isSearching s; searchHistory := searchHistory s;
     selectedGenre := selectedGenre s; weatherReason := weatherReason s |}.

Definition setSuggested (v : list Movie) (s : AppState) : AppState :=
  {| query := query s; searchedQuery := searchedQuery s; movies := movies s;
     suggested := v; hasSearched := hasSearched s;
     isSearching := isSearching s; searchHistory := searchHistory s;
     selectedGenre := selectedGenre s; weatherReason := weatherReason s |}.

Definition setHasSearched (v : bool) (s : AppState) : AppState :=
  {| query := query s; searchedQuery := searchedQuery s; movies := movies s;
     suggested := suggested s; hasSearched := v;
     isSearching := isSearching s; searchHistory := searchHistory s;
     selectedGenre := selectedGenre s; weatherReason := weatherReason s |}.

Definition setIsSearching (v : bool) (s : AppState) : AppState :=
  {| query := query s; searchedQuery := searchedQuery s; movies := movies s;
     suggested := suggested s; hasSearched := hasSearched s;
     isSearching := v; searchHistory := searchHistory s;
     selectedGenre := selectedGenre s; weatherReason := weatherReason s |}.

(** [setSearchHistory(prev => f(prev))]: every call site passes an updater. *)
Definition setSearchHistory
    (f : list SearchHistoryEntry.t -> list SearchHistoryEntry.t)
    (s : AppState) : AppState :=
  {| query := query s; searchedQuery := searchedQuery s; movies := movies s;
     suggested := suggested s; hasSearched := hasSearched s;
     isSearching := isSearching s; searchHistory := f (searchHistory s);
     selectedGenre := selectedGenre s; weatherReason := weatherReason s |}.

Definition setSelectedGenre (v : string) (s : AppState) : AppState :=
  {| query := query s; searchedQuery := searchedQuery s; movies := movies s;
     suggested := suggested s; hasSearched := hasSearched s;
     isSearching := isSearching s; searchHistory := searchHistory s;
     selectedGenre := v; weatherReason := weatherReason s |}.

Definition setWeatherReason (v : string) (s : AppState) : AppState :=
  {| query := query s; searchedQuery := searchedQuery s; movies := movies s;
     suggested := suggested s; hasSearched := hasSearched s;
     isSearching := isSearching s; searchHistory := searchHistory s;
     selectedGenre := selectedGenre s; weatherReason := v |}.

(** ** Network and the monad of asynchronous functions *)

(** What makes an awaited promise reject: [fetch] fails, or [res.json()]
    cannot parse the body. *)
Inductive exn := NetworkError | ParseError.

(** The three endpoints the modelled functions call, with the parts of the
    URL that vary. *)
Inductive request :=
| OmdbSearch (s : string) (page : Z)
| TmdbSearchMovie (api_key title year : string)
| TmdbMovieVideos (api_key : string) (tmdbId : Z).

(** The outcome of [await (await fetch(url)).json()]: a rejection, or the
    field of the parsed body that the code reads ([None] when the field is
    absent or otherwise falsy). *)
Inductive reply (A : Type) :=
| Rejected (e : exn)
| Json (field : A).
Arguments Rejected {A} e.
Arguments Json {A} field.

(** A provider answers every request; its answer may depend on the request
    and on how many requests were issued before it, so that any sequence of
    responses is some provider. *)
Record Provider := {
  omdb_search : nat -> string -> Z -> reply (option (list Movie));
  tmdb_search_movie :
    nat -> string -> string -> string -> reply (option (list TmdbMovie.t));
  tmdb_movie_videos : nat -> string -> Z -> reply (option (list Video.t))
}.

Record World := {
  app : AppState;
  log : list request
}.

Definition with_app (f : AppState -> AppState) (w : World) : World :=
  {| app := f (app w); log := log w |}.

Definition with_request (r : request) (w : World) : World :=
  {| app := app w; log := log w ++ [r] |}.

Inductive outcome (A : Type) :=
| Return (a : A)
| Throw (e : exn)
| OutOfFuel.
Arguments Return {A} a.
Arguments Throw {A} e.
Arguments OutOfFuel {A}.

Definition M (A : Type) : Type := Provider -> World -> outcome A * World.

Definition ret {A} (a : A) : M A := fun _ w => (Return a, w).

Definition bind {A B} (m : M A) (k : A -> M B) : M B :=
  fun P w =>
    match m P w with
    | (Return a, w') => k a P w'
    | (Throw e, w') => (Throw e, w')
    | (OutOfFuel, w') => (OutOfFuel, w')
    end.

Definition out_of_fuel {A} : M A := fun _ w => (OutOfFuel, w).

(** [try { m } catch (error) { h }] *)
Definition try_catch {A} (m : M A) (h : exn -> M A) : M A :=
  fun P w =>
    match m P w with
    | (Throw e, w') => h e P w'
    | r => r
    end.

(** A state setter called from an asynchronous function. *)
Definition set (f : AppState -> AppState) : M unit :=
  fun _ w => (Return tt, with_app f w).

Definition of_reply {A} (r : reply A) : outcome A :=
  match r with
  | Rejected e => Throw e
  | Json d => Return d
  end.

Definition fetch_omdb (s : string) (page : Z) : M (option (list Movie)) :=
  fun P w =>
    (of_reply (omdb_search P (length (log w)) s page),
     with_request (OmdbSearch s page) w).

Definition fetch_tmdb_search (api_key title year : string)
    : M (option (list TmdbMovie.t)) :=
  fun P w =>
    (of_reply (tmdb_search_movie P (length (log w)) api_key title year),
     with_request (TmdbSearchMovie api_key title year) w).

Definition fetch_tmdb_videos (api_key : string) (tmdbId : Z)
    : M (option (list Video.t)) :=
  fun P w =>
    (of_reply (tmdb_movie_videos P (length (log w)) api_key tmdbId),
     with_request (TmdbMovieVideos api_key tmdbId) w).

Declare Scope async_scope.
Delimit Scope async_scope with async.
Notation "x <- m ;; k" := (bind m (fun x => k))
  (at level 100, m at next level, right associativity) : async_scope.
Notation "m ;; k" := (bind m (fun _ => k))
  (at level 100, right associativity) : async_scope.
Open Scope async_scope.

(** ** Paginated fetcher *)

(** The [while (true)] loop of [fetchAllMoviesByGenre]; one unit of fuel per
    iteration. *)
Fixpoint fetchAllMoviesByGenre_loop (fuel : nat) (genre : string)
    (allMovies : list Movie) (page : Z) : M (list Movie) :=
  match fuel with
  | O => out_of_fuel
  | S fuel' =>
      data_Search <- fetch_omdb genre page ;;
      match data_Search with
      | None => ret allMovies
      | Some search =>
          let allMovies := allMovies ++ search in
          let page := page + 1 in
          if 10 <? page then ret allMovies
          else fetchAllMoviesByGenre_loop fuel' genre allMovies page
      end
  end.

Definition fetchAllMoviesByGenre (fuel : nat) (genre : string)
    : M (list Movie) :=
  fetchAllMoviesByGenre_loop fuel genre [] 1.

(** ** Trailer resolver *)

Definition is_youtube (kind : string) (v : Video.t) : bool :=
  String.eqb (Video.type v) kind && String.eqb (Video.site v) "YouTube".

(** [results.find(Trailer on YouTube) || results.find(Teaser on YouTube)
    || results.find(on YouTube)]; an entry is an object, hence truthy. *)
Definition find_trailer (results : list Video.t) : option Video.t :=
  match find (is_youtube "Trailer") results with
  | Some v => Some v
  | None =>
      match find (is_youtube "Teaser") results with
      | Some v => Some v
      | None => find (fun v => String.eqb (Video.site v) "YouTube") results
      end
  end.

(** [trailer?.key || null] *)
Definition key_or_null (trailer : option Video.t) : option string :=
  match trailer with
  | Some v => if truthy (Video.key v) then Some (Video.key v) else None
  | None => None
  end.

(** [TMDB_API_KEY] is read from the build environment: [None] is
    [undefined]. *)
Definition configured (TMDB_API_KEY : option string) : bool :=
  match TMDB_API_KEY with
  | Some k => truthy k
  | None => false
  end.

Definition fetchTrailerFromTMDB (TMDB_API_KEY : option string)
    (title year : string) : M (option string) :=
  match TMDB_API_KEY with
  | None => ret None
  | Some api_key =>
      if negb (truthy api_key) then ret None
      else
        try_catch
          (searchData_results <- fetch_tmdb_search api_key title year ;;
           match searchData_results with
           | None => ret None
           | Some [] => ret None
           | Some (first :: _) =>
               let tmdbId := TmdbMovie.id first in
               videosData_results <- fetch_tmdb_videos api_key tmdbId ;;
               match videosData_results with
               | None => ret None
               | Some [] => ret None
               | Some results => ret (key_or_null (find_trailer results))
               end
           end)
          (fun _ => ret None)
  end.

(** ** Search controller *)

(** The closure of an event handler sees the state of the render that
    created it. *)
Definition render_state : M AppState := fun _ w => (Return (app w), w).

(** The [while (true)] loop written out in [handleSearch]. *)
Fixpoint handleSearch_loop (fuel : nat) (trimmedQuery : string)
    (allMovies : list Movie) (page : Z) : M (list Movie) :=
  match fuel with
  | O => out_of_fuel
  | S fuel' =>
      data_Search <- fetch_omdb trimmedQuery page ;;
      match data_Search with
      | None => ret allMovies
      | Some search =>
          let allMovies := allMovies ++ search in
          let page := page + 1 in
          if 10 <? page then ret allMovies
          else handleSearch_loop fuel' trimmedQuery allMovies page
      end
  end.

(** [trim] stands for [String.prototype.trim]. *)
Definition handleSearch (trim : string -> string) (fuel : nat) : M unit :=
  s <- render_state ;;
  let trimmedQuery := trim (query s) in
  if negb (truthy trimmedQuery) then ret tt
  else
    (if hasSearched s && truthy (searchedQuery s)
     then set (setSearchHistory (fun prev =>
            prev ++ [ {| SearchHistoryEntry.query := searchedQuery s;
                         SearchHistoryEntry.movies := movies s |} ]))
     else ret tt) ;;
    set (setMovies []) ;;
    set (setSearchedQuery trimmedQuery) ;;
    set (setHasSearched true) ;;
    set (setIsSearching true) ;;
    set (setSelectedGenre EmptyString) ;;
    allMovies <- handleSearch_loop fuel trimmedQuery [] 1 ;;
    set (setMovies allMovies) ;;
    set (setIsSearching false).

(** The entry [handleSearch] pushes in a render whose state is [s]. *)
Definition displayed (s : AppState) : SearchHistoryEntry.t :=
  {| SearchHistoryEntry.query := searchedQuery s;
     SearchHistoryEntry.movies := movies s |}.

(** What the handlers maintain: while a search is displayed its query is
    not empty, and no entry of the history has an empty query. *)
Definition well_formed (s : AppState) : Prop :=
  (hasSearched s = true -> truthy (searchedQuery s) = true)
  /\ Forall (fun entry => truthy (SearchHistoryEntry.query entry) = true)
            (searchHistory s).

(** The component state once the statements of [handleSearch] before its
    loop have run, in a render whose state was [s]. *)
Definition searchStarted (trimmedQuery : string) (s : AppState) : AppState :=
  setSelectedGenre EmptyString
    (setIsSearching true
      (setHasSearched true
        (setSearchedQuery trimmedQuery
          (setMovies []
            (if hasSearched s && truthy (searchedQuery s)
             then setSearchHistory (fun prev =>
                    prev ++ [ {| SearchHistoryEntry.query := searchedQuery s;
                                 SearchHistoryEntry.movies := movies s |} ]) s
             else s))))).

(** The two statements after a loop that returned [allMovies]. *)
Definition searchCompleted (allMovies : list Movie) (s : AppState) : AppState :=
  setIsSearching false (setMovies allMovies s).

Definition handleGenreSelect (fuel : nat) (genre : string) : M unit :=
  set (setSelectedGenre genre) ;;
  if negb (truthy genre) then
    set (setMovies []) ;;
    set (setHasSearched false) ;;
    set (setQuery EmptyString) ;;
    set (setSearchedQuery EmptyString)
  else
    set (setIsSearching true) ;;
    set (setHasSearched true) ;;
    set (setSearchedQuery genre) ;;
    set (setMovies []) ;;
    genreMovies <- fetchAllMoviesByGenre fuel genre ;;
    set (setMovies genreMovies) ;;
    set (setIsSearching false).

(** [handleBack] is synchronous.  [last] is [searchHistory[length - 1]] and
    is [None] exactly when [searchHistory.length > 0] fails;
    [removelast] is [prev.slice(0, -1)]. *)
Definition handleBack (s : AppState) : AppState :=
  match last (searchHistory s) with
  | Some previousSearch =>
      setQuery (SearchHistoryEntry.query previousSearch)
        (setSearchedQuery (SearchHistoryEntry.query previousSearch)
          (setMovies (SearchHistoryEntry.movies previousSearch)
            (setSearchHistory (fun prev => removelast prev) s)))
  | None =>
      setSelectedGenre EmptyString
        (setHasSearched false
          (setSearchedQuery EmptyString
            (setQuery EmptyString
              (setMovies [] s))))
  end.

(** [onChange] of the search field. *)
Definition typeQuery (text : string) (s : AppState) : AppState :=
  setQuery text s.

(** The only two statements that write [suggested] and [weatherReason] are
    in the callbacks the mount effect passes to [getCurrentPosition]. *)
Definition suggestionsLoaded (reason : string) (loaded : list Movie)
    (s : AppState) : AppState :=
  setSuggested loaded (setWeatherReason reason s).

(** *** What is rendered below the search bar *)

Inductive block :=
| NoResults (searched : string)
| Suggestions (reason : string) (cards : list Movie)
| Results (cards : list Movie).

Definition is_nil {A} (l : list A) : bool :=
  match l with [] => true | _ :: _ => false end.

Definition show_no_results (s : AppState) : bool :=
  hasSearched s && negb (isSearching s) && is_nil (movies s).

Definition show_suggested (s : AppState) : bool :=
  negb (hasSearched s) && is_nil (movies s) && negb (is_nil (suggested s)).

Definition show_results (s : AppState) : bool :=
  negb (is_nil (movies s)).

Definition render (s : AppState) : list block :=
  (if show_no_results s then [NoResults (searchedQuery s)] else []) ++
  (if show_suggested s
   then [Suggestions (weatherReason s) (suggested s)] else []) ++
  (if show_results s then [Results (movies s)] else []).

(** An ASCII instance of [trim] for running the handlers: it strips tab,
    line feed, vertical tab, form feed, carriage return and space. *)
Definition is_space (c : Ascii.ascii) : bool :=
  let n := Ascii.nat_of_ascii c in
  ((9 <=? n) && (n <=? 13) || (n =? 32))%nat.

Fixpoint trim_start (s : string) : string :=
  match s with
  | EmptyString => EmptyString
  | String c s' => if is_space c then trim_start s' else s
  end.

Fixpoint trim_end (s : string) : string :=
  match s with
  | EmptyString => EmptyString
  | String c s' =>
      match trim_end s' with
      | EmptyString => if is_space c then EmptyString else String c EmptyString
      | t => String c t
      end
  end.

Definition trim_ascii (s : string) : string := trim_end (trim_start s).

(** ** JavaScript numbers *)

(** A number is an IEEE 754 double: a [spec_float] with the operations of
    [SpecFloat] at precision 53 and maximal exponent 1024, which round to
    nearest, ties to even. *)
Module Number.
Definition t : Type := spec_float.
Definition prec : Z := 53.
Definition emax : Z := 1024.
(** [x + y], [x - y], [x / y] *)
Definition add (x y : t) : t := SFadd prec emax x y.
Definition sub (x y : t) : t := SFsub prec emax x y.
Definition div (x y : t) : t := SFdiv prec emax x y.
(** [x < y], [x > y], [x <= y]: false when an operand is NaN. *)
Definition lt (x y : t) : bool := SFltb x y.
Definition gt (x y : t) : bool := SFltb y x.
Definition le (x y : t) : bool := SFleb x y.
(** The number denoted by an integer literal, or read from an attribute of
    integer type. *)
Definition of_Z (z : Z) : t := binary_normalize prec emax z 0 false.
Definition is_nan (x : t) : bool :=
  match x with
  | S754_nan => true
  | _ => false
  end.
(** [0], [-0] and [NaN] are the falsy numbers. *)
Definition truthy (x : t) : bool :=
  match x with
  | S754_zero _ | S754_nan => false
  | _ => true
  end.
End Number.

(** The values of an attribute of Web IDL type [long]. *)
Definition long (z : Z) : Prop := - 2 ^ 31 <= z < 2 ^ 31.

(** The integers on which the arithmetic of doubles is exact. *)
Definition exact_range (v : Z) : Prop := - 2 ^ 53 < v < 2 ^ 53.

(** [p] shifted left by [k] bits. *)
Definition shl (p : positive) (k : Z) : positive :=
  match k with
  | Zpos k' => Pos.iter xO p k'
  | _ => p
  end.

(** The double of sign [s] whose magnitude is the integer [q], for [q] of
    at most 53 bits: the mantissa is [q] shifted to 53 bits. *)
Definition canon (s : bool) (q : positive) : Number.t :=
  S754_finite s (shl q (53 - Zpos (digits2_pos q)))
    (Zpos (digits2_pos q) - 53).

Definition sign_of (v : Z) : bool := v <? 0.

(** ** Preview controller: position of the expanded preview *)

(** The fields of [getBoundingClientRect()] that the code reads. *)
Module DOMRect.
Record t := { left : Number.t; top : Number.t; width : Number.t }.
End DOMRect.

(** [window] and [document.documentElement] at the time the timer fires.
    [innerWidth] is an attribute of type [long]: the script reads an
    integer. *)
Module Window.
Record t := {
  scrollX : Number.t;
  scrollY : Number.t;
  innerWidth : Z;
  documentElement_scrollLeft : Number.t;
  documentElement_scrollTop : Number.t
}.
End Window.

Module PreviewPosition.
Record t := { top : Number.t; left : Number.t }.
End PreviewPosition.

(** [a || b] on numbers. *)
Definition or_number (a b : Number.t) : Number.t :=
  if Number.truthy a then a else b.

(** The position computed inside the 700ms timer of [handleMouseEnter] when
    [cardElement] is not null. *)
Definition computePreviewPosition (rect : DOMRect.t) (window : Window.t)
    : PreviewPosition.t :=
  let scrollTop :=
    or_number (Window.scrollY window)
              (Window.documentElement_scrollTop window) in
  let scrollLeft :=
    or_number (Window.scrollX window)
              (Window.documentElement_scrollLeft window) in
  let left :=
    Number.sub
      (Number.add (Number.add (DOMRect.left rect) scrollLeft)
                  (Number.div (DOMRect.width rect) (Number.of_Z 2)))
      (Number.of_Z 175) in
  let top :=
    Number.sub (Number.add (DOMRect.top rect) scrollTop) (Number.of_Z 20) in
  let left :=
    if Number.lt left (Number.of_Z 10) then Number.of_Z 10 else left in
  let left :=
    if Number.gt (Number.add left (Number.of_Z 350))
                 (Number.sub (Number.of_Z (Window.innerWidth window))
                             (Number.of_Z 10))
    then Number.sub (Number.of_Z (Window.innerWidth window)) (Number.of_Z 360)
    else left in
  {| PreviewPosition.top := top; PreviewPosition.left := left |}.

(** The timer callback: [previewPosition] is written only for a non-null
    card; the hovered movie is set in both cases. *)
Definition showTimerElapsed (movie : Movie) (cardElement : option DOMRect.t)
    (window : Window.t) (previewPosition : PreviewPosition.t)
    : PreviewPosition.t * option Movie :=
  (match cardElement with
   | Some rect => computePreviewPosition rect window
   | None => previewPosition
   end,
   Some movie).

(** ** Trailer effect and its cache *)

(** The cells the effect on [hoveredMovie] touches.  [lookups] and [writes]
    are instrumentation: the movies [fetchTrailerFromTMDB] was called for,
    in call order, and the [trailerCache.current.set] calls made.  [settled]
    holds the indices (into [lookups]) of the promises already fulfilled. *)
Record Session := {
  hoveredMovie : option Movie;
  trailer : TrailerState;
  trailerCache : gmap string (option string);
  lookups : list Movie;
  settled : gset nat;
  writes : list (string * option string)
}.

Definition initialSession : Session :=
  {| hoveredMovie := None;
     trailer := {| youtubeKey := None; loading := false; error := false |};
     trailerCache := ∅; lookups := []; settled := ∅; writes := [] |}.

(** [key === null] *)
Definition is_null (k : option string) : bool :=
  match k with None => true | Some _ => false end.

(** The effect body, run by React after a render in which [hoveredMovie]
    changed to [h]. *)
Definition trailerEffect (h : option Movie) (s : Session) : Session :=
  match h with
  | None =>
      {| hoveredMovie := h;
         trailer := {| youtubeKey := None; loading := false; error := false |};
         trailerCache := trailerCache s; lookups := lookups s;
         settled := settled s; writes := writes s |}
  | Some m =>
      match trailerCache s !! imdbID m with
      | Some cachedKey =>
          {| hoveredMovie := h;
             trailer := {| youtubeKey := cachedKey; loading := false;
                           error := is_null cachedKey |};
             trailerCache := trailerCache s; lookups := lookups s;
             settled := settled s; writes := writes s |}
      | None =>
          {| hoveredMovie := h;
             trailer := {| youtubeKey := None; loading := true;
                           error := false |};
             trailerCache := trailerCache s; lookups := lookups s ++ [m];
             settled := settled s; writes := writes s |}
      end
  end.

(** The [.then] callback of the lookup started for [m], called with the
    value [fetchTrailerFromTMDB] resolved to. *)
Definition lookupCallback (n : nat) (m : Movie) (key : option string)
    (s : Session) : Session :=
  {| hoveredMovie := hoveredMovie s;
     trailer := {| youtubeKey := key; loading := false;
                   error := is_null key |};
     trailerCache := <[imdbID m := key]> (trailerCache s);
     lookups := lookups s;
     settled := {[n]} ∪ settled s;
     writes := writes s ++ [(imdbID m, key)] |}.

Inductive event :=
| HoveredMovieChanged (h : option Movie)
| LookupSettled (n : nat) (key : option string).

(** A promise is fulfilled once, and only if it exists. *)
Definition step (s : Session) (e : event) : Session :=
  match e with
  | HoveredMovieChanged h => trailerEffect h s
  | LookupSettled n key =>
      match lookups s !! n with
      | Some m => if decide (n ∈ settled s) then s else lookupCallback n m key s
      | None => s
      end
  end.

Definition run (s : Session) (es : list event) : Session := foldl step s es.

(** How many times the resolver was called for [id], and how many times
    the cache entry of [id] was set. *)
Definition lookup_count (id : string) (s : Session) : nat :=
  length (filter (fun m => imdbID m = id) (lookups s)).

Definition write_count (id : string) (s : Session) : nat :=
  length (filter (fun w => w.1 = id) (writes s)).

(** A session in which every lookup is settled before the next event: the
    hover and the fulfilment of the lookup it started, if it started one. *)
Definition hoverAndSettle (h : option Movie) (key : option string)
    (s : Session) : Session :=
  let s' := step s (HoveredMovieChanged h) in
  if decide (length (lookups s') = length (lookups s)) then s'
  else step s' (LookupSettled (length (lookups s)) key).

Definition run_settled (s : Session) (hs : list (option Movie * option string))
    : Session :=
  foldl (fun s hk => hoverAndSettle hk.1 hk.2 s) s hs.

(** ** User actions on the search bar *)

Inductive action :=
| TypeQuery (text : string)
| Submit
| SelectGenre (genre : string)
| Back.

Definition perform (trim : string -> string) (fuel : nat) (a : action)
    : M unit :=
  match a with
  | TypeQuery text => set (typeQuery text)
  | Submit => handleSearch trim fuel
  | SelectGenre genre => handleGenreSelect fuel genre
  | Back => set handleBack
  end.

(** The world after a handler has run to its end, by return or by throw. *)
Definition after (trim : string -> string) (fuel : nat) (P : Provider)
    (w : World) (a : action) : World :=
  (perform trim fuel a P w).2.

Definition after_all (trim : string -> string) (fuel : nat) (P : Provider)
    (w : World) (actions : list action) : World :=
  foldl (after trim fuel P) w actions.

(** What is shown when no search is active: the suggestions, if any. *)
Definition suggestions_view (s : AppState) : list block :=
  if is_nil (suggested s) then []
  else [Suggestions (weatherReason s) (suggested s)].

(** ** Notions the properties are stated with *)

(** [v] is the first entry of [videos] that satisfies [p]. *)
Definition first_with (p : Video.t -> bool) (videos : list Video.t)
    (v : Video.t) : Prop :=
  exists before rest,
    videos = before ++ v :: rest
    /\ p v = true
    /\ forall u, In u before -> p u = false.

Definition none_with (p : Video.t -> bool) (videos : list Video.t) : Prop :=
  forall u, In u videos -> p u = false.

Definition on_youtube (v : Video.t) : bool :=
  String.eqb (Video.site v) "YouTube".

(** The entry to play, in the words of the specification: the first
    "Trailer" on the platform, else the first "Teaser" on it, else the
    first entry on it, else none. *)
Inductive selected_spec (videos : list Video.t) : option Video.t -> Prop :=
| select_trailer (v : Video.t) :
    first_with (is_youtube "Trailer") videos v ->
    selected_spec videos (Some v)
| select_teaser (v : Video.t) :
    none_with (is_youtube "Trailer") videos ->
    first_with (is_youtube "Teaser") videos v ->
    selected_spec videos (Some v)
| select_any (v : Video.t) :
    none_with (is_youtube "Trailer") videos ->
    none_with (is_youtube "Teaser") videos ->
    first_with on_youtube videos v ->
    selected_spec videos (Some v)
| select_none :
    none_with on_youtube videos ->
    selected_spec videos None.

(** "The trailer resolver returns the key of" the selected entry, for a
    configured API key, a title search with a first match and a video
    listing. *)
Definition trailer_key_spec : Prop :=
  forall (api_key title year : string) (P : Provider) (w : World)
         (first : TmdbMovie.t) (others : list TmdbMovie.t)
         (videos : list Video.t) (v : Video.t),
    configured (Some api_key) = true ->
    tmdb_search_movie P (length (log w)) api_key title year
    = Json (Some (first :: others)) ->
    tmdb_movie_videos P (S (length (log w))) api_key (TmdbMovie.id first)
    = Json (Some videos) ->
    selected_spec videos (Some v) ->
    (fetchTrailerFromTMDB (Some api_key) title year P w).1
    = Return (Some (Video.key v)).

(** "For every card rectangle, scroll offset and viewport width" the
    preview keeps a 10px margin on both sides: [10 <= left] and
    [left + 350 <= innerWidth - 10], as the script would evaluate them,
    whenever the position is a number. *)
Definition preview_within_viewport_spec : Prop :=
  forall (rect : DOMRect.t) (window : Window.t),
    long (Window.innerWidth window) ->
    let left := PreviewPosition.left (computePreviewPosition rect window) in
    Number.is_nan left = false ->
    Number.le (Number.of_Z 10) left = true
    /\ Number.le (Number.add left (Number.of_Z 350))
                 (Number.sub (Number.of_Z (Window.innerWidth window))
                             (Number.of_Z 10)) = true.

(** A viewport that is not scrolled. *)
Definition not_scrolled (innerWidth : Z) : Window.t :=
  {| Window.scrollX := Number.of_Z 0; Window.scrollY := Number.of_Z 0;
     Window.innerWidth := innerWidth;
     Window.documentElement_scrollLeft := Number.of_Z 0;
     Window.documentElement_scrollTop := Number.of_Z 0 |}.

(** A 320px wide viewport, not scrolled. *)
Definition narrow_window : Window.t := not_scrolled 320.

(** A 1280px wide viewport, scrolled down by 400px. *)
Definition wide_window : Window.t :=
  {| Window.scrollX := Number.of_Z 0; Window.scrollY := Number.of_Z 400;
     Window.innerWidth := 1280;
     Window.documentElement_scrollLeft := Number.of_Z 0;
     Window.documentElement_scrollTop := Number.of_Z 400 |}.

(** A card 150px wide whose left edge is at [x]. *)
Definition card_at (x : Z) : DOMRect.t :=
  {| DOMRect.left := Number.of_Z x; DOMRect.top := Number.of_Z 200;
     DOMRect.width := Number.of_Z 150 |}.

(** The double next above 800: 800 + 2^-43. *)
Definition just_right_of_800 : Number.t :=
  S754_finite false (800 * 2 ^ 43 + 1) (-43).

(** A card 150px wide whose left edge is not on the pixel grid, as in a
    zoomed page. *)
Definition off_grid_card : DOMRect.t :=
  {| DOMRect.left := just_right_of_800; DOMRect.top := Number.of_Z 200;
     DOMRect.width := Number.of_Z 150 |}.

(** No lookup for [id] is in flight: each one started has been settled. *)
Definition no_pending (id : string) (s : Session) : Prop :=
  forall (n : nat) (m : Movie),
    lookups s !! n = Some m -> imdbID m = id -> n ∈ settled s.

(** What holds between the events of a session in which every lookup is
    settled before the next event: the settled lookups are all the lookups,
    an id without entry has had no lookup, and each id has had at most one
    lookup and as many writes. *)
Definition all_settled (s : Session) : Prop :=
  (forall n : nat, n ∈ settled s <-> (n < length (lookups s))%nat)
  /\ (forall id : string,
        trailerCache s !! id = None -> lookup_count id s = 0%nat)
  /\ (forall id : string, (lookup_count id s <= 1)%nat)
  /\ (forall id : string, write_count id s = lookup_count id s).

(** "The remote trailer lookup for that id is performed at most once", and
    the entry "is never overwritten", in every session. *)
Definition lookup_at_most_once_spec : Prop :=
  forall (id : string) (es : list event),
    (lookup_count id (run initialSession es) <= 1)%nat
    /\ (forall (later : list event) (outcome : option string),
          trailerCache (run initialSession es) !! id = Some outcome ->
          trailerCache (run (run initialSession es) later) !! id
          = Some outcome).

(** In the session [es] run from [s], no movie with id [id] is hovered
    while a lookup for [id] is pending. *)
Fixpoint no_hover_while_pending (id : string) (s : Session) (es : list event)
    : Prop :=
  match es with
  | [] => True
  | e :: es' =>
      match e with
      | HoveredMovieChanged (Some m) => imdbID m = id -> no_pending id s
      | _ => True
      end
      /\ no_hover_while_pending id (step s e) es'
  end.

(** What holds of the lookups for [id] as long as [id] is not hovered while
    one of them is pending: the settled lookups exist; there is at most one
    lookup for [id], and no more writes than lookups; without an entry
    nothing was written, and if moreover nothing is pending, nothing was
    looked up; while a lookup is pending nothing was written; an entry was
    written. *)
Definition lookup_tracked (id : string) (s : Session) : Prop :=
  (forall n : nat, n ∈ settled s -> (n < length (lookups s))%nat)
  /\ (lookup_count id s <= 1)%nat
  /\ (trailerCache s !! id = None -> write_count id s = 0%nat)
  /\ (trailerCache s !! id = None -> no_pending id s ->
      lookup_count id s = 0%nat)
  /\ (write_count id s <= lookup_count id s)%nat
  /\ (forall (n : nat) (m : Movie),
        lookups s !! n = Some m -> imdbID m = id -> n ∉ settled s ->
        write_count id s = 0%nat)
  /\ (is_Some (trailerCache s !! id) -> (1 <= write_count id s)%nat).

(** Genre selection "behaves exactly like a submitted search whose query is
    the genre keyword", history push included, "and resets any active
    free-text query to empty". *)
Definition genre_select_like_search_spec : Prop :=
  forall (trim : string -> string) (fuel : nat) (P : Provider) (w : World)
         (genre : string),
    (10 <= fuel)%nat -> In genre GENRES -> trim genre = genre ->
    let searched := after_all trim fuel P w [TypeQuery genre; Submit] in
    let selected := after trim fuel P w (SelectGenre genre) in
    movies (app selected) = movies (app searched)
    /\ searchedQuery (app selected) = searchedQuery (app searched)
    /\ searchHistory (app selected) = searchHistory (app searched)
    /\ query (app selected) = EmptyString.

(** ** Providers and states used to run the code *)

Definition movie (id title year : string) : Movie :=
  {| imdbID := id; Title := title; Year := year; Poster := "N/A" |}.

Definition batman_begins : Movie := movie "tt0372784" "Batman Begins" "2005".
Definition dark_knight : Movie := movie "tt0468569" "The Dark Knight" "2008".
Definition spider_man : Movie := movie "tt0145487" "Spider-Man" "2002".

(** TMDB answers with no [results] field. *)
Definition no_tmdb_search
    : nat -> string -> string -> string -> reply (option (list TmdbMovie.t)) :=
  fun _ _ _ _ => Json None.

Definition no_tmdb_videos
    : nat -> string -> Z -> reply (option (list Video.t)) :=
  fun _ _ _ => Json None.

(** OMDB answers page 1 of every search with [first], page 2 with [second],
    and later pages without a [Search] field. *)
Definition two_pages (first second : list Movie) : Provider :=
  {| omdb_search := fun _ _ page =>
       if page =? 1 then Json (Some first)
       else if page =? 2 then Json (Some second)
       else Json None;
     tmdb_search_movie := no_tmdb_search;
     tmdb_movie_videos := no_tmdb_videos |}.

(** OMDB answers pages 1 to 11 with [ms] and later pages without a
    [Search] field. *)
Definition eleven_pages (ms : list Movie) : Provider :=
  {| omdb_search := fun _ _ page =>
       if page <=? 11 then Json (Some ms) else Json None;
     tmdb_search_movie := no_tmdb_search;
     tmdb_movie_videos := no_tmdb_videos |}.

(** OMDB answers by title: page 1 of a search for "Batman" or "Spider" has
    results, every other page has none. *)
Definition batman_and_spider : Provider :=
  {| omdb_search := fun _ s page =>
       if String.eqb s "Batman" && (page =? 1)
       then Json (Some [batman_begins; dark_knight])
       else if String.eqb s "Spider" && (page =? 1)
       then Json (Some [spider_man])
       else Json None;
     tmdb_search_movie := no_tmdb_search;
     tmdb_movie_videos := no_tmdb_videos |}.

(** Every request fails. *)
Definition offline : Provider :=
  {| omdb_search := fun _ _ _ => Rejected NetworkError;
     tmdb_search_movie := fun _ _ _ _ => Rejected NetworkError;
     tmdb_movie_videos := fun _ _ _ => Rejected NetworkError |}.

(** TMDB finds one title, numbered 155, whose videos are [videos]. *)
Definition tmdb_with (videos : list Video.t) : Provider :=
  {| omdb_search := fun _ _ _ => Json None;
     tmdb_search_movie := fun _ _ _ _ => Json (Some [ {| TmdbMovie.id := 155 |} ]);
     tmdb_movie_videos := fun _ _ _ => Json (Some videos) |}.

Definition video (type site key : string) : Video.t :=
  {| Video.type := type; Video.site := site; Video.key := key |}.

(** The first render, before any request. *)
Definition start : World := {| app := initialState; log := [] |}.

(** ** Pages and requests of the paginated fetcher *)

(** The reply to the request for page [p] when the pages are requested in
    order, one request per page, starting in world [w]. *)
Definition page_reply (P : Provider) (w : World) (genre : string) (p : Z)
    : reply (option (list Movie)) :=
  omdb_search P (length (log w) + Z.to_nat (p - 1))%nat genre p.

(** [pages] are the [Search] fields of pages [1 .. length pages]. *)
Definition pages_have_results (P : Provider) (w : World) (genre : string)
    (pages : list (list Movie)) : Prop :=
  forall (i : nat) (ms : list Movie),
    pages !! i = Some ms ->
    page_reply P w genre (Z.of_nat i + 1) = Json (Some ms).

(** The requests for the [n] pages [page], [page + 1], ... of [genre]. *)
Fixpoint requests_from (genre : string) (page : Z) (n : nat) : list request :=
  match n with
  | O => []
  | S n' => OmdbSearch genre page :: requests_from genre (page + 1) n'
  end.

Definition page_requests (genre : string) (n : nat) : list request :=
  requests_from genre 1 n.

Definition issue (reqs : list request) (w : World) : World :=
  {| app := app w; log := log w ++ reqs |}.

(** What the loop does at the page that ends it, when that page has no
    results. *)
Definition stop_outcome (r : reply (option (list Movie)))
    (acc : list Movie) : outcome (list Movie) :=
  match r with
  | Rejected e => Throw e
  | Json _ => Return acc
  end.

(** "The concatenation of the pages up to but excluding the first page
    whose response lacks a results field", with no page ceiling. *)
Definition concat_until_first_absent_spec : Prop :=
  forall (fuel : nat) (genre : string) (P : Provider) (w : World)
         (pages : list (list Movie)),
    (10 <= fuel)%nat ->
    pages_have_results P w genre pages ->
    page_reply P w genre (Z.of_nat (length pages) + 1) = Json None ->
    (fetchAllMoviesByGenre fuel genre P w).1 = Return (concat pages).

(** ** Weather description *)

Definition getWeatherDescription (code : Z) (temp : Q) : string :=
  if (71 <=? code) && (code <=? 77) then "it's snowing ❄️"
  else if (51 <=? code) && (code <=? 67) then "it's raining 🌧️"
  else if (45 <=? code) && (code <=? 48) then "it's foggy 🌫️"
  else if (0 <=? code) && (code <=? 3) then "it's clear and sunny ☀️"
  else if Qle_bool 30 temp then "it's hot outside 🔥"
  else if Qle_bool temp 5 then "it's freezing cold 🥶"
  else "the weather is mild 🌤️".

(** The genre of each branch with the description of the same branch. *)
Definition genre_reasons : list (string * string) :=
  [ ("adventure", "it's clear and sunny ☀️");
    ("mystery", "it's foggy 🌫️");
    ("romance", "it's raining 🌧️");
    ("fantasy", "it's snowing ❄️");
    ("action", "it's hot outside 🔥");
    ("family", "it's freezing cold 🥶");
    ("drama", "the weather is mild 🌤️") ].

(** Every character of [s] is one [trim_ascii] strips. *)
Fixpoint all_spaces (s : string) : bool :=
  match s with
  | EmptyString => true
  | String c s' => is_space c && all_spaces s'
  end.

(** ** Preview controller: timers and display modes *)

(** [type PreviewMode = 'expand' | 'modal'] *)
Inductive PreviewMode := expand | modal.

(** What a pending timer runs when it fires: the callback
    [handleMouseEnter] arms (it closes over the movie and the card element,
    of which only whether it is null matters), or the one
    [handleMouseLeave] arms. *)
Inductive callback :=
| ShowPreview (movie : Movie) (has_card : bool)
| ClosePreview.

(** The cells and refs of the preview, with the timers of [window] that
    are pending (each with its delay in milliseconds) and the id the next
    [window.setTimeout] returns; ids are positive, hence truthy. *)
Module Preview.
Record t := {
  hoveredMovie : option Movie;
  previewPosition : PreviewPosition.t;
  previewMode : PreviewMode;
  hoverTimeoutRef : option positive;
  closeTimeoutRef : option positive;
  timers : gmap positive (Z * callback);
  nextTimer : positive
}.
End Preview.

Definition initialPreview : Preview.t :=
  {| Preview.hoveredMovie := None;
     Preview.previewPosition :=
       {| PreviewPosition.top := Number.of_Z 0;
          PreviewPosition.left := Number.of_Z 0 |};
     Preview.previewMode := expand;
     Preview.hoverTimeoutRef := None;
     Preview.closeTimeoutRef := None;
     Preview.timers := ∅;
     Preview.nextTimer := 1%positive |}.

Definition setHoveredMovie (v : option Movie) (s : Preview.t) : Preview.t :=
  {| Preview.hoveredMovie := v;
     Preview.previewPosition := Preview.previewPosition s;
     Preview.previewMode := Preview.previewMode s;
     Preview.hoverTimeoutRef := Preview.hoverTimeoutRef s;
     Preview.closeTimeoutRef := Preview.closeTimeoutRef s;
     Preview.timers := Preview.timers s;
     Preview.nextTimer := Preview.nextTimer s |}.

Definition setPreviewPosition (v : PreviewPosition.t) (s : Preview.t)
    : Preview.t :=
  {| Preview.hoveredMovie := Preview.hoveredMovie s;
     Preview.previewPosition := v;
     Preview.previewMode := Preview.previewMode s;
     Preview.hoverTimeoutRef := Preview.hoverTimeoutRef s;
     Preview.closeTimeoutRef := Preview.closeTimeoutRef s;
     Preview.timers := Preview.timers s;
     Preview.nextTimer := Preview.nextTimer s |}.

Definition setPreviewMode (v : PreviewMode) (s : Preview.t) : Preview.t :=
  {| Preview.hoveredMovie := Preview.hoveredMovie s;
     Preview.previewPosition := Preview.previewPosition s;
     Preview.previewMode := v;
     Preview.hoverTimeoutRef := Preview.hoverTimeoutRef s;
     Preview.closeTimeoutRef := Preview.closeTimeoutRef s;
     Preview.timers := Preview.timers s;
     Preview.nextTimer := Preview.nextTimer s |}.

(** [hoverTimeoutRef.current = v] *)
Definition setHoverTimeoutRef (v : option positive) (s : Preview.t)
    : Preview.t :=
  {| Preview.hoveredMovie := Preview.hoveredMovie s;
     Preview.previewPosition := Preview.previewPosition s;
     Preview.previewMode := Preview.previewMode s;
     Preview.hoverTimeoutRef := v;
     Preview.closeTimeoutRef := Preview.closeTimeoutRef s;
     Preview.timers := Preview.timers s;
     Preview.nextTimer := Preview.nextTimer s |}.

(** [closeTimeoutRef.current = v] *)
Definition setCloseTimeoutRef (v : option positive) (s : Preview.t)
    : Preview.t :=
  {| Preview.hoveredMovie := Preview.hoveredMovie s;
     Preview.previewPosition := Preview.previewPosition s;
     Preview.previewMode := Preview.previewMode s;
     Preview.hoverTimeoutRef := Preview.hoverTimeoutRef s;
     Preview.closeTimeoutRef := v;
     Preview.timers := Preview.timers s;
     Preview.nextTimer := Preview.nextTimer s |}.

(** [clearTimeout(id)]: the timer is dropped if it is still pending. *)
Definition clearTimeout (id : positive) (s : Preview.t) : Preview.t :=
  {| Preview.hoveredMovie := Preview.hoveredMovie s;
     Preview.previewPosition := Preview.previewPosition s;
     Preview.previewMode := Preview.previewMode s;
     Preview.hoverTimeoutRef := Preview.hoverTimeoutRef s;
     Preview.closeTimeoutRef := Preview.closeTimeoutRef s;
     Preview.timers := delete id (Preview.timers s);
     Preview.nextTimer := Preview.nextTimer s |}.

(** [window.setTimeout(cb, delay)]: the id returned and the state with the
    timer pending. *)
Definition setTimeout (cb : callback) (delay : Z) (s : Preview.t)
    : positive * Preview.t :=
  (Preview.nextTimer s,
   {| Preview.hoveredMovie := Preview.hoveredMovie s;
      Preview.previewPosition := Preview.previewPosition s;
      Preview.previewMode := Preview.previewMode s;
      Preview.hoverTimeoutRef := Preview.hoverTimeoutRef s;
      Preview.closeTimeoutRef := Preview.closeTimeoutRef s;
      Preview.timers := <[Preview.nextTimer s := (delay, cb)]> (Preview.timers s);
      Preview.nextTimer := Pos.succ (Preview.nextTimer s) |}).

(** [if (ref.current) clearTimeout(ref.current)] *)
Definition clear_if_set (ref : option positive) (s : Preview.t) : Preview.t :=
  match ref with
  | Some id => clearTimeout id s
  | None => s
  end.

Definition handleMouseEnter (movie : Movie) (has_card : bool) (s : Preview.t)
    : Preview.t :=
  let s := clear_if_set (Preview.hoverTimeoutRef s) s in
  let s :=
    match Preview.closeTimeoutRef s with
    | Some id => setCloseTimeoutRef None (clearTimeout id s)
    | None => s
    end in
  let (id, s) := setTimeout (ShowPreview movie has_card) 700 s in
  setHoverTimeoutRef (Some id) s.

Definition is_some {A} (o : option A) : bool :=
  match o with Some _ => true | None => false end.

Definition is_modal (mode : PreviewMode) : bool :=
  match mode with modal => true | expand => false end.

Definition handleMouseLeave (s : Preview.t) : Preview.t :=
  let s :=
    match Preview.hoverTimeoutRef s with
    | Some id => setHoverTimeoutRef None (clearTimeout id s)
    | None => s
    end in
  if is_modal (Preview.previewMode s) && is_some (Preview.hoveredMovie s)
  then s
  else
    let (id, s) := setTimeout ClosePreview 300 s in
    setCloseTimeoutRef (Some id) s.

Definition handlePreviewEnter (s : Preview.t) : Preview.t :=
  let s := clear_if_set (Preview.hoverTimeoutRef s) s in
  match Preview.closeTimeoutRef s with
  | Some id => setCloseTimeoutRef None (clearTimeout id s)
  | None => s
  end.

Definition handleInstantClose (s : Preview.t) : Preview.t :=
  let s := clear_if_set (Preview.hoverTimeoutRef s) s in
  let s := clear_if_set (Preview.closeTimeoutRef s) s in
  setHoveredMovie None s.

(** The [keydown] listener of the effect on [hoveredMovie]. *)
Definition handleKeyDown (key : string) (s : Preview.t) : Preview.t :=
  if String.eqb key "Escape" && is_some (Preview.hoveredMovie s)
  then handleInstantClose s
  else s.

(** The body of a timer's callback; [rect] is what
    [cardElement.getBoundingClientRect()] returns at that time. *)
Definition runCallback (cb : callback) (rect : DOMRect.t) (window : Window.t)
    (s : Preview.t) : Preview.t :=
  match cb with
  | ShowPreview movie has_card =>
      let (position, hovered) :=
        showTimerElapsed movie (if has_card then Some rect else None) window
          (Preview.previewPosition s) in
      setHoveredMovie hovered (setPreviewPosition position s)
  | ClosePreview => setHoveredMovie None s
  end.

(** What the pointer, the keyboard and the clock can do to the preview. *)
Inductive input :=
| MouseEnter (movie : Movie) (has_card : bool)
| MouseLeave
| PreviewEnter
| InstantClose
| KeyDown (key : string)
| ToggleMode (mode : PreviewMode)
| TimerFires (id : positive) (rect : DOMRect.t) (window : Window.t).

(** A timer fires once, if it is still pending. *)
Definition preview_step (s : Preview.t) (i : input) : Preview.t :=
  match i with
  | MouseEnter movie has_card => handleMouseEnter movie has_card s
  | MouseLeave => handleMouseLeave s
  | PreviewEnter => handlePreviewEnter s
  | InstantClose => handleInstantClose s
  | KeyDown key => handleKeyDown key s
  | ToggleMode mode => setPreviewMode mode s
  | TimerFires id rect window =>
      match Preview.timers s !! id with
      | Some (_, cb) => runCallback cb rect window (clearTimeout id s)
      | None => s
      end
  end.

Definition preview_run (s : Preview.t) (inputs : list input) : Preview.t :=
  foldl preview_step s inputs.

(** A show timer, respectively a close timer, is pending under [id]. *)
Definition show_pending (s : Preview.t) (id : positive) : Prop :=
  exists delay movie has_card,
    Preview.timers s !! id = Some (delay, ShowPreview movie has_card).

Definition close_pending (s : Preview.t) (id : positive) : Prop :=
  exists delay, Preview.timers s !! id = Some (delay, ClosePreview).

(** What the handlers maintain: a pending show timer is the one
    [hoverTimeoutRef] holds, and ids in use are below the next id. *)
Definition timers_tracked (s : Preview.t) : Prop :=
  (forall id, show_pending s id -> Preview.hoverTimeoutRef s = Some id)
  /\ (forall id, is_Some (Preview.timers s !! id) ->
        (id < Preview.nextTimer s)%positive)
  /\ (forall id, Preview.hoverTimeoutRef s = Some id ->
        (id < Preview.nextTimer s)%positive)
  /\ (forall id, Preview.closeTimeoutRef s = Some id ->
        (id < Preview.nextTimer s)%positive).

Definition is_mouse_enter (i : input) : bool :=
  match i with MouseEnter _ _ => true | _ => false end.

(** Inputs that close a modal preview or leave modal mode. *)
Definition closes_modal (i : input) : bool :=
  match i with
  | InstantClose => true
  | KeyDown key => String.eqb key "Escape"
  | ToggleMode _ => true
  | _ => false
  end.

(** The pending timers once the timer a ref holds, if any, is cleared. *)
Definition without (ref : option positive) (pending : gmap positive (Z * callback))
    : gmap positive (Z * callback) :=
  match ref with
  | Some id => delete id pending
  | None => pending
  end.

(** No show timer is pending. *)
Definition no_show_pending (s : Preview.t) : Prop :=
  forall id, ~ show_pending s id.

(** No close timer is pending. *)
Definition no_close_pending (s : Preview.t) : Prop :=
  forall id, ~ close_pending s id.

Definition no_mouse_enter (inputs : list input) : Prop :=
  forallb (fun i => negb (is_mouse_enter i)) inputs = true.

Definition keeps_modal_open (inputs : list input) : Prop :=
  forallb (fun i => negb (closes_modal i)) inputs = true.

(** ** Suggestion loader *)

(** An entry of the [results] array of TMDB's top-rated listing: the
    fields the code reads; [None] is an absent (or null) field. *)
Module TmdbListing.
Record t := {
  id : Z;
  title : string;
  release_date : option string;
  poster_path : option string
}.
End TmdbListing.

(** The services the loader calls besides those of [Provider]: TMDB's
    top-rated listing (the [results] field), TMDB's external ids (the
    [imdb_id] field) and the weather forecast ([current_weather.weathercode]
    and [current_weather.temperature]; a body that lacks them makes the
    property access throw inside the same [try], and is represented as a
    rejection).  As for [Provider], the first argument is the number of
    calls made before. *)
Record Services := {
  movies_provider : Provider;
  tmdb_top_rated : nat -> string -> Z -> reply (option (list TmdbListing.t));
  tmdb_external_ids : nat -> string -> Z -> reply (option string);
  open_meteo : nat -> Q -> Q -> reply (Z * Q)
}.

Inductive call :=
| MovieCall (r : request)
| TopRatedCall (api_key : string) (page : Z)
| ExternalIdsCall (api_key : string) (tmdbId : Z)
| ForecastCall (latitude longitude : Q).

Record Site := {
  state : AppState;
  calls : list call
}.

Definition L (A : Type) : Type := Services -> Site -> outcome A * Site.

Definition retL {A} (a : A) : L A := fun _ site => (Return a, site).

Definition bindL {A B} (m : L A) (k : A -> L B) : L B :=
  fun S site =>
    match m S site with
    | (Return a, site') => k a S site'
    | (Throw e, site') => (Throw e, site')
    | (OutOfFuel, site') => (OutOfFuel, site')
    end.

Definition try_catchL {A} (m : L A) (h : exn -> L A) : L A :=
  fun S site =>
    match m S site with
    | (Throw e, site') => h e S site'
    | r => r
    end.

Definition setL (f : AppState -> AppState) : L unit :=
  fun _ site => (Return tt, {| state := f (state site); calls := calls site |}).

Definition called (c : call) (site : Site) : Site :=
  {| state := state site; calls := calls site ++ [c] |}.

Definition fetch_top_rated (api_key : string) (page : Z)
    : L (option (list TmdbListing.t)) :=
  fun S site =>
    (of_reply (tmdb_top_rated S (length (calls site)) api_key page),
     called (TopRatedCall api_key page) site).

Definition fetch_external_ids (api_key : string) (tmdbId : Z)
    : L (option string) :=
  fun S site =>
    (of_reply (tmdb_external_ids S (length (calls site)) api_key tmdbId),
     called (ExternalIdsCall api_key tmdbId) site).

Definition fetch_forecast (latitude longitude : Q) : L (Z * Q) :=
  fun S site =>
    (of_reply (open_meteo S (length (calls site)) latitude longitude),
     called (ForecastCall latitude longitude) site).

(** The provider as seen by a computation that starts after [n] calls. *)
Definition shift (n : nat) (P : Provider) : Provider :=
  {| omdb_search := fun i => omdb_search P (n + i);
     tmdb_search_movie := fun i => tmdb_search_movie P (n + i);
     tmdb_movie_videos := fun i => tmdb_movie_videos P (n + i) |}.

(** A function of the monad [M] called from the loader: its requests are
    appended to the calls made so far. *)
Definition lift {A} (m : M A) : L A :=
  fun S site =>
    let r :=
      m (shift (length (calls site)) (movies_provider S))
        {| app := state site; log := [] |} in
    (r.1, {| state := app r.2;
             calls := calls site ++ map MovieCall (log r.2) |}).

Declare Scope loader_scope.
Delimit Scope loader_scope with loader.
Notation "x <- m ;; k" := (bindL m (fun x => k))
  (at level 100, m at next level, right associativity) : loader_scope.
Notation "m ;; k" := (bindL m (fun _ => k))
  (at level 100, right associativity) : loader_scope.
Open Scope loader_scope.

(** The character '-' (code 45). *)
Definition dash : Ascii.ascii := Ascii.ascii_of_nat 45.

(** [s.split('-')[0]] *)
Fixpoint before_dash (s : string) : string :=
  match s with
  | EmptyString => EmptyString
  | String c s' =>
      if Ascii.eqb c dash then EmptyString else String c (before_dash s')
  end.

(** [tmdbMovie.release_date?.split('-')[0] || 'N/A'] *)
Definition year_of (release_date : option string) : string :=
  match release_date with
  | Some date =>
      if truthy (before_dash date) then before_dash date else "N/A"
  | None => "N/A"
  end.

(** The poster URL, or 'N/A' for a falsy [poster_path]. *)
Definition poster_of (poster_path : option string) : string :=
  match poster_path with
  | Some path =>
      if truthy path then "https://image.tmdb.org/t/p/w500" ++ path
      else "N/A"
  | None => "N/A"
  end.

(** The object pushed on [movies] for a listing entry with an IMDB id. *)
Definition toMovie (tmdbMovie : TmdbListing.t) (imdb_id : string) : Movie :=
  {| imdbID := imdb_id;
     Title := TmdbListing.title tmdbMovie;
     Year := year_of (TmdbListing.release_date tmdbMovie);
     Poster := poster_of (TmdbListing.poster_path tmdbMovie) |}.

(** [for (const tmdbMovie of data.results)] *)
Fixpoint collect_imdb (api_key : string) (results : list TmdbListing.t)
    (movies : list Movie) : L (list Movie) :=
  match results with
  | [] => retL movies
  | tmdbMovie :: rest =>
      detailData_imdb_id <-
        fetch_external_ids api_key (TmdbListing.id tmdbMovie) ;;
      let movies :=
        match detailData_imdb_id with
        | Some imdb_id =>
            if truthy imdb_id then movies ++ [toMovie tmdbMovie imdb_id]
            else movies
        | None => movies
        end in
      collect_imdb api_key rest movies
  end.

(** [for (let page = ..; page <= 3; page++)], with [remaining] the number
    of iterations left. *)
Fixpoint top_rated_pages (api_key : string) (remaining : nat) (page : Z)
    (movies : list Movie) : L (list Movie) :=
  match remaining with
  | O => retL movies
  | S remaining' =>
      data_results <- fetch_top_rated api_key page ;;
      movies <-
        match data_results with
        | Some results => collect_imdb api_key results movies
        | None => retL movies
        end ;;
      top_rated_pages api_key remaining' (page + 1) movies
  end.

Definition fetchTopRatedMovies (TMDB_API_KEY : option string) (fuel : nat)
    : L (list Movie) :=
  match TMDB_API_KEY with
  | None => lift (fetchAllMoviesByGenre fuel "movie")
  | Some api_key =>
      if negb (truthy api_key) then lift (fetchAllMoviesByGenre fuel "movie")
      else
        try_catchL (top_rated_pages api_key 3 1 [])
          (fun _ => lift (fetchAllMoviesByGenre fuel "movie"))
  end.

Definition top_rated_reason : string := "they're top rated ⭐".

(** The success callback of [getCurrentPosition]. *)
Definition positionGranted (TMDB_API_KEY : option string) (fuel : nat)
    (latitude longitude : Q) : L unit :=
  try_catchL
    (current_weather <- fetch_forecast latitude longitude ;;
     let weatherCode := current_weather.1 in
     let temperature := current_weather.2 in
     let genre := getGenreForWeather weatherCode temperature in
     let weatherDesc := getWeatherDescription weatherCode temperature in
     setL (setWeatherReason weatherDesc) ;;
     allMovies <- lift (fetchAllMoviesByGenre fuel genre) ;;
     setL (setSuggested allMovies))
    (fun _ =>
     setL (setWeatherReason top_rated_reason) ;;
     topMovies <- fetchTopRatedMovies TMDB_API_KEY fuel ;;
     setL (setSuggested topMovies)).

(** The error callback of [getCurrentPosition]. *)
Definition positionDenied (TMDB_API_KEY : option string) (fuel : nat)
    : L unit :=
  try_catchL
    (setL (setWeatherReason top_rated_reason) ;;
     topMovies <- fetchTopRatedMovies TMDB_API_KEY fuel ;;
     setL (setSuggested topMovies))
    (fun _ => retL tt).

Close Scope loader_scope.

(** The page was just opened: first render, no call yet. *)
Definition opened : Site := {| state := initialState; calls := [] |}.

(** Every cell of the state but the suggestions and their reason. *)
Definition search_cells (s : AppState)
    : string * string * list Movie * bool * bool
      * list SearchHistoryEntry.t * string :=
  (query s, searchedQuery s, movies s, hasSearched s, isSearching s,
   searchHistory s, selectedGenre s).

(** Calls to TMDB's listing and external-ids endpoints. *)
Definition is_tmdb_call (c : call) : bool :=
  match c with
  | TopRatedCall _ _ | ExternalIdsCall _ _ => true
  | MovieCall _ | ForecastCall _ _ => false
  end.

Definition is_top_rated_call (c : call) : bool :=
  match c with
  | TopRatedCall _ _ => true
  | _ => false
  end.

(** The calls for the [n] listing pages [page], [page + 1], ... *)
Fixpoint top_rated_calls (api_key : string) (page : Z) (n : nat) : list call :=
  match n with
  | O => []
  | S n' => TopRatedCall api_key page :: top_rated_calls api_key (page + 1) n'
  end.

Definition has_imdb_id (m : Movie) : Prop := imdbID m <> EmptyString.

(** The site after the requests [reqs] of a lifted function. *)
Definition after_requests (reqs : list request) (site : Site) : Site :=
  {| state := state site; calls := calls site ++ map MovieCall reqs |}.

Definition after_calls (new : list call) (site : Site) : Site :=
  {| state := state site; calls := calls site ++ new |}.

(** No character of [s] is a dash. *)
Fixpoint no_dash (s : string) : bool :=
  match s with
  | EmptyString => true
  | String c s' => negb (Ascii.eqb c dash) && no_dash s'
  end.

(** The outcome of a callback that drops the value it computed. *)
Definition ignoring_value {A} (r : outcome A) : outcome unit :=
  match r with
  | Return _ => Return tt
  | Throw e => Throw e
  | OutOfFuel => OutOfFuel
  end.
(** Services used to run the loader: the forecast is code 0 at 25 degrees;
    the first page of the top-rated listing has two entries, of which only
    the first has an IMDB id, the other pages are empty. *)
Definition the_dark_knight : TmdbListing.t :=
  {| TmdbListing.id := 155; TmdbListing.title := "The Dark Knight";
     TmdbListing.release_date := Some "2008-07-16";
     TmdbListing.poster_path := Some "/qJ2tW6WMUDux911r6m7haRef0WH.jpg" |}.

Definition unreleased : TmdbListing.t :=
  {| TmdbListing.id := 999; TmdbListing.title := "Untitled";
     TmdbListing.release_date := None; TmdbListing.poster_path := None |}.

Definition sunny (P : Provider) : Services :=
  {| movies_provider := P;
     tmdb_top_rated := fun _ _ page =>
       if page =? 1 then Json (Some [the_dark_knight; unreleased])
       else Json (Some []);
     tmdb_external_ids := fun _ _ tmdbId =>
       if tmdbId =? 155 then Json (Some "tt0468569") else Json None;
     open_meteo := fun _ _ _ => Json (0, 25%Q) |}.

(** The forecast and TMDB fail; OMDB is [P]. *)
Definition only_omdb (P : Provider) : Services :=
  {| movies_provider := P;
     tmdb_top_rated := fun _ _ _ => Rejected NetworkError;
     tmdb_external_ids := fun _ _ _ => Rejected NetworkError;
     open_meteo := fun _ _ _ => Rejected NetworkError |}.

(** ** The search handler as first written *)

(** [handleSearch] of [src/App.tsx] (and of the first component of the
    repository): the query is used as typed, and only [movies] is set. *)
Definition handleSearch_first (fuel : nat) : M unit :=
  (s <- render_state ;;
   if negb (truthy (query s)) then ret tt
   else
     allMovies <- handleSearch_loop fuel (query s) [] 1 ;;
     set (setMovies allMovies))%async.

(** The rejection, if any, with which the service answers the TMDB call
    [c] made after [i] calls. *)
Definition tmdb_failure (S : Services) (i : nat) (c : call) : option exn :=
  match c with
  | TopRatedCall api_key page =>
      match tmdb_top_rated S i api_key page with
      | Rejected e => Some e
      | Json _ => None
      end
  | ExternalIdsCall api_key tmdbId =>
      match tmdb_external_ids S i api_key tmdbId with
      | Rejected e => Some e
      | Json _ => None
      end
  | MovieCall _ | ForecastCall _ _ => None
  end.

(** None of the calls [cs], made in this order after [i] calls, is answered
    by a rejection. *)
Fixpoint all_answered (S : Services) (i : nat) (cs : list call) : bool :=
  match cs with
  | [] => true
  | c :: cs' =>
      match tmdb_failure S i c with
      | None => all_answered S (i + 1) cs'
      | Some _ => false
      end
  end.

(** The site in which the fallback of the loader starts: the reason is
    set before [fetchTopRatedMovies] is called. *)
Definition top_rated_announced (site : Site) : Site :=
  {| state := setWeatherReason top_rated_reason (state site);
     calls := calls site |}.

(** ** Genre mapper: proofs *)

Lemma getGenreForWeather_table (code : Z) (temp : Q) :
  getGenreForWeather code temp
  = first_match_spec genre_rules_spec "drama" code temp.
Proof. reflexivity. Qed.

Lemma in_range_true (lo hi code : Z) :
  lo <= code <= hi -> (lo <=? code) && (code <=? hi) = true.
Proof. intros [Hlo Hhi]. apply andb_true_iff; split; lia. Qed.

Lemma in_range_false (lo hi code : Z) :
  ~ (lo <= code <= hi) -> (lo <=? code) && (code <=? hi) = false.
Proof.
  intros Hn. apply andb_false_iff.
  destruct (Z.leb_spec lo code); [right | left; reflexivity].
  apply Z.leb_gt. lia.
Qed.

Lemma Qle_bool_false (x y : Q) : ~ (x <= y)%Q -> Qle_bool x y = false.
Proof.
  intros Hn. destruct (Qle_bool x y) eqn:E; [| reflexivity].
  exfalso. apply Hn. now apply Qle_bool_iff.
Qed.

Lemma outside_code_ranges_temp (code : Z) (temp : Q) :
  outside_code_ranges code ->
  getGenreForWeather code temp
  = if Qle_bool 30 temp then "action"
    else if Qle_bool temp 5 then "family" else "drama".
Proof.
  intros (H1 & H2 & H3 & H4). unfold getGenreForWeather.
  now rewrite !in_range_false by assumption.
Qed.

(** C1: the genre mapper is a total function of the weather code and the
    temperature, and its value follows the ordered rules: code in [0,3]
    gives "adventure", [45,48] "mystery", [51,67] "romance", [71,77]
    "fantasy"; for a code in none of the ranges, a temperature of at least
    30 gives "action", otherwise one of at most 5 gives "family", otherwise
    the result is "drama". *)
Theorem getGenreForWeather_rules (code : Z) (temp : Q) :
  (0 <= code <= 3 -> getGenreForWeather code temp = "adventure") /\
  (45 <= code <= 48 -> getGenreForWeather code temp = "mystery") /\
  (51 <= code <= 67 -> getGenreForWeather code temp = "romance") /\
  (71 <= code <= 77 -> getGenreForWeather code temp = "fantasy") /\
  (outside_code_ranges code -> (30 <= temp)%Q ->
     getGenreForWeather code temp = "action") /\
  (outside_code_ranges code -> ~ (30 <= temp)%Q -> (temp <= 5)%Q ->
     getGenreForWeather code temp = "family") /\
  (outside_code_ranges code -> ~ (30 <= temp)%Q -> ~ (temp <= 5)%Q ->
     getGenreForWeather code temp = "drama").
Proof.
  repeat split.
  - intros H. unfold getGenreForWeather. now rewrite in_range_true.
  - intros H. unfold getGenreForWeather.
    rewrite (in_range_false 0 3) by lia. now rewrite in_range_true.
  - intros H. unfold getGenreForWeather.
    rewrite (in_range_false 0 3), (in_range_false 45 48) by lia.
    now rewrite in_range_true.
  - intros H. unfold getGenreForWeather.
    rewrite (in_range_false 0 3), (in_range_false 45 48),
      (in_range_false 51 67) by lia.
    now rewrite in_range_true.
  - intros Hout Hhot. rewrite outside_code_ranges_temp by assumption.
    apply Qle_bool_iff in Hhot. now rewrite Hhot.
  - intros Hout Hhot Hcold. rewrite outside_code_ranges_temp by assumption.
    rewrite Qle_bool_false by assumption.
    apply Qle_bool_iff in Hcold. now rewrite Hcold.
  - intros Hout Hhot Hcold. rewrite outside_code_ranges_temp by assumption.
    now rewrite !Qle_bool_false by assumption.
Qed.

Lemma getGenreForWeather_rules_witness :
  getGenreForWeather 0 25 = "adventure" /\
  getGenreForWeather 48 (-3) = "mystery" /\
  getGenreForWeather 61 40 = "romance" /\
  getGenreForWeather 75 31 = "fantasy" /\
  getGenreForWeather 80 30 = "action" /\
  getGenreForWeather 95 5 = "family" /\
  getGenreForWeather 4 (31 # 2) = "drama".
Proof.
  split; [apply (getGenreForWeather_rules 0 25); lia |].
  split; [apply (getGenreForWeather_rules 48 (-3)); lia |].
  split; [apply (getGenreForWeather_rules 61 40); lia |].
  split; [apply (getGenreForWeather_rules 75 31); lia |].
  split; [apply (getGenreForWeather_rules 80 30);
          [unfold outside_code_ranges; lia | unfold Qle; simpl; lia] |].
  split; [apply (getGenreForWeather_rules 95 5);
          [unfold outside_code_ranges; lia | unfold Qle; simpl; lia
          | unfold Qle; simpl; lia] |].
  apply (getGenreForWeather_rules 4 (31 # 2));
    [unfold outside_code_ranges; lia | unfold Qle; simpl; lia
    | unfold Qle; simpl; lia].
Defined.

(** ** Paginated fetcher: proofs *)

Lemma bind_eq {A B} (m : M A) (k : A -> M B) (P : Provider) (w : World) :
  bind m k P w
  = match m P w with
    | (Return a, w') => k a P w'
    | (Throw e, w') => (Throw e, w')
    | (OutOfFuel, w') => (OutOfFuel, w')
    end.
Proof. reflexivity. Qed.

Lemma loop_unfold (fuel : nat) (genre : string) (acc : list Movie) (page : Z)
    (P : Provider) (w : World) :
  fetchAllMoviesByGenre_loop (S fuel) genre acc page P w
  = match omdb_search P (length (log w)) genre page with
    | Rejected e => (Throw e, with_request (OmdbSearch genre page) w)
    | Json None => (Return acc, with_request (OmdbSearch genre page) w)
    | Json (Some search) =>
        if 10 <? page + 1
        then (Return (acc ++ search), with_request (OmdbSearch genre page) w)
        else fetchAllMoviesByGenre_loop fuel genre (acc ++ search) (page + 1)
               P (with_request (OmdbSearch genre page) w)
    end.
Proof.
  cbn [fetchAllMoviesByGenre_loop]. rewrite bind_eq. unfold fetch_omdb.
  destruct (omdb_search P (length (log w)) genre page) as [e | [search |]];
    cbn [of_reply]; try reflexivity.
  destruct (10 <? page + 1); reflexivity.
Qed.

(** The loop written out in [handleSearch] is the loop of
    [fetchAllMoviesByGenre]. *)
Lemma handleSearch_loop_eq (fuel : nat) :
  forall (q : string) (acc : list Movie) (page : Z) (P : Provider) (w : World),
    handleSearch_loop fuel q acc page P w
    = fetchAllMoviesByGenre_loop fuel q acc page P w.
Proof. intros q acc page P w. reflexivity. Qed.

(** From page [page] on, the loop stops within [11 - page] iterations (one
    when it starts past the ceiling), whatever the provider answers. *)
Lemma loop_terminates (fuel : nat) (genre : string) (P : Provider) :
  forall (acc : list Movie) (page : Z) (w : World),
    (1 <= fuel)%nat -> (Z.to_nat (11 - page) <= fuel)%nat ->
    exists r reqs,
      fetchAllMoviesByGenre_loop fuel genre acc page P w
      = (r, {| app := app w; log := log w ++ reqs |})
      /\ r <> OutOfFuel
      /\ (length reqs <= Nat.max 1 (Z.to_nat (11 - page)))%nat
      /\ Forall (fun rq => exists p, rq = OmdbSearch genre p) reqs.
Proof.
  induction fuel as [| fuel IH]; intros acc page w H1 Hfuel; [lia |].
  rewrite loop_unfold.
  assert (Hone : Forall (fun rq => exists p, rq = OmdbSearch genre p)
                   [OmdbSearch genre page]).
  { constructor; [now exists page | constructor]. }
  destruct (omdb_search P (length (log w)) genre page) as [e | [search |]].
  - exists (Throw e), [OmdbSearch genre page].
    repeat split; [discriminate | simpl; lia | exact Hone].
  - destruct (Z.ltb_spec 10 (page + 1)) as [Hcap | Hmore].
    + exists (Return (acc ++ search)), [OmdbSearch genre page].
      repeat split; [discriminate | simpl; lia | exact Hone].
    + destruct (IH (acc ++ search) (page + 1)
                  (with_request (OmdbSearch genre page) w))
        as (r & reqs & Heq & Hr & Hlen & Hall); [lia | lia |].
      exists r, (OmdbSearch genre page :: reqs). rewrite Heq.
      repeat split.
      * simpl. now rewrite <- app_assoc.
      * exact Hr.
      * simpl. lia.
      * constructor; [now exists page | exact Hall].
  - exists (Return acc), [OmdbSearch genre page].
    repeat split; [discriminate | simpl; lia | exact Hone].
Qed.

Lemma requests_from_length (genre : string) (n : nat) :
  forall page, length (requests_from genre page n) = n.
Proof. induction n as [| n IH]; intros page; simpl; [| rewrite IH]; reflexivity. Qed.

Lemma issue_cons (r : request) (reqs : list request) (w : World) :
  issue reqs (with_request r w) = issue (r :: reqs) w.
Proof. unfold issue, with_request. simpl. now rewrite <- app_assoc. Qed.


(** Pages [page .. page + length pages - 1] have results and lie below the
    ceiling, the next page has none: the loop returns (or throws) there. *)
Lemma loop_stops_without_results (genre : string) (P : Provider)
    (pages : list (list Movie)) :
  forall (fuel : nat) (acc : list Movie) (page : Z) (w : World)
         (r : reply (option (list Movie))),
    (length pages < fuel)%nat ->
    page + Z.of_nat (length pages) <= 10 ->
    (forall i ms, pages !! i = Some ms ->
       omdb_search P (length (log w) + i) genre (page + Z.of_nat i)
       = Json (Some ms)) ->
    omdb_search P (length (log w) + length pages) genre
      (page + Z.of_nat (length pages)) = r ->
    (forall ms, r <> Json (Some ms)) ->
    fetchAllMoviesByGenre_loop fuel genre acc page P w
    = (stop_outcome r (acc ++ concat pages),
       issue (requests_from genre page (S (length pages))) w).
Proof.
  induction pages as [| ms pages IH];
    intros fuel acc page w r Hfuel Hcap Hpages Hr Hnone;
    (destruct fuel as [| fuel]; [simpl in Hfuel; lia |]);
    rewrite loop_unfold.
  - simpl in Hr. rewrite Nat.add_0_r, Z.add_0_r in Hr. rewrite Hr.
    simpl. rewrite app_nil_r.
    destruct r as [e | [ms |]]; [reflexivity | | reflexivity].
    now destruct (Hnone ms).
  - pose proof (Hpages 0%nat ms eq_refl) as H0.
    rewrite Nat.add_0_r, Z.add_0_r in H0. rewrite H0.
    simpl length in *.
    destruct (Z.ltb_spec 10 (page + 1)) as [Hlt | _]; [lia |].
    rewrite (IH fuel (acc ++ ms) (page + 1)
               (with_request (OmdbSearch genre page) w) r).
    + rewrite issue_cons. simpl. now rewrite <- app_assoc.
    + lia.
    + lia.
    + intros i ms' Hi. specialize (Hpages (S i) ms' Hi).
      simpl. rewrite length_app. simpl.
      replace (length (log w) + 1 + i)%nat with (length (log w) + S i)%nat
        by lia.
      replace (page + 1 + Z.of_nat i) with (page + Z.of_nat (S i)) by lia.
      exact Hpages.
    + simpl. rewrite length_app. simpl.
      replace (length (log w) + 1 + length pages)%nat
        with (length (log w) + S (length pages))%nat by lia.
      replace (page + 1 + Z.of_nat (length pages))
        with (page + Z.of_nat (S (length pages))) by lia.
      exact Hr.
    + exact Hnone.
Qed.

(** Pages [page .. 10] all have results: the loop returns after page 10. *)
Lemma loop_stops_at_ceiling (genre : string) (P : Provider)
    (pages : list (list Movie)) :
  forall (fuel : nat) (acc : list Movie) (page : Z) (w : World),
    (1 <= length pages <= fuel)%nat ->
    page + Z.of_nat (length pages) = 11 ->
    (forall i ms, pages !! i = Some ms ->
       omdb_search P (length (log w) + i) genre (page + Z.of_nat i)
       = Json (Some ms)) ->
    fetchAllMoviesByGenre_loop fuel genre acc page P w
    = (Return (acc ++ concat pages),
       issue (requests_from genre page (length pages)) w).
Proof.
  induction pages as [| ms pages IH]; intros fuel acc page w Hfuel Hcap Hpages;
    [simpl in Hfuel; lia |].
  destruct fuel as [| fuel]; [simpl in Hfuel; lia |].
  rewrite loop_unfold.
  pose proof (Hpages 0%nat ms eq_refl) as H0.
  rewrite Nat.add_0_r, Z.add_0_r in H0. rewrite H0.
  simpl length in *.
  destruct pages as [| ms2 pages].
  - simpl in Hcap.
    destruct (Z.ltb_spec 10 (page + 1)) as [_ | Hle]; [| lia].
    simpl. now rewrite app_nil_r.
  - simpl length in *.
    destruct (Z.ltb_spec 10 (page + 1)) as [Hlt | _]; [lia |].
    rewrite (IH fuel (acc ++ ms) (page + 1)
               (with_request (OmdbSearch genre page) w)).
    + rewrite issue_cons. simpl. now rewrite <- !app_assoc.
    + simpl. lia.
    + simpl length. lia.
    + intros i ms' Hi. specialize (Hpages (S i) ms' Hi).
      simpl. rewrite length_app. simpl.
      replace (length (log w) + 1 + i)%nat with (length (log w) + S i)%nat
        by lia.
      replace (page + 1 + Z.of_nat i) with (page + Z.of_nat (S i)) by lia.
      exact Hpages.
Qed.

Lemma pages_have_results_from (P : Provider) (w : World) (genre : string)
    (pages : list (list Movie)) :
  pages_have_results P w genre pages ->
  forall i ms, pages !! i = Some ms ->
    omdb_search P (length (log w) + i) genre (1 + Z.of_nat i) = Json (Some ms).
Proof.
  intros Hpages i ms Hi. specialize (Hpages i ms Hi).
  unfold page_reply in Hpages.
  replace (Z.to_nat (Z.of_nat i + 1 - 1)) with i in Hpages by lia.
  now replace (1 + Z.of_nat i) with (Z.of_nat i + 1) by lia.
Qed.

(** [handleSearch] run to its end: nothing for a blank query; otherwise the
    synchronous part, the loop, and the two final setters if the loop
    returns. *)
Lemma handleSearch_run (trim : string -> string) (fuel : nat) (P : Provider)
    (w : World) :
  handleSearch trim fuel P w
  = let trimmedQuery := trim (query (app w)) in
    if truthy trimmedQuery then
      match fetchAllMoviesByGenre_loop fuel trimmedQuery [] 1 P
              (with_app (searchStarted trimmedQuery) w) with
      | (Return allMovies, w') =>
          (Return tt, with_app (searchCompleted allMovies) w')
      | (Throw e, w') => (Throw e, w')
      | (OutOfFuel, w') => (OutOfFuel, w')
      end
    else (Return tt, w).
Proof.
  cbv [handleSearch bind render_state set ret searchStarted searchCompleted].
  destruct (truthy (trim (query (app w)))); cbn [negb]; [| reflexivity].
  change handleSearch_loop with fetchAllMoviesByGenre_loop.
  cbv [with_app].
  destruct (hasSearched (app w) && truthy (searchedQuery (app w)));
    cbn [app log];
    match goal with
    | |- context [fetchAllMoviesByGenre_loop ?f ?q ?a ?p ?P ?w] =>
        destruct (fetchAllMoviesByGenre_loop f q a p P w) as [[all | e |] w']
    end; reflexivity.
Qed.

Lemma handleGenreSelect_run (fuel : nat) (genre : string) (P : Provider)
    (w : World) :
  handleGenreSelect fuel genre P w
  = if truthy genre then
      match fetchAllMoviesByGenre fuel genre P
              (with_app (fun s =>
                 setMovies []
                   (setSearchedQuery genre
                     (setHasSearched true
                       (setIsSearching true (setSelectedGenre genre s))))) w)
      with
      | (Return genreMovies, w') =>
          (Return tt, with_app (searchCompleted genreMovies) w')
      | (Throw e, w') => (Throw e, w')
      | (OutOfFuel, w') => (OutOfFuel, w')
      end
    else
      (Return tt,
       with_app (fun s =>
         setSearchedQuery EmptyString
           (setQuery EmptyString
             (setHasSearched false
               (setMovies [] (setSelectedGenre genre s))))) w).
Proof.
  cbv [handleGenreSelect bind set ret searchCompleted].
  destruct (truthy genre); cbv [with_app]; cbn [negb app log];
    [| reflexivity].
  match goal with
  | |- context [fetchAllMoviesByGenre ?f ?q ?P ?w] =>
      destruct (fetchAllMoviesByGenre f q P w) as [[all | e |] w']
  end; reflexivity.
Qed.

(** C2: whatever the query and whatever the provider answers, the page loop
    of [fetchAllMoviesByGenre] and the one written out in [handleSearch]
    end (ten units of fuel are enough, the outcome is a return or a throw)
    after issuing at most 10 requests. *)
Theorem page_loop_at_most_10_requests (trim : string -> string) (fuel : nat)
    (genre : string) (P : Provider) (w : World) :
  (10 <= fuel)%nat ->
  (exists r reqs,
      fetchAllMoviesByGenre fuel genre P w = (r, issue reqs w)
      /\ r <> OutOfFuel /\ (length reqs <= 10)%nat)
  /\
  (exists r w' reqs,
      handleSearch trim fuel P w = (r, w')
      /\ r <> OutOfFuel /\ log w' = log w ++ reqs /\ (length reqs <= 10)%nat).
Proof.
  intros Hfuel. split.
  - destruct (loop_terminates fuel genre P [] 1 w)
      as (r & reqs & Heq & Hr & Hlen & _); [lia | lia |].
    exists r, reqs. repeat split; [exact Heq | exact Hr |].
    simpl in Hlen. lia.
  - rewrite handleSearch_run. cbv zeta.
    destruct (truthy (trim (query (app w)))).
    + destruct (loop_terminates fuel (trim (query (app w))) P [] 1
                  (with_app (searchStarted (trim (query (app w)))) w))
        as (r & reqs & Heq & Hr & Hlen & _); [lia | lia |].
      rewrite Heq. simpl in Hlen.
      destruct r as [all | e |].
      * eexists (Return tt), _, reqs.
        repeat split; [discriminate | lia].
      * eexists (Throw e), _, reqs.
        repeat split; [discriminate | lia].
      * now destruct Hr.
    + exists (Return tt), w, [].
      repeat split; [discriminate | | simpl; lia].
      now rewrite app_nil_r.
Qed.

Lemma page_loop_at_most_10_requests_witness :
  (exists r reqs,
      fetchAllMoviesByGenre 10 "drama" (eleven_pages [batman_begins]) start
      = (r, issue reqs start)
      /\ r <> OutOfFuel /\ (length reqs <= 10)%nat)
  /\
  (exists r w' reqs,
      handleSearch trim_ascii 10 (eleven_pages [batman_begins])
        (with_app (typeQuery " Batman ") start) = (r, w')
      /\ r <> OutOfFuel
      /\ log w' = log (with_app (typeQuery " Batman ") start) ++ reqs
      /\ (length reqs <= 10)%nat).
Proof.
  split.
  - apply (page_loop_at_most_10_requests trim_ascii 10 "drama"
             (eleven_pages [batman_begins]) start). lia.
  - apply (page_loop_at_most_10_requests trim_ascii 10 "drama"
             (eleven_pages [batman_begins])
             (with_app (typeQuery " Batman ") start)). lia.
Defined.

(** C3 (amended with the page ceiling): let [pages] be the [Search] fields of
    pages 1 to k, k <= 10.  If k = 10, or if page k+1 answers without a
    [Search] field, the fetcher returns their concatenation in page order
    (possibly empty, and still a return); if k < 10 and the request for
    page k+1 fails, the failure is thrown to the caller.  In each case the
    requests issued are exactly those for pages 1 to min (k+1) 10, in
    order, and the component state is untouched. *)
Theorem fetchAllMoviesByGenre_concat (fuel : nat) (genre : string)
    (P : Provider) (w : World) (pages : list (list Movie)) :
  (10 <= fuel)%nat ->
  pages_have_results P w genre pages ->
  (length pages = 10%nat ->
     fetchAllMoviesByGenre fuel genre P w
     = (Return (concat pages), issue (page_requests genre 10) w))
  /\
  ((length pages < 10)%nat ->
     page_reply P w genre (Z.of_nat (length pages) + 1) = Json None ->
     fetchAllMoviesByGenre fuel genre P w
     = (Return (concat pages),
        issue (page_requests genre (S (length pages))) w))
  /\
  ((length pages < 10)%nat ->
     forall e,
       page_reply P w genre (Z.of_nat (length pages) + 1) = Rejected e ->
       fetchAllMoviesByGenre fuel genre P w
       = (Throw e, issue (page_requests genre (S (length pages))) w)).
Proof.
  intros Hfuel Hpages.
  pose proof (pages_have_results_from P w genre pages Hpages) as Hfrom.
  assert (Hnext : page_reply P w genre (Z.of_nat (length pages) + 1)
                  = omdb_search P (length (log w) + length pages) genre
                      (1 + Z.of_nat (length pages))).
  { unfold page_reply.
    replace (Z.to_nat (Z.of_nat (length pages) + 1 - 1)) with (length pages)
      by lia.
    now replace (Z.of_nat (length pages) + 1) with (1 + Z.of_nat (length pages))
      by lia. }
  unfold fetchAllMoviesByGenre, page_requests. repeat split.
  - intros Hlen.
    rewrite (loop_stops_at_ceiling genre P pages fuel [] 1 w);
      [now rewrite Hlen | lia | lia | exact Hfrom].
  - intros Hlen Habsent.
    rewrite (loop_stops_without_results genre P pages fuel [] 1 w (Json None));
      [reflexivity | lia | lia | exact Hfrom | | discriminate].
    now rewrite <- Hnext.
  - intros Hlen e Hfail.
    rewrite (loop_stops_without_results genre P pages fuel [] 1 w (Rejected e));
      [reflexivity | lia | lia | exact Hfrom | | discriminate].
    now rewrite <- Hnext.
Qed.

Lemma two_pages_have_results (first second : list Movie) (genre : string) :
  pages_have_results (two_pages first second) start genre [first; second].
Proof.
  intros i ms. destruct i as [| [| i]]; simpl; intros [= <-]; reflexivity.
Qed.

Lemma fetchAllMoviesByGenre_concat_witness :
  fetchAllMoviesByGenre 10 "Batman"
    (two_pages [batman_begins] [dark_knight]) start
  = (Return [batman_begins; dark_knight],
     issue [OmdbSearch "Batman" 1; OmdbSearch "Batman" 2;
            OmdbSearch "Batman" 3] start)
  /\
  fetchAllMoviesByGenre 10 "Batman" (two_pages [] []) start
  = (Return [],
     issue [OmdbSearch "Batman" 1; OmdbSearch "Batman" 2;
            OmdbSearch "Batman" 3] start)
  /\
  fetchAllMoviesByGenre 10 "Batman" offline start
  = (Throw NetworkError, issue [OmdbSearch "Batman" 1] start).
Proof.
  split; [| split].
  - apply (fetchAllMoviesByGenre_concat 10 "Batman"
             (two_pages [batman_begins] [dark_knight]) start
             [[batman_begins]; [dark_knight]]);
      [lia | apply two_pages_have_results | simpl; lia | reflexivity].
  - apply (fetchAllMoviesByGenre_concat 10 "Batman" (two_pages [] []) start
             [[]; []]);
      [lia | apply two_pages_have_results | simpl; lia | reflexivity].
  - apply (fetchAllMoviesByGenre_concat 10 "Batman" offline start []);
      [lia | intros i ms; discriminate | simpl; lia | reflexivity].
Defined.

(** Without the ceiling the statement fails: with eleven pages of results and a
    twelfth without, the fetcher returns ten pages, not eleven. *)
Lemma concat_until_first_absent_counterexample :
  ~ concat_until_first_absent_spec.
Proof.
  intros H.
  specialize (H 10%nat "drama" (eleven_pages [batman_begins]) start
                (replicate 11 [batman_begins])).
  assert (Hpages : pages_have_results (eleven_pages [batman_begins]) start
                     "drama" (replicate 11 [batman_begins])).
  { intros i ms Hi. apply lookup_replicate in Hi as [-> Hi].
    unfold page_reply, eleven_pages. cbn [omdb_search].
    destruct (Z.leb_spec (Z.of_nat i + 1) 11); [reflexivity | lia]. }
  specialize (H (le_n 10) Hpages eq_refl).
  vm_compute in H. discriminate H.
Qed.

(** Whatever the provider answers, there is a longest run of pages with
    results, of length at most 10. *)
Lemma pages_prefix_exists (P : Provider) (w : World) (genre : string) :
  exists pages,
    pages_have_results P w genre pages
    /\ (length pages = 10%nat
        \/ (length pages < 10)%nat
           /\ forall ms, page_reply P w genre (Z.of_nat (length pages) + 1)
                         <> Json (Some ms)).
Proof.
  assert (Hn : forall n : nat,
             exists pages,
               pages_have_results P w genre pages
               /\ (length pages = n
                   \/ (length pages < n)%nat
                      /\ forall ms,
                           page_reply P w genre (Z.of_nat (length pages) + 1)
                           <> Json (Some ms))).
  { induction n as [| n (pages & Hpages & [Hlen | Hstop])].
    - exists []. split; [intros i ms; discriminate | now left].
    - destruct (page_reply P w genre (Z.of_nat (length pages) + 1))
        as [e | [ms |]] eqn:Hr.
      + exists pages. split; [exact Hpages | right].
        split; [lia | intros ms; rewrite Hr; discriminate].
      + exists (pages ++ [ms]). split.
        * intros i ms' Hi. apply lookup_app_Some in Hi as [Hi | [Hge Hi]].
          -- now apply Hpages.
          -- apply list_lookup_singleton_Some in Hi as [Hi <-].
             replace i with (length pages) by lia. exact Hr.
        * left. rewrite length_app. simpl. lia.
      + exists pages. split; [exact Hpages | right].
        split; [lia | intros ms; rewrite Hr; discriminate].
    - exists pages. split; [exact Hpages | right].
      split; [lia | apply Hstop]. }
  exact (Hn 10%nat).
Qed.

(** ** Search controller: proofs *)

Lemma loop_keeps_app (fuel : nat) (genre : string) (P : Provider) :
  forall (acc : list Movie) (page : Z) (w : World),
    app (fetchAllMoviesByGenre_loop fuel genre acc page P w).2 = app w.
Proof.
  induction fuel as [| fuel IH]; intros acc page w; [reflexivity |].
  rewrite loop_unfold.
  destruct (omdb_search P (length (log w)) genre page) as [e | [search |]];
    try reflexivity.
  destruct (10 <? page + 1); [reflexivity |]. now rewrite IH.
Qed.

(** The component state after [handleSearch], however its loop ends. *)
Lemma handleSearch_app (trim : string -> string) (fuel : nat) (P : Provider)
    (w : World) :
  let q := trim (query (app w)) in
  let r := handleSearch trim fuel P w in
  app r.2 =
    if truthy q then
      match r.1 with
      | Return _ =>
          searchCompleted
            (match (fetchAllMoviesByGenre_loop fuel q [] 1 P
                      (with_app (searchStarted q) w)).1 with
             | Return allMovies => allMovies
             | _ => []
             end)
            (searchStarted q (app w))
      | _ => searchStarted q (app w)
      end
    else app w.
Proof.
  cbv zeta. rewrite handleSearch_run. cbv zeta.
  destruct (truthy (trim (query (app w)))); [| reflexivity].
  pose proof (loop_keeps_app fuel (trim (query (app w))) P [] 1
                (with_app (searchStarted (trim (query (app w)))) w)) as Happ.
  destruct (fetchAllMoviesByGenre_loop fuel (trim (query (app w))) [] 1 P
              (with_app (searchStarted (trim (query (app w)))) w))
    as [[all | e |] w']; cbn [fst snd with_app app] in *;
    now rewrite Happ.
Qed.

Lemma handleGenreSelect_app (fuel : nat) (genre : string) (P : Provider)
    (w : World) :
  let started s :=
    setMovies []
      (setSearchedQuery genre
        (setHasSearched true
          (setIsSearching true (setSelectedGenre genre s)))) in
  let r := handleGenreSelect fuel genre P w in
  app r.2 =
    if truthy genre then
      match r.1 with
      | Return _ =>
          searchCompleted
            (match (fetchAllMoviesByGenre fuel genre P
                      (with_app started w)).1 with
             | Return genreMovies => genreMovies
             | _ => []
             end)
            (started (app w))
      | _ => started (app w)
      end
    else
      setSearchedQuery EmptyString
        (setQuery EmptyString
          (setHasSearched false
            (setMovies [] (setSelectedGenre genre (app w))))).
Proof.
  cbv zeta. rewrite handleGenreSelect_run.
  destruct (truthy genre); [| reflexivity].
  match goal with
  | |- context [fetchAllMoviesByGenre fuel genre P ?w1] =>
      pose proof (loop_keeps_app fuel genre P [] 1 w1) as Happ;
      fold (fetchAllMoviesByGenre fuel genre) in Happ;
      destruct (fetchAllMoviesByGenre fuel genre P w1) as [[all | e |] w']
  end; cbn [fst snd with_app app] in *; now rewrite Happ.
Qed.

(** What a submitted, non-blank search leaves in every cell but [movies] and
    [isSearching], however its loop ends. *)
Lemma after_submit (trim : string -> string) (fuel : nat) (P : Provider)
    (w : World) :
  truthy (trim (query (app w))) = true ->
  let s' := app (after trim fuel P w Submit) in
  query s' = query (app w)
  /\ searchedQuery s' = trim (query (app w))
  /\ hasSearched s' = true
  /\ selectedGenre s' = EmptyString
  /\ suggested s' = suggested (app w)
  /\ weatherReason s' = weatherReason (app w)
  /\ searchHistory s'
     = if hasSearched (app w) && truthy (searchedQuery (app w))
       then searchHistory (app w) ++ [displayed (app w)]
       else searchHistory (app w).
Proof.
  intros Hq. cbv zeta. unfold after. cbn [perform].
  pose proof (handleSearch_app trim fuel P w) as Happ. cbv zeta in Happ.
  rewrite Happ, Hq. clear Happ.
  unfold searchStarted, searchCompleted, displayed.
  destruct (handleSearch trim fuel P w).1;
    destruct (hasSearched (app w) && truthy (searchedQuery (app w)));
    repeat split; reflexivity.
Qed.

Lemma handleBack_pop (s : AppState) (rest : list SearchHistoryEntry.t)
    (previous : SearchHistoryEntry.t) :
  searchHistory s = rest ++ [previous] ->
  handleBack s
  = {| query := SearchHistoryEntry.query previous;
       searchedQuery := SearchHistoryEntry.query previous;
       movies := SearchHistoryEntry.movies previous;
       suggested := suggested s;
       hasSearched := hasSearched s;
       isSearching := isSearching s;
       searchHistory := rest;
       selectedGenre := selectedGenre s;
       weatherReason := weatherReason s |}.
Proof.
  intros Hh. unfold handleBack. rewrite Hh, last_snoc.
  unfold setQuery, setSearchedQuery, setMovies, setSearchHistory. simpl.
  now rewrite Hh, removelast_last.
Qed.

Lemma handleBack_empty (s : AppState) :
  searchHistory s = [] ->
  handleBack s
  = {| query := EmptyString;
       searchedQuery := EmptyString;
       movies := [];
       suggested := suggested s;
       hasSearched := false;
       isSearching := isSearching s;
       searchHistory := [];
       selectedGenre := EmptyString;
       weatherReason := weatherReason s |}.
Proof.
  intros Hh. unfold handleBack. rewrite Hh. simpl.
  unfold setSelectedGenre, setHasSearched, setSearchedQuery, setQuery,
    setMovies. simpl. now rewrite Hh.
Qed.

(** With no search active and no results, the suggestions are what is
    rendered. *)
Lemma render_no_active_search (s : AppState) :
  hasSearched s = false -> movies s = [] -> render s = suggestions_view s.
Proof.
  intros Hs Hm. unfold render, show_no_results, show_suggested, show_results,
    suggestions_view.
  rewrite Hs, Hm. simpl. now destruct (suggested s).
Qed.

Lemma initialState_well_formed : well_formed initialState.
Proof. split; [discriminate | constructor]. Qed.

(** Every handler maintains [well_formed], however it ends. *)
Lemma after_well_formed (trim : string -> string) (fuel : nat) (P : Provider)
    (w : World) (a : action) :
  well_formed (app w) -> well_formed (app (after trim fuel P w a)).
Proof.
  intros [Hq Hh]. destruct a as [text | | genre |].
  - split; assumption.
  - destruct (truthy (trim (query (app w)))) eqn:Htrim.
    + destruct (after_submit trim fuel P w Htrim)
        as (_ & Hsq & _ & _ & _ & _ & Hhist).
      split; [intros _; now rewrite Hsq |].
      rewrite Hhist.
      destruct (hasSearched (app w) && truthy (searchedQuery (app w)))
        eqn:Hcond; [| exact Hh].
      apply andb_true_iff in Hcond as [_ Hcond].
      apply Forall_app. split; [exact Hh |].
      constructor; [exact Hcond | constructor].
    + unfold after. cbn [perform].
      pose proof (handleSearch_app trim fuel P w) as Happ.
      cbv zeta in Happ. rewrite Happ, Htrim. split; assumption.
  - unfold after. cbn [perform].
    pose proof (handleGenreSelect_app fuel genre P w) as Happ.
    cbv zeta in Happ. rewrite Happ. unfold searchCompleted.
    destruct (truthy genre) eqn:Hg.
    + destruct (handleGenreSelect fuel genre P w).1;
        (split; [intros _; exact Hg | exact Hh]).
    + split; [discriminate | exact Hh].
  - unfold after. cbn [perform set with_app snd app].
    destruct (last (searchHistory (app w))) as [previous |] eqn:Hlast.
    + apply last_Some in Hlast as [rest Hrest].
      rewrite (handleBack_pop _ _ _ Hrest). rewrite Hrest in Hh.
      apply Forall_app in Hh as [Hrest' Hprev].
      apply Forall_inv in Hprev.
      split; [intros _; exact Hprev | exact Hrest'].
    + apply last_None in Hlast. rewrite (handleBack_empty _ Hlast).
      split; [discriminate | constructor].
Qed.

Lemma after_all_well_formed (trim : string -> string) (fuel : nat)
    (P : Provider) (actions : list action) :
  forall w : World,
    well_formed (app w) -> well_formed (app (after_all trim fuel P w actions)).
Proof.
  induction actions as [| a actions IH]; intros w Hw; [exact Hw |].
  change (after_all trim fuel P w (a :: actions))
    with (after_all trim fuel P (after trim fuel P w a) actions).
  apply IH. now apply after_well_formed.
Qed.

(** C5: a submitted search, made while a previous search is displayed (in
    a state the handlers can produce, see [after_all_well_formed]), pushes
    (previous query, previous results) on the history stack; "back"
    on a non-empty stack pops the last entry and restores exactly its query
    (in the field and as searched query) and its results; hence search A,
    search B, back shows A's query and results again; "back" on an empty
    stack clears the field and shows the suggestions view. *)
Theorem history_push_and_back (trim : string -> string) (fuel : nat)
    (P : Provider) :
  (forall w : World,
     well_formed (app w) ->
     truthy (trim (query (app w))) = true ->
     hasSearched (app w) = true ->
     searchHistory (app (after trim fuel P w Submit))
     = searchHistory (app w) ++ [displayed (app w)])
  /\
  (forall (s : AppState) (rest : list SearchHistoryEntry.t)
          (previous : SearchHistoryEntry.t),
     searchHistory s = rest ++ [previous] ->
     let s' := handleBack s in
     searchHistory s' = rest
     /\ query s' = SearchHistoryEntry.query previous
     /\ searchedQuery s' = SearchHistoryEntry.query previous
     /\ movies s' = SearchHistoryEntry.movies previous)
  /\
  (forall (w : World) (A B : string),
     truthy (trim A) = true ->
     truthy (trim B) = true ->
     let wA := after_all trim fuel P w [TypeQuery A; Submit] in
     let wB := after_all trim fuel P wA [TypeQuery B; Submit] in
     let s' := handleBack (app wB) in
     searchedQuery (app wA) = trim A
     /\ (forall (results : list Movie) (w1 : World),
           fetchAllMoviesByGenre fuel (trim A) P
             (with_app (searchStarted (trim A))
                (after trim fuel P w (TypeQuery A)))
           = (Return results, w1) ->
           movies (app wA) = results)
     /\ query s' = trim A
     /\ searchedQuery s' = trim A
     /\ movies s' = movies (app wA)
     /\ searchHistory s' = searchHistory (app wA))
  /\
  (forall s : AppState,
     searchHistory s = [] ->
     let s' := handleBack s in
     query s' = EmptyString
     /\ searchedQuery s' = EmptyString
     /\ movies s' = []
     /\ hasSearched s' = false
     /\ selectedGenre s' = EmptyString
     /\ render s' = suggestions_view s).
Proof.
  split; [| split; [| split]].
  - intros w [Hsq _] Hq Hs.
    destruct (after_submit trim fuel P w Hq) as (_ & _ & _ & _ & _ & _ & Hh).
    now rewrite Hh, Hs, (Hsq Hs).
  - intros s rest previous Hh. cbv zeta.
    rewrite (handleBack_pop s rest previous Hh). repeat split.
  - intros w A B HA HB. cbv zeta. unfold after_all. cbn [foldl].
    set (wA := after trim fuel P (after trim fuel P w (TypeQuery A)) Submit).
    destruct (after_submit trim fuel P (after trim fuel P w (TypeQuery A)))
      as (HqA & HsqA & HhsA & _); [exact HA |].
    fold wA in HqA, HsqA, HhsA. cbn in HsqA.
    set (wT := after trim fuel P wA (TypeQuery B)).
    assert (HT : app wT = setQuery B (app wA)) by reflexivity.
    destruct (after_submit trim fuel P wT)
      as (_ & _ & _ & _ & _ & _ & HhB); [rewrite HT; exact HB |].
    rewrite HT in HhB. cbn [hasSearched searchedQuery setQuery] in HhB.
    rewrite HhsA, HsqA, HA in HhB. cbn [andb] in HhB.
    rewrite (handleBack_pop _ _ _ HhB).
    unfold displayed. cbn. rewrite HsqA.
    split; [reflexivity | split; [| repeat split; reflexivity]].
    intros results w1 Hfetch. subst wA.
    change (after trim fuel P w (TypeQuery A))
      with (with_app (typeQuery A) w) in *.
    unfold after. cbn [perform]. rewrite handleSearch_run. cbv zeta.
    change (query (app (with_app (typeQuery A) w))) with A.
    rewrite HA.
    change (fetchAllMoviesByGenre_loop fuel (trim A) [] 1)
      with (fetchAllMoviesByGenre fuel (trim A)).
    rewrite Hfetch. reflexivity.
  - intros s Hh. cbv zeta. rewrite (handleBack_empty s Hh).
    do 5 (split; [reflexivity |]).
    rewrite render_no_active_search by reflexivity. reflexivity.
Qed.

Lemma history_push_and_back_witness :
  let wA :=
    after_all trim_ascii 10 batman_and_spider start
      [TypeQuery " Batman"; Submit] in
  let wT := after trim_ascii 10 batman_and_spider wA (TypeQuery "Spider") in
  let wB := after trim_ascii 10 batman_and_spider wT Submit in
  let batman :=
    {| SearchHistoryEntry.query := "Batman";
       SearchHistoryEntry.movies := [batman_begins; dark_knight] |} in
  searchHistory (app wB) = [batman]
  /\ (query (handleBack (app wB)) = "Batman"
      /\ movies (handleBack (app wB)) = [batman_begins; dark_knight])
  /\ (query (handleBack (app wB)) = "Batman"
      /\ movies (handleBack (app wB)) = movies (app wA))
  /\ render (handleBack (handleBack (app wB))) = [].
Proof.
  cbv zeta.
  destruct (history_push_and_back trim_ascii 10 batman_and_spider)
    as (Hpush & Hpop & HAB & Hempty).
  split; [| split; [| split]].
  - exact (Hpush
             (after trim_ascii 10 batman_and_spider
                (after_all trim_ascii 10 batman_and_spider start
                   [TypeQuery " Batman"; Submit])
                (TypeQuery "Spider"))
             (after_all_well_formed trim_ascii 10 batman_and_spider
                [TypeQuery " Batman"; Submit; TypeQuery "Spider"] start
                initialState_well_formed)
             eq_refl eq_refl).
  - destruct (Hpop
                (app (after trim_ascii 10 batman_and_spider
                        (after trim_ascii 10 batman_and_spider
                           (after_all trim_ascii 10 batman_and_spider start
                              [TypeQuery " Batman"; Submit])
                           (TypeQuery "Spider"))
                        Submit))
                []
                {| SearchHistoryEntry.query := "Batman";
                   SearchHistoryEntry.movies := [batman_begins; dark_knight] |}
                eq_refl)
      as (_ & Hq & _ & Hm).
    split; [exact Hq | exact Hm].
  - destruct (HAB start " Batman" "Spider" eq_refl eq_refl)
      as (_ & _ & Hq & _ & Hm & _).
    vm_compute in Hq, Hm. vm_compute. split; [exact Hq | exact Hm].
  - destruct (Hempty
                (handleBack
                   (app (after trim_ascii 10 batman_and_spider
                           (after trim_ascii 10 batman_and_spider
                              (after_all trim_ascii 10 batman_and_spider start
                                 [TypeQuery " Batman"; Submit])
                              (TypeQuery "Spider"))
                           Submit)))
                eq_refl)
      as (_ & _ & _ & _ & _ & Hr).
    exact Hr.
Defined.

(** The outcome of the page loop and the requests it issues do not depend
    on the component state. *)
Lemma loop_depends_on_log (fuel : nat) (genre : string) (P : Provider) :
  forall (acc : list Movie) (page : Z) (w1 w2 : World),
    log w1 = log w2 ->
    (fetchAllMoviesByGenre_loop fuel genre acc page P w1).1
    = (fetchAllMoviesByGenre_loop fuel genre acc page P w2).1
    /\ log (fetchAllMoviesByGenre_loop fuel genre acc page P w1).2
       = log (fetchAllMoviesByGenre_loop fuel genre acc page P w2).2.
Proof.
  induction fuel as [| fuel IH]; intros acc page w1 w2 Hlog.
  - split; [reflexivity | exact Hlog].
  - rewrite !loop_unfold, Hlog.
    destruct (omdb_search P (length (log w2)) genre page) as [e | [search |]];
      cbn [fst snd with_request log]; rewrite ?Hlog; try (split; reflexivity).
    destruct (10 <? page + 1); cbn [fst snd with_request log];
      rewrite ?Hlog; [split; reflexivity |].
    apply IH. cbn [with_request log]. now rewrite Hlog.
Qed.

(** C6 (amended): selecting a genre of the filter runs the same page
    requests as a submitted search whose query is the genre keyword, ends
    the same way, and leaves the same results, searched query, hasSearched
    and isSearching flags; it records the genre as selected, and it leaves
    the history stack and the text of the search field as they were.
    Selecting the empty "All Genres" entry is what clears the search field
    and returns to the view without active search. *)
Theorem genre_select_runs_genre_search (trim : string -> string) (fuel : nat)
    (P : Provider) (w : World) (genre : string) :
  (truthy genre = true -> trim genre = genre ->
   let typed := after trim fuel P w (TypeQuery genre) in
   let searched := after trim fuel P typed Submit in
   let selected := after trim fuel P w (SelectGenre genre) in
   (handleGenreSelect fuel genre P w).1 = (handleSearch trim fuel P typed).1
   /\ log selected = log searched
   /\ movies (app selected) = movies (app searched)
   /\ searchedQuery (app selected) = genre
   /\ searchedQuery (app searched) = genre
   /\ hasSearched (app selected) = hasSearched (app searched)
   /\ isSearching (app selected) = isSearching (app searched)
   /\ selectedGenre (app selected) = genre
   /\ searchHistory (app selected) = searchHistory (app w)
   /\ query (app selected) = query (app w))
  /\
  (let cleared := after trim fuel P w (SelectGenre EmptyString) in
   query (app cleared) = EmptyString
   /\ searchedQuery (app cleared) = EmptyString
   /\ movies (app cleared) = []
   /\ hasSearched (app cleared) = false
   /\ searchHistory (app cleared) = searchHistory (app w)
   /\ log cleared = log w).
Proof.
  split.
  - intros Hg Htrim. cbv zeta. unfold after. cbn [perform].
    change ((set (typeQuery genre) P w).2) with (with_app (typeQuery genre) w).
    pose proof (handleSearch_app trim fuel P (with_app (typeQuery genre) w))
      as Hs.
    pose proof (handleGenreSelect_app fuel genre P w) as Hgs.
    cbv zeta in Hs, Hgs. rewrite Hs, Hgs. clear Hs Hgs.
    rewrite handleSearch_run, handleGenreSelect_run. cbv zeta.
    cbn [with_app app typeQuery setQuery query]. rewrite Htrim, Hg.
    unfold fetchAllMoviesByGenre.
    match goal with
    | |- context [fetchAllMoviesByGenre_loop fuel genre [] 1 P ?w1] =>
        match goal with
        | |- context [fetchAllMoviesByGenre_loop fuel genre [] 1 P ?w2] =>
            lazymatch w1 with
            | w2 => fail
            | _ =>
                destruct (loop_depends_on_log fuel genre P [] 1 w1 w2 eq_refl)
                  as [Hout Hlog];
                destruct (fetchAllMoviesByGenre_loop fuel genre [] 1 P w1)
                  as [r1 w1'];
                destruct (fetchAllMoviesByGenre_loop fuel genre [] 1 P w2)
                  as [r2 w2']
            end
        end
    end.
    cbn [fst snd] in Hout, Hlog. subst r2.
    destruct r1 as [all | e |]; cbn [fst snd with_app app log];
      unfold searchCompleted, searchStarted;
      (destruct (hasSearched (app w) && truthy (searchedQuery (app w))));
      cbn; repeat split; congruence.
  - cbv zeta. unfold after. cbn [perform].
    pose proof (handleGenreSelect_app fuel EmptyString P w) as Hgs.
    cbv zeta in Hgs. rewrite Hgs. rewrite handleGenreSelect_run.
    cbn. repeat split.
Qed.

Lemma genre_select_runs_genre_search_witness :
  let w :=
    after_all trim_ascii 10 batman_and_spider start
      [TypeQuery "Batman"; Submit] in
  let selected := after trim_ascii 10 batman_and_spider w (SelectGenre "action") in
  searchedQuery (app selected) = "action"
  /\ selectedGenre (app selected) = "action"
  /\ searchHistory (app selected) = []
  /\ query (app selected) = "Batman".
Proof.
  cbv zeta.
  destruct (genre_select_runs_genre_search trim_ascii 10 batman_and_spider
              (after_all trim_ascii 10 batman_and_spider start
                 [TypeQuery "Batman"; Submit])
              "action") as [Hsel _].
  destruct (Hsel eq_refl eq_refl)
    as (_ & _ & _ & Hsq & _ & _ & _ & Hg & Hh & Hq).
  split; [exact Hsq | split; [exact Hg | split; [exact Hh | exact Hq]]].
Defined.

(** Selecting "action" while the results of a search for "Batman" are
    displayed pushes nothing on the history stack (a search for "action"
    would push the Batman entry) and leaves "Batman" in the search field. *)
Lemma genre_select_like_search_counterexample :
  ~ genre_select_like_search_spec.
Proof.
  intros H.
  specialize (H trim_ascii 10%nat batman_and_spider
                (after_all trim_ascii 10 batman_and_spider start
                   [TypeQuery "Batman"; Submit])
                "action").
  destruct H as (_ & _ & Hh & _).
  - lia.
  - unfold GENRES. simpl. tauto.
  - reflexivity.
  - vm_compute in Hh. discriminate Hh.
Qed.

(** ** Failure of a page request during a search *)

(** If [handleSearch] throws, it leaves the searching flag set, no results,
    and none of the three blocks rendered. *)
Lemma handleSearch_throw_state (trim : string -> string) (fuel : nat)
    (P : Provider) (w : World) (e : exn) :
  (handleSearch trim fuel P w).1 = Throw e ->
  let s' := app (handleSearch trim fuel P w).2 in
  isSearching s' = true
  /\ movies s' = []
  /\ show_no_results s' = false
  /\ render s' = [].
Proof.
  intros Hthrow. cbv zeta.
  pose proof (handleSearch_app trim fuel P w) as Happ. cbv zeta in Happ.
  rewrite Happ, Hthrow. clear Happ.
  destruct (truthy (trim (query (app w)))) eqn:Hq.
  - unfold searchStarted.
    destruct (hasSearched (app w) && truthy (searchedQuery (app w)));
      repeat split.
  - rewrite handleSearch_run in Hthrow. cbv zeta in Hthrow.
    rewrite Hq in Hthrow. discriminate Hthrow.
Qed.

(** A failing page request makes [handleSearch] throw, whatever was
    fetched before. *)
Lemma handleSearch_throws (trim : string -> string) (fuel : nat)
    (P : Provider) (w : World) (pages : list (list Movie)) (e : exn) :
  (10 <= fuel)%nat ->
  truthy (trim (query (app w))) = true ->
  (length pages < 10)%nat ->
  pages_have_results P w (trim (query (app w))) pages ->
  page_reply P w (trim (query (app w))) (Z.of_nat (length pages) + 1)
  = Rejected e ->
  (handleSearch trim fuel P w).1 = Throw e.
Proof.
  intros Hfuel Hq Hlen Hpages Hfail.
  rewrite handleSearch_run. cbv zeta. rewrite Hq.
  set (q := trim (query (app w))) in *.
  rewrite (loop_stops_without_results q P pages fuel [] 1
             (with_app (searchStarted q) w) (Rejected e));
    [reflexivity | lia | lia | | | discriminate].
  - apply (pages_have_results_from P w q pages Hpages).
  - unfold page_reply in Hfail. cbn [with_app log].
    replace (Z.to_nat (Z.of_nat (length pages) + 1 - 1)) with (length pages)
      in Hfail by lia.
    now replace (1 + Z.of_nat (length pages))
      with (Z.of_nat (length pages) + 1) by lia.
Qed.

(** C9 (the code at the failing input): with every request failing, the
    search for "Batman" throws [NetworkError] out of [handleSearch]; the
    searching flag is left set, so that the "no results" block is not
    rendered, nor any other block. *)
Theorem search_failure_stays_searching :
  let r :=
    handleSearch trim_ascii 10 offline
      (after trim_ascii 10 offline start (TypeQuery "Batman")) in
  r.1 = Throw NetworkError
  /\ isSearching (app r.2) = true
  /\ show_no_results (app r.2) = false
  /\ render (app r.2) = [].
Proof. cbv zeta. repeat split. Qed.

(** ** Suggestions are written by the loader only *)

Lemma handleBack_keeps_suggested (s : AppState) :
  suggested (handleBack s) = suggested s
  /\ weatherReason (handleBack s) = weatherReason s.
Proof. unfold handleBack. destruct (last (searchHistory s)); split; reflexivity. Qed.

Lemma after_keeps_suggested (trim : string -> string) (fuel : nat)
    (P : Provider) (w : World) (a : action) :
  suggested (app (after trim fuel P w a)) = suggested (app w)
  /\ weatherReason (app (after trim fuel P w a)) = weatherReason (app w).
Proof.
  unfold after. destruct a as [text | | genre |]; cbn [perform].
  - split; reflexivity.
  - pose proof (handleSearch_app trim fuel P w) as Happ. cbv zeta in Happ.
    rewrite Happ. unfold searchCompleted, searchStarted.
    destruct (truthy (trim (query (app w)))); [| split; reflexivity].
    destruct (handleSearch trim fuel P w).1;
      destruct (hasSearched (app w) && truthy (searchedQuery (app w)));
      split; reflexivity.
  - pose proof (handleGenreSelect_app fuel genre P w) as Happ.
    cbv zeta in Happ. rewrite Happ. unfold searchCompleted.
    destruct (truthy genre); [| split; reflexivity].
    destruct (handleGenreSelect fuel genre P w).1; split; reflexivity.
  - apply handleBack_keeps_suggested.
Qed.

(** C10: the loader's write is the only one to [suggested]: every search
    submission, genre selection, "back" (and keystroke in the field), in
    any order and however each ends, leaves the suggestions and their
    reason unchanged; so whenever these actions bring the component back
    to the state without active search, what is rendered is the
    suggestions as loaded. *)
Theorem suggestions_frame (trim : string -> string) (fuel : nat)
    (P : Provider) (w : World) (actions : list action) :
  let w' := after_all trim fuel P w actions in
  suggested (app w') = suggested (app w)
  /\ weatherReason (app w') = weatherReason (app w)
  /\ (hasSearched (app w') = false -> movies (app w') = [] ->
      render (app w') = suggestions_view (app w)).
Proof.
  cbv zeta.
  assert (Hkeep : suggested (app (after_all trim fuel P w actions))
                  = suggested (app w)
                  /\ weatherReason (app (after_all trim fuel P w actions))
                     = weatherReason (app w)).
  { revert w. induction actions as [| a actions IH]; intros w.
    - split; reflexivity.
    - change (after_all trim fuel P w (a :: actions))
        with (after_all trim fuel P (after trim fuel P w a) actions).
      destruct (IH (after trim fuel P w a)) as [Hs Hr].
      destruct (after_keeps_suggested trim fuel P w a) as [Hs' Hr'].
      split; congruence. }
  destruct Hkeep as [Hs Hr]. split; [exact Hs | split; [exact Hr |]].
  intros Hhas Hmov. rewrite render_no_active_search by assumption.
  unfold suggestions_view. now rewrite Hs, Hr.
Qed.

Lemma suggestions_frame_witness :
  let loaded :=
    with_app (suggestionsLoaded "the weather is mild" [spider_man]) start in
  render (app (after_all trim_ascii 10 batman_and_spider loaded
                 [TypeQuery "Batman"; Submit; SelectGenre "drama"; Back]))
  = [Suggestions "the weather is mild" [spider_man]].
Proof.
  cbv zeta.
  apply (suggestions_frame trim_ascii 10 batman_and_spider
           (with_app (suggestionsLoaded "the weather is mild" [spider_man])
              start)
           [TypeQuery "Batman"; Submit; SelectGenre "drama"; Back]);
    reflexivity.
Defined.

(** ** Trailer resolver: proofs *)

Lemma find_first_with (p : Video.t -> bool) (videos : list Video.t)
    (v : Video.t) :
  first_with p videos v -> find p videos = Some v.
Proof.
  intros (before & rest & -> & Hv & Hbefore).
  induction before as [| u before IH]; simpl.
  - now rewrite Hv.
  - rewrite (Hbefore u) by now left.
    apply IH. intros u' Hu'. apply Hbefore. now right.
Qed.

Lemma find_none_with (p : Video.t -> bool) (videos : list Video.t) :
  none_with p videos -> find p videos = None.
Proof.
  intros Hnone. induction videos as [| u videos IH]; [reflexivity |].
  simpl. rewrite (Hnone u) by now left.
  apply IH. intros u' Hu'. apply Hnone. now right.
Qed.

Lemma find_Some_first_with (p : Video.t -> bool) (videos : list Video.t)
    (v : Video.t) :
  find p videos = Some v -> first_with p videos v.
Proof.
  induction videos as [| u videos IH]; [discriminate |].
  simpl. destruct (p u) eqn:Hu.
  - intros [= <-]. exists [], videos. repeat split; [exact Hu | intros ? []].
  - intros Hf. destruct (IH Hf) as (before & rest & -> & Hv & Hbefore).
    exists (u :: before), rest. repeat split; [exact Hv |].
    intros u' [<- | Hu']; [exact Hu | now apply Hbefore].
Qed.

Lemma find_None_none_with (p : Video.t -> bool) (videos : list Video.t) :
  find p videos = None -> none_with p videos.
Proof.
  induction videos as [| u videos IH]; [intros _ ? [] |].
  simpl. destruct (p u) eqn:Hu; [discriminate |].
  intros Hf u' [<- | Hu']; [exact Hu | now apply IH].
Qed.

(** [find_trailer] selects what the specification describes, and only
    that. *)
Lemma find_trailer_selected (videos : list Video.t) :
  selected_spec videos (find_trailer videos).
Proof.
  unfold find_trailer.
  destruct (find (is_youtube "Trailer") videos) as [v |] eqn:Htrailer.
  { apply select_trailer. now apply find_Some_first_with. }
  apply find_None_none_with in Htrailer.
  destruct (find (is_youtube "Teaser") videos) as [v |] eqn:Hteaser.
  { apply select_teaser; [exact Htrailer | now apply find_Some_first_with]. }
  apply find_None_none_with in Hteaser.
  destruct (find (fun v => String.eqb (Video.site v) "YouTube") videos)
    as [v |] eqn:Hany.
  - apply select_any; [exact Htrailer | exact Hteaser |].
    now apply find_Some_first_with.
  - apply select_none. now apply find_None_none_with.
Qed.

Lemma selected_find_trailer (videos : list Video.t) (sel : option Video.t) :
  selected_spec videos sel -> find_trailer videos = sel.
Proof.
  unfold find_trailer.
  intros [v Hv | v Hno Hv | v Hno1 Hno2 Hv | Hno].
  - now rewrite (find_first_with _ _ _ Hv).
  - now rewrite (find_none_with _ _ Hno), (find_first_with _ _ _ Hv).
  - rewrite (find_none_with _ _ Hno1), (find_none_with _ _ Hno2).
    apply (find_first_with on_youtube). exact Hv.
  - assert (H1 : none_with (is_youtube "Trailer") videos).
    { intros u Hu. unfold is_youtube. specialize (Hno u Hu).
      unfold on_youtube in Hno. rewrite Hno. apply andb_false_r. }
    assert (H2 : none_with (is_youtube "Teaser") videos).
    { intros u Hu. unfold is_youtube. specialize (Hno u Hu).
      unfold on_youtube in Hno. rewrite Hno. apply andb_false_r. }
    rewrite (find_none_with _ _ H1), (find_none_with _ _ H2).
    apply (find_none_with on_youtube). exact Hno.
Qed.

(** The resolver with a configured key, step by step. *)
Lemma fetchTrailerFromTMDB_run (api_key title year : string) (P : Provider)
    (w : World) :
  truthy api_key = true ->
  fetchTrailerFromTMDB (Some api_key) title year P w
  = let w1 := with_request (TmdbSearchMovie api_key title year) w in
    match tmdb_search_movie P (length (log w)) api_key title year with
    | Json (Some (first :: _)) =>
        let tmdbId := TmdbMovie.id first in
        let w2 := with_request (TmdbMovieVideos api_key tmdbId) w1 in
        match tmdb_movie_videos P (length (log w1)) api_key tmdbId with
        | Json (Some (v :: videos)) =>
            (Return (key_or_null (find_trailer (v :: videos))), w2)
        | _ => (Return None, w2)
        end
    | _ => (Return None, w1)
    end.
Proof.
  intros Hkey. unfold fetchTrailerFromTMDB. rewrite Hkey. cbn [negb].
  cbv [try_catch bind fetch_tmdb_search fetch_tmdb_videos ret].
  destruct (tmdb_search_movie P (length (log w)) api_key title year)
    as [e | [[| first others] |]]; cbn [of_reply]; try reflexivity.
  destruct (tmdb_movie_videos P _ api_key (TmdbMovie.id first))
    as [e | [[| v videos] |]]; cbn [of_reply]; reflexivity.
Qed.

(** C7 (amended): the resolver never throws.  Without a configured API key
    it returns None and issues no request.  With one, a failure of either
    request (network or parse) gives None; a title search without a match
    (no [results] field, or an empty one) gives None after that one
    request; a video listing without a [results] field gives None; and
    when the title search has a first match and its video listing is
    [videos], the result is decided by the entry selected in priority order
    (first "Trailer" on YouTube, else first "Teaser" on YouTube, else first
    entry on YouTube): the key of that entry when the key is a non-empty
    string, None when the key is empty or no entry is selected. *)
Theorem fetchTrailerFromTMDB_key (TMDB_API_KEY : option string)
    (title year : string) (P : Provider) (w : World) :
  let r := fetchTrailerFromTMDB TMDB_API_KEY title year P w in
  (exists k, r.1 = Return k)
  /\ app r.2 = app w
  /\ (configured TMDB_API_KEY = false -> r = (Return None, w))
  /\ (forall api_key e,
        TMDB_API_KEY = Some api_key -> truthy api_key = true ->
        tmdb_search_movie P (length (log w)) api_key title year = Rejected e ->
        r.1 = Return None)
  /\ (forall api_key first others e,
        TMDB_API_KEY = Some api_key -> truthy api_key = true ->
        tmdb_search_movie P (length (log w)) api_key title year
        = Json (Some (first :: others)) ->
        tmdb_movie_videos P (S (length (log w))) api_key (TmdbMovie.id first)
        = Rejected e ->
        r.1 = Return None)
  /\ (forall api_key first others videos sel,
        TMDB_API_KEY = Some api_key -> truthy api_key = true ->
        tmdb_search_movie P (length (log w)) api_key title year
        = Json (Some (first :: others)) ->
        tmdb_movie_videos P (S (length (log w))) api_key (TmdbMovie.id first)
        = Json (Some videos) ->
        selected_spec videos sel ->
        r.1 = Return
                match sel with
                | Some v =>
                    if truthy (Video.key v) then Some (Video.key v) else None
                | None => None
                end)
  /\ (forall api_key matches,
        TMDB_API_KEY = Some api_key -> truthy api_key = true ->
        tmdb_search_movie P (length (log w)) api_key title year
        = Json matches ->
        matches = None \/ matches = Some [] ->
        r = (Return None,
             with_request (TmdbSearchMovie api_key title year) w))
  /\ (forall api_key first others,
        TMDB_API_KEY = Some api_key -> truthy api_key = true ->
        tmdb_search_movie P (length (log w)) api_key title year
        = Json (Some (first :: others)) ->
        tmdb_movie_videos P (S (length (log w))) api_key (TmdbMovie.id first)
        = Json None ->
        r.1 = Return None).
Proof.
  cbv zeta.
  destruct TMDB_API_KEY as [api_key |].
  2: { repeat split; try discriminate. now exists None. }
  assert (Hlen : length (log (with_request
                    (TmdbSearchMovie api_key title year) w))
                 = S (length (log w))).
  { cbn [with_request log]. rewrite length_app. simpl. lia. }
  destruct (truthy api_key) eqn:Hkey.
  2: { assert (Hr : fetchTrailerFromTMDB (Some api_key) title year P w
                    = (Return None, w)).
       { unfold fetchTrailerFromTMDB. now rewrite Hkey. }
       rewrite Hr. repeat split; try congruence. now exists None. }
  rewrite (fetchTrailerFromTMDB_run api_key title year P w Hkey). cbv zeta.
  rewrite Hlen.
  split; [| split; [| split; [| split; [| split; [| split; [| split]]]]]].
  - destruct (tmdb_search_movie P (length (log w)) api_key title year)
      as [e | [[| first others] |]]; try (now exists None).
    destruct (tmdb_movie_videos P (S (length (log w))) api_key
                (TmdbMovie.id first)) as [e | [[| v videos] |]];
      eexists; reflexivity.
  - destruct (tmdb_search_movie P (length (log w)) api_key title year)
      as [e | [[| first others] |]]; try reflexivity.
    destruct (tmdb_movie_videos P (S (length (log w))) api_key
                (TmdbMovie.id first)) as [e | [[| v videos] |]];
      reflexivity.
  - cbn [configured]. rewrite Hkey. discriminate.
  - intros k e [= <-] _ Hs. now rewrite Hs.
  - intros k first others e [= <-] _ Hs Hv. now rewrite Hs, Hv.
  - intros k first others videos sel [= <-] _ Hs Hv Hsel.
    rewrite Hs, Hv. apply selected_find_trailer in Hsel.
    destruct videos as [| v videos].
    + cbn in Hsel. subst sel. reflexivity.
    + cbn [fst]. rewrite Hsel. reflexivity.
  - intros k matches [= <-] _ Hs [-> | ->]; now rewrite Hs.
  - intros k first others [= <-] _ Hs Hv. now rewrite Hs, Hv.
Qed.

Lemma fetchTrailerFromTMDB_key_witness :
  (fetchTrailerFromTMDB (Some "k") "Batman Begins" "2005"
     (tmdb_with [video "Featurette" "YouTube" "f1";
                 video "Teaser" "YouTube" "t1";
                 video "Trailer" "Vimeo" "x";
                 video "Trailer" "YouTube" "abc"]) start).1
  = Return (Some "abc")
  /\ (fetchTrailerFromTMDB (Some "k") "Batman Begins" "2005" offline start).1
     = Return None
  /\ fetchTrailerFromTMDB None "Batman Begins" "2005"
       (tmdb_with [video "Trailer" "YouTube" "abc"]) start
     = (Return None, start)
  /\ fetchTrailerFromTMDB (Some "k") "Batman Begins" "2005"
       batman_and_spider start
     = (Return None,
        {| app := initialState;
           log := [TmdbSearchMovie "k" "Batman Begins" "2005"] |}).
Proof.
  split; [| split; [| split]].
  - destruct (fetchTrailerFromTMDB_key (Some "k") "Batman Begins" "2005"
                (tmdb_with [video "Featurette" "YouTube" "f1";
                            video "Teaser" "YouTube" "t1";
                            video "Trailer" "Vimeo" "x";
                            video "Trailer" "YouTube" "abc"]) start)
      as (_ & _ & _ & _ & _ & Hsel & _).
    apply (Hsel "k" {| TmdbMovie.id := 155 |} []
             [video "Featurette" "YouTube" "f1";
              video "Teaser" "YouTube" "t1";
              video "Trailer" "Vimeo" "x";
              video "Trailer" "YouTube" "abc"]
             (Some (video "Trailer" "YouTube" "abc")));
      [reflexivity | reflexivity | reflexivity | reflexivity |].
    apply select_trailer.
    exists [video "Featurette" "YouTube" "f1"; video "Teaser" "YouTube" "t1";
            video "Trailer" "Vimeo" "x"], [].
    split; [reflexivity | split; [reflexivity |]].
    intros u [<- | [<- | [<- | []]]]; reflexivity.
  - destruct (fetchTrailerFromTMDB_key (Some "k") "Batman Begins" "2005"
                offline start) as (_ & _ & _ & Hfail & _).
    apply (Hfail "k" NetworkError); reflexivity.
  - destruct (fetchTrailerFromTMDB_key None "Batman Begins" "2005"
                (tmdb_with [video "Trailer" "YouTube" "abc"]) start)
      as (_ & _ & Hnokey & _).
    apply Hnokey. reflexivity.
  - destruct (fetchTrailerFromTMDB_key (Some "k") "Batman Begins" "2005"
                batman_and_spider start)
      as (_ & _ & _ & _ & _ & _ & Hnomatch & _).
    apply (Hnomatch "k" None); [reflexivity | reflexivity | reflexivity |].
    left. reflexivity.
Defined.

(** Without the test on the key the statement fails: the one video is a
    "Trailer" on YouTube whose key is the empty string, and the resolver
    returns None, not that key. *)
Lemma trailer_key_counterexample : ~ trailer_key_spec.
Proof.
  intros H.
  specialize (H "k" "Batman Begins" "2005"
                (tmdb_with [video "Trailer" "YouTube" EmptyString]) start
                {| TmdbMovie.id := 155 |} []
                [video "Trailer" "YouTube" EmptyString]
                (video "Trailer" "YouTube" EmptyString)
                eq_refl eq_refl eq_refl).
  assert (Hsel : selected_spec [video "Trailer" "YouTube" EmptyString]
                   (Some (video "Trailer" "YouTube" EmptyString))).
  { apply select_trailer. exists [], [].
    split; [reflexivity | split; [reflexivity | intros u []]]. }
  specialize (H Hsel). vm_compute in H. discriminate H.
Qed.

(** ** Arithmetic of doubles on integers *)

(** What the proofs on the preview position need of [SpecFloat]: additions
    and subtractions of integers below 2^53 are exact, the comparison of
    two such integers is their comparison as integers, and a rounding never
    produces a NaN. *)

Lemma iter_xO_value (p k : positive) :
  Zpos (Pos.iter xO p k) = Zpos p * 2 ^ Zpos k.
Proof.
  induction k as [| k IH] using Pos.peano_ind.
  - simpl. lia.
  - rewrite Pos.iter_succ, Pos2Z.inj_succ, Z.pow_succ_r by lia.
    rewrite Pos2Z.inj_xO, IH. lia.
Qed.

Lemma shl_value (p : positive) (k : Z) :
  0 <= k -> Zpos (shl p k) = Zpos p * 2 ^ k.
Proof.
  intros Hk. destruct k as [| k | k]; [simpl; lia | | lia].
  apply iter_xO_value.
Qed.

Lemma iter_xO_digits (p k : positive) :
  Zpos (digits2_pos (Pos.iter xO p k)) = Zpos (digits2_pos p) + Zpos k.
Proof.
  induction k as [| k IH] using Pos.peano_ind.
  - simpl. lia.
  - rewrite Pos.iter_succ. cbn [digits2_pos]. lia.
Qed.

Lemma shl_digits (p : positive) (k : Z) :
  0 <= k -> Zpos (digits2_pos (shl p k)) = Zpos (digits2_pos p) + k.
Proof.
  intros Hk. destruct k as [| k | k]; [simpl; lia | | lia].
  apply iter_xO_digits.
Qed.

(** 2^(d-1) <= p < 2^d for d the number of binary digits of p. *)
Lemma digits2_bounds (p : positive) :
  2 ^ (Zpos (digits2_pos p) - 1) <= Zpos p < 2 ^ Zpos (digits2_pos p).
Proof.
  induction p as [p IH | p IH |]; cbn [digits2_pos].
  - rewrite Pos2Z.inj_succ.
    replace (Z.succ (Zpos (digits2_pos p)) - 1)
      with (Z.succ (Zpos (digits2_pos p) - 1)) by lia.
    rewrite !Z.pow_succ_r by lia. lia.
  - rewrite Pos2Z.inj_succ.
    replace (Z.succ (Zpos (digits2_pos p)) - 1)
      with (Z.succ (Zpos (digits2_pos p) - 1)) by lia.
    rewrite !Z.pow_succ_r by lia. lia.
  - simpl. lia.
Qed.

Lemma digits2_le (p : positive) (n : Z) :
  Zpos p < 2 ^ n -> Zpos (digits2_pos p) <= n.
Proof.
  intros Hp. destruct (digits2_bounds p) as [Hlo _].
  destruct (Z_le_gt_dec (Zpos (digits2_pos p)) n) as [H | H]; [exact H |].
  assert (0 <= n \/ n < 0) as [Hn | Hn] by lia.
  - assert (2 ^ n <= 2 ^ (Zpos (digits2_pos p) - 1))
      by (apply Z.pow_le_mono_r; lia).
    lia.
  - rewrite Z.pow_neg_r in Hp by lia. lia.
Qed.

Lemma digits2_ge (p : positive) (n : Z) :
  2 ^ n <= Zpos p -> n < Zpos (digits2_pos p).
Proof.
  intros Hp. destruct (digits2_bounds p) as [_ Hhi].
  destruct (Z_lt_le_dec n (Zpos (digits2_pos p))) as [H | H]; [exact H |].
  assert (2 ^ Zpos (digits2_pos p) <= 2 ^ n)
    by (apply Z.pow_le_mono_r; lia).
  lia.
Qed.

(** The iteration of [SpecFloat], unfolded from the inside. *)
Lemma sf_iter_swap {A} (f : A -> A) (n : positive) :
  forall x : A, SpecFloat.iter_pos f n (f x) = f (SpecFloat.iter_pos f n x).
Proof.
  induction n as [n IH | n IH |]; intros x; cbn [SpecFloat.iter_pos].
  - now rewrite !IH.
  - now rewrite !IH.
  - reflexivity.
Qed.

Lemma sf_iter_succ {A} (f : A -> A) (n : positive) :
  forall x : A,
    SpecFloat.iter_pos f (Pos.succ n) x = SpecFloat.iter_pos f n (f x).
Proof.
  induction n as [n IH | n IH |]; intros x.
  - change (Pos.succ n~1) with ((Pos.succ n)~0)%positive.
    cbn [SpecFloat.iter_pos]. rewrite !IH. now rewrite !sf_iter_swap.
  - reflexivity.
  - reflexivity.
Qed.

Lemma sf_iter_invariant {A} (f : A -> A) (Inv : A -> Prop) :
  (forall x, Inv x -> Inv (f x)) ->
  forall (n : positive) (x : A), Inv x -> Inv (SpecFloat.iter_pos f n x).
Proof.
  intros Hf. induction n as [n IH | n IH |]; intros x Hx;
    cbn [SpecFloat.iter_pos].
  - apply IH, IH, Hf, Hx.
  - apply IH, IH, Hx.
  - apply Hf, Hx.
Qed.

(** Shifting right the bits that a left shift added loses nothing. *)
Lemma shr_iter_xO (m t : positive) :
  SpecFloat.iter_pos shr_1 t
    {| shr_m := Zpos (Pos.iter xO m t); shr_r := false; shr_s := false |}
  = {| shr_m := Zpos m; shr_r := false; shr_s := false |}.
Proof.
  induction t as [| t IH] using Pos.peano_ind.
  - reflexivity.
  - rewrite sf_iter_succ, Pos.iter_succ. cbn [shr_1 orb]. exact IH.
Qed.

(** A mantissa of 53 bits with an exponent in range is kept as it is. *)
Lemma binary_round_aux_53 (s : bool) (m : positive) (e : Z) :
  Zpos (digits2_pos m) = 53 -> -1074 <= e <= 971 ->
  binary_round_aux Number.prec Number.emax s (Zpos m) e loc_Exact
  = S754_finite s m e.
Proof.
  intros Hd He. unfold binary_round_aux, shr_fexp.
  cbn [Zdigits2 shr_record_of_loc]. rewrite Hd.
  assert (Hf : fexp Number.prec Number.emax (53 + e) - e = 0).
  { unfold fexp, emin, Number.prec, Number.emax. lia. }
  rewrite Hf. cbn [shr shr_m loc_of_shr_record round_nearest_even Zdigits2
                   shr_record_of_loc].
  rewrite Hd, Hf. cbn [shr shr_m].
  unfold Number.emax, Number.prec.
  destruct (Z.leb_spec e (1024 - 53)); [reflexivity | lia].
Qed.

(** A mantissa of 53 bits followed by [t] zero bits is rounded exactly. *)
Lemma binary_round_aux_shifted (s : bool) (m t : positive) (e : Z) :
  Zpos (digits2_pos m) = 53 -> -1074 <= e + Zpos t <= 971 ->
  binary_round_aux Number.prec Number.emax s (Zpos (Pos.iter xO m t)) e
    loc_Exact
  = S754_finite s m (e + Zpos t).
Proof.
  intros Hd He. unfold binary_round_aux, shr_fexp.
  cbn [Zdigits2 shr_record_of_loc]. rewrite iter_xO_digits, Hd.
  assert (Hf : fexp Number.prec Number.emax (53 + Zpos t + e) - e = Zpos t).
  { unfold fexp, emin, Number.prec, Number.emax. lia. }
  rewrite Hf. cbn [shr]. rewrite shr_iter_xO.
  cbn [shr_m loc_of_shr_record round_nearest_even Zdigits2 shr_record_of_loc].
  rewrite Hd.
  assert (Hf' : fexp Number.prec Number.emax (53 + (e + Zpos t))
                - (e + Zpos t) = 0).
  { unfold fexp, emin, Number.prec, Number.emax. lia. }
  rewrite Hf'. cbn [shr shr_m].
  unfold Number.emax, Number.prec.
  destruct (Z.leb_spec (e + Zpos t) (1024 - 53)); [reflexivity | lia].
Qed.

Lemma shl_shl (q : positive) (a b : Z) :
  0 <= a -> 0 <= b -> shl (shl q a) b = shl q (a + b).
Proof.
  intros Ha Hb. apply Pos2Z.inj. rewrite !shl_value by lia.
  rewrite Z.pow_add_r by lia. lia.
Qed.

(** Rounding [q * 2^k] at exponent [-k] gives the float of [q]. *)
Lemma binary_round_exact (s : bool) (q : positive) (k : Z) :
  0 <= k -> k <= 1074 -> Zpos (digits2_pos q) <= 53 ->
  binary_round Number.prec Number.emax s (shl q k) (- k) = canon s q.
Proof.
  intros Hk Hk' Hd. unfold binary_round, canon.
  set (d := Zpos (digits2_pos q)) in *.
  assert (Hd0 : 1 <= d) by (subst d; lia).
  rewrite shl_digits by lia. fold d.
  assert (Hf : fexp Number.prec Number.emax (d + k + - k) = d - 53).
  { unfold fexp, emin, Number.prec, Number.emax. lia. }
  rewrite Hf. unfold shl_align.
  destruct (d - 53 - - k) as [| t | t] eqn:Ht.
  - assert (k = 53 - d) as -> by lia.
    rewrite binary_round_aux_53; [f_equal; lia | | lia].
    rewrite shl_digits by lia. fold d. lia.
  - assert (Hsplit : shl q k = Pos.iter xO (shl q (53 - d)) t).
    { change (Pos.iter xO (shl q (53 - d)) t)
        with (shl (shl q (53 - d)) (Zpos t)).
      rewrite shl_shl by lia. f_equal. lia. }
    rewrite Hsplit, binary_round_aux_shifted; [f_equal; lia | | lia].
    rewrite shl_digits by lia. fold d. lia.
  - change (Pos.iter xO (shl q k) t) with (shl (shl q k) (Zpos t)).
    rewrite shl_shl by lia.
    replace (k + Zpos t) with (53 - d) by lia.
    rewrite binary_round_aux_53; [reflexivity | | lia].
    rewrite shl_digits by lia. fold d. lia.
Qed.

Lemma of_Z_pos (p : positive) :
  Zpos p < 2 ^ 53 -> Number.of_Z (Zpos p) = canon false p.
Proof.
  intros Hp. unfold Number.of_Z. cbn [binary_normalize].
  apply (binary_round_exact false p 0); [lia | lia |].
  now apply digits2_le.
Qed.

Lemma of_Z_neg (p : positive) :
  Zpos p < 2 ^ 53 -> Number.of_Z (Zneg p) = canon true p.
Proof.
  intros Hp. unfold Number.of_Z. cbn [binary_normalize].
  apply (binary_round_exact true p 0); [lia | lia |].
  now apply digits2_le.
Qed.

(** Normalising the integer [v * 2^k] at exponent [-k] gives the float of
    [v]. *)
Lemma binary_normalize_exact (v k : Z) :
  0 <= k <= 1074 -> exact_range v ->
  binary_normalize Number.prec Number.emax (v * 2 ^ k) (- k) false
  = Number.of_Z v.
Proof.
  intros Hk Hv. unfold exact_range in Hv.
  assert (Hpow : 0 < 2 ^ k) by (apply Z.pow_pos_nonneg; lia).
  destruct v as [| q | q].
  - reflexivity.
  - rewrite of_Z_pos by lia.
    assert (Hz : Zpos q * 2 ^ k = Zpos (shl q k)) by (rewrite shl_value; lia).
    rewrite Hz. cbn [binary_normalize].
    apply binary_round_exact; [lia | lia |]. apply digits2_le. lia.
  - rewrite of_Z_neg by lia.
    assert (Hz : Zneg q * 2 ^ k = Zneg (shl q k)).
    { rewrite <- !Pos2Z.opp_pos, shl_value by lia. lia. }
    rewrite Hz. cbn [binary_normalize].
    apply binary_round_exact; [lia | lia |]. apply digits2_le. lia.
Qed.

(** The signed mantissa of the float of an integer, aligned at a lower
    exponent. *)
Lemma aligned_value (s : bool) (q : positive) (ez : Z) :
  Zpos (digits2_pos q) <= 53 ->
  ez <= Zpos (digits2_pos q) - 53 ->
  cond_Zopp s
    (Zpos (shl_align (shl q (53 - Zpos (digits2_pos q)))
             (Zpos (digits2_pos q) - 53) ez).1)
  = cond_Zopp s (Zpos q) * 2 ^ (- ez).
Proof.
  intros Hd Hez. set (d := Zpos (digits2_pos q)) in *.
  assert (Hm : Zpos (shl_align (shl q (53 - d)) (d - 53) ez).1
               = Zpos q * 2 ^ (- ez)).
  { unfold shl_align. destruct (ez - (d - 53)) as [| t | t] eqn:Ht;
      cbn [fst].
    - rewrite shl_value by lia. f_equal. f_equal. lia.
    - lia.
    - change (Pos.iter xO (shl q (53 - d)) t)
        with (shl (shl q (53 - d)) (Zpos t)).
      rewrite shl_shl, shl_value by lia. f_equal. f_equal. lia. }
  rewrite Hm. destruct s; cbn [cond_Zopp]; lia.
Qed.

Lemma of_Z_canon (v : Z) :
  exact_range v -> v <> 0 ->
  exists q, Zpos (digits2_pos q) <= 53
            /\ Number.of_Z v = canon (sign_of v) q
            /\ cond_Zopp (sign_of v) (Zpos q) = v.
Proof.
  unfold exact_range. intros Hv Hne. destruct v as [| q | q]; [lia | |].
  - exists q. split; [apply digits2_le; lia |].
    split; [apply of_Z_pos; lia | reflexivity].
  - exists q. split; [apply digits2_le; lia |].
    split; [apply of_Z_neg; lia | reflexivity].
Qed.

Lemma of_Z_0 : Number.of_Z 0 = S754_zero false.
Proof. reflexivity. Qed.

(** Addition and subtraction of integers are exact as long as the operands
    and the result are below 2^53 in absolute value. *)
Lemma add_of_Z (a b : Z) :
  exact_range a -> exact_range b -> exact_range (a + b) ->
  Number.add (Number.of_Z a) (Number.of_Z b) = Number.of_Z (a + b).
Proof.
  intros Ha Hb Hab.
  destruct (Z.eq_dec a 0) as [-> | Ha0].
  { rewrite of_Z_0, Z.add_0_l.
    destruct (Z.eq_dec b 0) as [-> | Hb0]; [reflexivity |].
    destruct (of_Z_canon b Hb Hb0) as (q & _ & -> & _). reflexivity. }
  destruct (Z.eq_dec b 0) as [-> | Hb0].
  { rewrite of_Z_0, Z.add_0_r.
    destruct (of_Z_canon a Ha Ha0) as (q & _ & -> & _). reflexivity. }
  destruct (of_Z_canon a Ha Ha0) as (qa & Hda & -> & Hva).
  destruct (of_Z_canon b Hb Hb0) as (qb & Hdb & -> & Hvb).
  unfold Number.add, canon. cbn [SFadd].
  set (da := Zpos (digits2_pos qa)) in *.
  set (db := Zpos (digits2_pos qb)) in *.
  set (ez := Z.min (da - 53) (db - 53)).
  assert (Hda0 : 1 <= da) by (subst da; lia).
  assert (Hdb0 : 1 <= db) by (subst db; lia).
  subst da db.
  rewrite !aligned_value by lia.
  rewrite Hva, Hvb.
  replace (a * 2 ^ (- ez) + b * 2 ^ (- ez)) with ((a + b) * 2 ^ (- ez))
    by lia.
  replace ez with (- - ez) at 2 by lia.
  apply binary_normalize_exact; [lia | exact Hab].
Qed.

Lemma sub_of_Z (a b : Z) :
  exact_range a -> exact_range b -> exact_range (a - b) ->
  Number.sub (Number.of_Z a) (Number.of_Z b) = Number.of_Z (a - b).
Proof.
  intros Ha Hb Hab.
  destruct (Z.eq_dec b 0) as [-> | Hb0].
  { rewrite of_Z_0, Z.sub_0_r.
    destruct (Z.eq_dec a 0) as [-> | Ha0]; [reflexivity |].
    destruct (of_Z_canon a Ha Ha0) as (q & _ & -> & _). reflexivity. }
  destruct (Z.eq_dec a 0) as [-> | Ha0].
  { rewrite of_Z_0, Z.sub_0_l. unfold exact_range in Hb.
    destruct b as [| q | q]; [lia | |].
    - rewrite of_Z_pos by lia. change (- Zpos q) with (Zneg q).
      rewrite of_Z_neg by lia. reflexivity.
    - rewrite of_Z_neg by lia. change (- Zneg q) with (Zpos q).
      rewrite of_Z_pos by lia. reflexivity. }
  destruct (of_Z_canon a Ha Ha0) as (qa & Hda & -> & Hva).
  destruct (of_Z_canon b Hb Hb0) as (qb & Hdb & -> & Hvb).
  unfold Number.sub, canon. cbn [SFsub].
  set (da := Zpos (digits2_pos qa)) in *.
  set (db := Zpos (digits2_pos qb)) in *.
  set (ez := Z.min (da - 53) (db - 53)).
  assert (Hda0 : 1 <= da) by (subst da; lia).
  assert (Hdb0 : 1 <= db) by (subst db; lia).
  subst da db.
  rewrite !aligned_value by lia.
  rewrite Hva, Hvb.
  replace (a * 2 ^ (- ez) - b * 2 ^ (- ez)) with ((a - b) * 2 ^ (- ez))
    by lia.
  replace ez with (- - ez) at 2 by lia.
  apply binary_normalize_exact; [lia | exact Hab].
Qed.

(** Comparison of the floats of two integers is comparison of the
    integers. *)
Lemma canon_compare (qa qb : positive) :
  Zpos (digits2_pos qa) <= 53 -> Zpos (digits2_pos qb) <= 53 ->
  match Zpos (digits2_pos qa) - 53 ?= Zpos (digits2_pos qb) - 53 with
  | Lt => Lt
  | Gt => Gt
  | Eq => Pos.compare_cont Eq (shl qa (53 - Zpos (digits2_pos qa)))
            (shl qb (53 - Zpos (digits2_pos qb)))
  end = (Zpos qa ?= Zpos qb).
Proof.
  intros Ha Hb.
  pose proof (digits2_bounds qa) as [Halo Hahi].
  pose proof (digits2_bounds qb) as [Hblo Hbhi].
  set (da := Zpos (digits2_pos qa)) in *.
  set (db := Zpos (digits2_pos qb)) in *.
  assert (Hda0 : 1 <= da) by (subst da; lia).
  assert (Hdb0 : 1 <= db) by (subst db; lia).
  destruct (Z.compare_spec (da - 53) (db - 53)) as [Heq | Hlt | Hgt].
  - assert (da = db) as Hd by lia. rewrite Hd.
    change (Pos.compare_cont Eq ?x ?y) with (Zpos x ?= Zpos y).
    rewrite !shl_value by lia.
    symmetry. apply Zmult_compare_compat_r.
    apply Z.lt_gt, Z.pow_pos_nonneg; lia.
  - symmetry. apply Z.compare_lt_iff.
    assert (2 ^ da <= 2 ^ (db - 1)) by (apply Z.pow_le_mono_r; lia). lia.
  - symmetry. apply Z.compare_gt_iff.
    assert (2 ^ db <= 2 ^ (da - 1)) by (apply Z.pow_le_mono_r; lia). lia.
Qed.

Lemma compare_of_Z (a b : Z) :
  exact_range a -> exact_range b ->
  SFcompare (Number.of_Z a) (Number.of_Z b) = Some (a ?= b).
Proof.
  unfold exact_range. intros Ha Hb.
  destruct a as [| qa | qa], b as [| qb | qb];
    rewrite ?of_Z_0, ?of_Z_pos, ?of_Z_neg by lia;
    try reflexivity.
  - unfold canon. cbn [SFcompare]. f_equal.
    apply canon_compare; apply digits2_le; lia.
  - unfold canon. cbn [SFcompare]. f_equal.
    change (Zneg qa ?= Zneg qb) with (CompOpp (Zpos qa ?= Zpos qb)).
    rewrite <- (canon_compare qa qb) by (apply digits2_le; lia).
    destruct (Zpos (digits2_pos qa) - 53 ?= Zpos (digits2_pos qb) - 53);
      reflexivity.
Qed.

Lemma of_Z_not_nan (v : Z) :
  exact_range v -> Number.is_nan (Number.of_Z v) = false.
Proof.
  unfold exact_range. intros Hv. destruct v as [| q | q];
    rewrite ?of_Z_0, ?of_Z_pos, ?of_Z_neg by lia; reflexivity.
Qed.

(** [y ? x] is the opposite of [x ? y]. *)
Lemma SFcompare_antisym (x y : Number.t) :
  SFcompare y x
  = match SFcompare x y with
    | Some c => Some (CompOpp c)
    | None => None
    end.
Proof.
  destruct x as [sx | sx | | sx mx ex], y as [sy | sy | | sy my ey];
    try reflexivity;
    try (destruct sx; reflexivity); try (destruct sy; reflexivity);
    try (destruct sx, sy; reflexivity).
  cbn [SFcompare]. f_equal.
  destruct sx, sy; try reflexivity.
  - rewrite (Z.compare_antisym ex ey).
    destruct (ex ?= ey); cbn [CompOpp]; try reflexivity.
    now rewrite (ZC4 my mx).
  - rewrite (Z.compare_antisym ex ey).
    destruct (ex ?= ey); cbn [CompOpp]; try reflexivity.
    apply ZC4.
Qed.

(** For numbers, [x < y] false means [y <= x]. *)
Lemma not_lt_le (x y : Number.t) :
  Number.is_nan x = false -> Number.is_nan y = false ->
  Number.lt x y = false -> Number.le y x = true.
Proof.
  unfold Number.lt, Number.le, SFltb, SFleb. intros Hx Hy.
  rewrite (SFcompare_antisym x y).
  destruct (SFcompare x y) as [[| |] |] eqn:Hc; try reflexivity;
    try discriminate.
  destruct x, y; try discriminate; cbn in Hc;
    repeat match type of Hc with
           | context [if ?b then _ else _] => destruct b
           end; discriminate.
Qed.

(** Rounding never makes a NaN. *)
Lemma shr_1_nonneg (mrs : shr_record) :
  0 <= shr_m mrs -> 0 <= shr_m (shr_1 mrs).
Proof.
  destruct mrs as [m r s]. cbn [shr_m shr_1].
  destruct m as [| [p | p |] | p]; cbn [shr_m]; lia.
Qed.

Lemma shr_nonneg (mrs : shr_record) (e n : Z) :
  0 <= shr_m mrs -> 0 <= shr_m (shr mrs e n).1.
Proof.
  intros Hm. unfold shr. destruct n as [| p | p]; cbn [fst]; try exact Hm.
  apply (sf_iter_invariant shr_1 (fun r => 0 <= shr_m r));
    [apply shr_1_nonneg | exact Hm].
Qed.

Lemma shr_m_record_of_loc (m : Z) (l : location) :
  shr_m (shr_record_of_loc m l) = m.
Proof. destruct l as [| []]; reflexivity. Qed.

Lemma binary_round_aux_not_nan (s : bool) (m e : Z) (l : location) :
  0 <= m ->
  Number.is_nan (binary_round_aux Number.prec Number.emax s m e l) = false.
Proof.
  intros Hm. unfold binary_round_aux, shr_fexp.
  match goal with
  | |- context [shr (shr_record_of_loc m l) e ?n] =>
      pose proof (shr_nonneg (shr_record_of_loc m l) e n) as H1;
      destruct (shr (shr_record_of_loc m l) e n) as [mrs' e']
  end.
  rewrite shr_m_record_of_loc in H1. specialize (H1 Hm). cbn [fst] in H1.
  set (m2 := round_nearest_even (shr_m mrs') (loc_of_shr_record mrs')).
  assert (H2 : 0 <= m2).
  { subst m2. unfold round_nearest_even.
    destruct (loc_of_shr_record mrs') as [| []]; try lia.
    destruct (Z.even (shr_m mrs')); lia. }
  match goal with
  | |- context [shr (shr_record_of_loc m2 loc_Exact) e' ?n] =>
      pose proof (shr_nonneg (shr_record_of_loc m2 loc_Exact) e' n) as H3;
      destruct (shr (shr_record_of_loc m2 loc_Exact) e' n) as [mrs'' e'']
  end.
  cbn [shr_record_of_loc shr_m fst] in H3. specialize (H3 H2).
  destruct (shr_m mrs'') as [| p | p]; [reflexivity | | lia].
  destruct (e'' <=? Number.emax - Number.prec); reflexivity.
Qed.

Lemma binary_normalize_not_nan (z e : Z) (szero : bool) :
  Number.is_nan (binary_normalize Number.prec Number.emax z e szero) = false.
Proof.
  unfold binary_normalize, binary_round.
  destruct z as [| p | p]; [reflexivity | |];
    match goal with
    | |- context [shl_align ?m ?e ?e'] => destruct (shl_align m e e')
    end; apply binary_round_aux_not_nan; lia.
Qed.

(** Adding a finite number to a number gives a number. *)
Lemma add_finite_not_nan (x : Number.t) (s : bool) (m : positive) (e : Z) :
  Number.is_nan x = false ->
  Number.is_nan (Number.add x (S754_finite s m e)) = false.
Proof.
  intros Hx. destruct x as [sx | sx | | sx mx ex]; try discriminate;
    try reflexivity.
  unfold Number.add. cbn [SFadd]. apply binary_normalize_not_nan.
Qed.

(** ** Preview position: proofs *)

Lemma long_exact (z c : Z) :
  long z -> -1000 <= c <= 1000 -> exact_range (z + c).
Proof.
  unfold long, exact_range. intros Hz Hc.
  assert (2 ^ 31 + 1000 < 2 ^ 53) by (vm_compute; reflexivity).
  lia.
Qed.

(** C8 (amended): whatever the card rectangle, the scroll offsets and the
    (integer) viewport width, the position computed by the timer passes the
    script's own tests, in the arithmetic of doubles in which the script
    computes: [left + 350 > innerWidth - 10] is false, and when the
    viewport is at least 370px wide (wide enough for the panel and both
    margins) [left < 10] is false; so that, when the position is a number
    (not NaN), [left + 350 <= innerWidth - 10] holds and, in a viewport at
    least 370px wide, [10 <= left].  The sum [left + 350] is the rounded
    sum: see [sum_rounds_down_at_right_edge]. *)
Theorem computePreviewPosition_clamped (rect : DOMRect.t) (window : Window.t) :
  long (Window.innerWidth window) ->
  let left := PreviewPosition.left (computePreviewPosition rect window) in
  let innerWidth := Number.of_Z (Window.innerWidth window) in
  Number.gt (Number.add left (Number.of_Z 350))
            (Number.sub innerWidth (Number.of_Z 10)) = false
  /\ (370 <= Window.innerWidth window ->
      Number.lt left (Number.of_Z 10) = false)
  /\ (Number.is_nan left = false ->
      Number.le (Number.add left (Number.of_Z 350))
                (Number.sub innerWidth (Number.of_Z 10)) = true
      /\ (370 <= Window.innerWidth window ->
          Number.le (Number.of_Z 10) left = true)).
Proof.
  intros Hlong. cbv zeta. unfold computePreviewPosition.
  cbn [PreviewPosition.left].
  set (scrollLeft := or_number _ _).
  set (left0 := Number.sub _ (Number.of_Z 175)).
  set (W := Window.innerWidth window) in *.
  set (left1 := if Number.lt left0 (Number.of_Z 10)
                then Number.of_Z 10 else left0).
  assert (HW : exact_range W).
  { apply (long_exact W 0) in Hlong; [now rewrite Z.add_0_r in Hlong | lia]. }
  assert (H10 : exact_range 10) by (unfold exact_range; lia).
  assert (H350 : exact_range 350) by (unfold exact_range; lia).
  assert (H360 : exact_range 360) by (unfold exact_range; lia).
  assert (HW10 : exact_range (W - 10))
    by (apply (long_exact W (-10)); [exact Hlong | lia]).
  assert (HW360 : exact_range (W - 360))
    by (apply (long_exact W (-360)); [exact Hlong | lia]).
  assert (Hw10 : Number.sub (Number.of_Z W) (Number.of_Z 10)
                 = Number.of_Z (W - 10)) by now apply sub_of_Z.
  assert (Hw360 : Number.sub (Number.of_Z W) (Number.of_Z 360)
                  = Number.of_Z (W - 360)) by now apply sub_of_Z.
  assert (Hsum : Number.add (Number.of_Z (W - 360)) (Number.of_Z 350)
                 = Number.of_Z (W - 10)).
  { rewrite add_of_Z; [f_equal; lia | exact HW360 | exact H350 |].
    now replace (W - 360 + 350) with (W - 10) by lia. }
  assert (Hlow : Number.lt left1 (Number.of_Z 10) = false).
  { subst left1. destruct (Number.lt left0 (Number.of_Z 10)) eqn:H;
      [reflexivity | exact H]. }
  destruct (Number.gt (Number.add left1 (Number.of_Z 350))
              (Number.sub (Number.of_Z W) (Number.of_Z 10))) eqn:Hhigh.
  - rewrite Hw360, Hsum, Hw10.
    unfold Number.gt, Number.lt, Number.le, SFltb, SFleb.
    rewrite !compare_of_Z by assumption. rewrite Z.compare_refl.
    split; [reflexivity |]. split.
    + intros Hwide. destruct (Z.compare_spec (W - 360) 10); try reflexivity.
      lia.
    + intros _. split; [reflexivity |]. intros Hwide.
      destruct (Z.compare_spec 10 (W - 360)); try reflexivity. lia.
  - split; [exact Hhigh |]. split; [intros _; exact Hlow |].
    intros Hnum. split.
    + apply not_lt_le; [| | exact Hhigh].
      * rewrite Hw10. now apply of_Z_not_nan.
      * now apply add_finite_not_nan.
    + intros _. apply not_lt_le; [exact Hnum | reflexivity | exact Hlow].
Qed.

Lemma computePreviewPosition_clamped_witness :
  let left :=
    PreviewPosition.left (computePreviewPosition (card_at 1200) wide_window) in
  left = Number.of_Z 920
  /\ Number.le (Number.add left (Number.of_Z 350)) (Number.of_Z 1270) = true
  /\ Number.le (Number.of_Z 10) left = true.
Proof.
  cbv zeta. split; [vm_compute; reflexivity |].
  destruct (computePreviewPosition_clamped (card_at 1200) wide_window)
    as (_ & _ & Hle); [unfold long; cbn; lia |].
  destruct Hle as [Hright Hleft]; [vm_compute; reflexivity |].
  split; [exact Hright |]. apply Hleft. cbn. lia.
Defined.

(** In a 320px wide viewport the right clamp runs last and puts the panel
    at left = 320 - 360 = -40. *)
Lemma preview_within_viewport_counterexample :
  ~ preview_within_viewport_spec.
Proof.
  intros H.
  destruct (H (card_at 100) narrow_window) as [Hleft _];
    [unfold long; cbn; lia | vm_compute; reflexivity |].
  vm_compute in Hleft. discriminate Hleft.
Qed.

(** The sum tested is the rounded sum.  For a card whose left edge is at
    800 + 2^-43 in a viewport 1060px wide, the centred position is
    700 + 2^-43; adding 350 gives a tie that rounds to 1050, the test
    [left + 350 > 1050] is false and the position is kept, although the
    exact sum exceeds 1050 by 2^-43. *)
Example sum_rounds_down_at_right_edge :
  let left :=
    PreviewPosition.left
      (computePreviewPosition off_grid_card (not_scrolled 1060)) in
  left = S754_finite false (700 * 2 ^ 43 + 1) (-43)
  /\ Number.add left (Number.of_Z 350) = Number.of_Z 1050
  /\ Number.gt (Number.add left (Number.of_Z 350))
               (Number.sub (Number.of_Z 1060) (Number.of_Z 10)) = false.
Proof. cbv zeta. vm_compute. repeat split. Qed.

(** ** Trailer cache: proofs *)

Lemma lookup_count_snoc (id : string) (ms : list Movie) (m : Movie) :
  length (filter (fun m' => imdbID m' = id) (ms ++ [m]))
  = (length (filter (fun m' => imdbID m' = id) ms)
     + if decide (imdbID m = id) then 1 else 0)%nat.
Proof.
  rewrite filter_app, length_app. f_equal.
  destruct (decide (imdbID m = id)) as [Heq | Hne].
  - now rewrite filter_cons_True.
  - now rewrite filter_cons_False.
Qed.

Lemma write_count_snoc (id : string) (ws : list (string * option string))
    (k : string) (v : option string) :
  length (filter (fun w => w.1 = id) (ws ++ [(k, v)]))
  = (length (filter (fun w => w.1 = id) ws)
     + if decide (k = id) then 1 else 0)%nat.
Proof.
  rewrite filter_app, length_app. f_equal.
  destruct (decide (k = id)) as [Heq | Hne].
  - now rewrite filter_cons_True.
  - now rewrite filter_cons_False.
Qed.

(** A hover over a movie whose id has an entry reads the entry and starts
    nothing. *)
Lemma trailerEffect_hit (s : Session) (m : Movie) (cached : option string) :
  trailerCache s !! imdbID m = Some cached ->
  trailerEffect (Some m) s
  = {| hoveredMovie := Some m;
       trailer := {| youtubeKey := cached; loading := false;
                     error := is_null cached |};
       trailerCache := trailerCache s; lookups := lookups s;
       settled := settled s; writes := writes s |}.
Proof. intros Hc. unfold trailerEffect. now rewrite Hc. Qed.

(** One step from a state where [id] has an entry: the entry stays, and no
    lookup for [id] starts. *)
Lemma step_keeps_entry (id : string) (s : Session) (e : event) :
  is_Some (trailerCache s !! id) ->
  is_Some (trailerCache (step s e) !! id)
  /\ lookup_count id (step s e) = lookup_count id s.
Proof.
  intros Hentry. destruct e as [[m |] | n key]; cbn [step].
  - unfold trailerEffect.
    destruct (trailerCache s !! imdbID m) as [cachedKey |] eqn:Hm;
      cbn [trailerCache]; (split; [exact Hentry |]); [reflexivity |].
    unfold lookup_count. cbn [lookups]. rewrite lookup_count_snoc.
    destruct (decide (imdbID m = id)) as [Heq | Hne]; [| lia].
    rewrite Heq in Hm. rewrite Hm in Hentry. now destruct Hentry.
  - split; [exact Hentry | reflexivity].
  - destruct (lookups s !! n) as [m |]; [| split; [exact Hentry | reflexivity]].
    destruct (decide (n ∈ settled s)); [split; [exact Hentry | reflexivity] |].
    unfold lookupCallback. cbn [trailerCache]. split; [| reflexivity].
    destruct (decide (imdbID m = id)) as [-> | Hne].
    + rewrite lookup_insert_eq. now eexists.
    + now rewrite lookup_insert_ne.
Qed.

Lemma run_keeps_entry (id : string) (es : list event) :
  forall s : Session,
    is_Some (trailerCache s !! id) ->
    is_Some (trailerCache (run s es) !! id)
    /\ lookup_count id (run s es) = lookup_count id s.
Proof.
  induction es as [| e es IH]; intros s Hentry; [split; [exact Hentry | reflexivity] |].
  change (run s (e :: es)) with (run (step s e) es).
  destruct (step_keeps_entry id s e Hentry) as [Hentry' Hcount].
  destruct (IH (step s e) Hentry') as [Hentry'' Hcount'].
  split; [exact Hentry'' | congruence].
Qed.

(** With an entry for [id] and no lookup for [id] in flight, a step changes
    neither the entry nor the number of writes to it. *)
Lemma step_quiet (id : string) (s : Session) (e : event)
    (cached : option string) :
  trailerCache s !! id = Some cached ->
  no_pending id s ->
  trailerCache (step s e) !! id = Some cached
  /\ no_pending id (step s e)
  /\ write_count id (step s e) = write_count id s.
Proof.
  intros Hentry Hquiet. destruct e as [[m |] | n key]; cbn [step].
  - unfold trailerEffect.
    destruct (trailerCache s !! imdbID m) as [cachedKey |] eqn:Hm;
      cbn [trailerCache];
      (split; [exact Hentry |]); (split; [| reflexivity]); [exact Hquiet |].
    intros n m' Hn Hid. cbn [lookups settled] in *.
    apply lookup_app_Some in Hn as [Hn | [_ Hn]]; [now apply (Hquiet n m') |].
    apply list_lookup_singleton_Some in Hn as [_ <-].
    rewrite Hid in Hm. congruence.
  - repeat split; assumption.
  - destruct (lookups s !! n) as [m |] eqn:Hn; [| repeat split; assumption].
    destruct (decide (n ∈ settled s)) as [Hin | Hnin];
      [repeat split; assumption |].
    assert (Hne : imdbID m <> id).
    { intros Heq. apply Hnin. now apply (Hquiet n m). }
    unfold lookupCallback. cbn [trailerCache]. split; [| split].
    + now rewrite lookup_insert_ne.
    + intros n' m' Hn' Hid. cbn [lookups settled] in *.
      apply elem_of_union_r. now apply (Hquiet n' m').
    + unfold write_count. cbn [writes]. rewrite write_count_snoc.
      destruct (decide (imdbID m = id)); [contradiction | lia].
Qed.

Lemma run_quiet (id : string) (es : list event) (cached : option string) :
  forall s : Session,
    trailerCache s !! id = Some cached ->
    no_pending id s ->
    trailerCache (run s es) !! id = Some cached
    /\ write_count id (run s es) = write_count id s.
Proof.
  induction es as [| e es IH]; intros s Hentry Hquiet;
    [split; [exact Hentry | reflexivity] |].
  change (run s (e :: es)) with (run (step s e) es).
  destruct (step_quiet id s e cached Hentry Hquiet) as (He & Hq & Hw).
  destruct (IH (step s e) He Hq) as [He' Hw'].
  split; [exact He' | congruence].
Qed.

Lemma initialSession_all_settled : all_settled initialSession.
Proof.
  repeat split; try reflexivity.
  - intros Hn. cbn in Hn. set_solver.
  - cbn. lia.
  - cbn. lia.
Qed.

Lemma hoverAndSettle_all_settled (h : option Movie) (key : option string)
    (s : Session) :
  all_settled s -> all_settled (hoverAndSettle h key s).
Proof.
  intros (J1 & J2 & J3 & J4). unfold hoverAndSettle. cbn [step].
  destruct h as [m |]; cbn [trailerEffect].
  2: { cbn [lookups]. destruct (decide _) as [_ | Hne]; [| congruence].
       repeat split; try apply J1; auto. }
  destruct (trailerCache s !! imdbID m) as [cachedKey |] eqn:Hm.
  { cbn [lookups]. destruct (decide _) as [_ | Hne]; [| congruence].
    repeat split; try apply J1; auto. }
  cbn [lookups]. destruct (decide _) as [Heq | _].
  { rewrite length_app in Heq. simpl in Heq. lia. }
  cbn [step lookups settled].
  rewrite list_lookup_middle by reflexivity.
  destruct (decide (length (lookups s) ∈ settled s)) as [Hin | _].
  { apply J1 in Hin. lia. }
  unfold lookupCallback, all_settled, lookup_count, write_count.
  cbn [lookups settled trailerCache writes].
  split; [| split; [| split]].
  - intros n. rewrite elem_of_union, elem_of_singleton, length_app, J1.
    simpl. lia.
  - intros id Hid. rewrite lookup_count_snoc.
    destruct (decide (imdbID m = id)) as [<- | Hne].
    + rewrite lookup_insert_eq in Hid. discriminate.
    + rewrite lookup_insert_ne in Hid by assumption.
      specialize (J2 id Hid). unfold lookup_count in J2. lia.
  - intros id. rewrite lookup_count_snoc. specialize (J3 id).
    unfold lookup_count in J3.
    destruct (decide (imdbID m = id)) as [<- | Hne]; [| lia].
    specialize (J2 (imdbID m) Hm). unfold lookup_count in J2. lia.
  - intros id. rewrite lookup_count_snoc, write_count_snoc.
    specialize (J4 id). unfold lookup_count, write_count in J4.
    destruct (decide (imdbID m = id)); lia.
Qed.

Lemma run_settled_all_settled (hs : list (option Movie * option string)) :
  forall s : Session, all_settled s -> all_settled (run_settled s hs).
Proof.
  induction hs as [| [h key] hs IH]; intros s Hs; [exact Hs |].
  change (run_settled s ((h, key) :: hs))
    with (run_settled (hoverAndSettle h key s) hs).
  apply IH. now apply hoverAndSettle_all_settled.
Qed.

(** An element that satisfies the filter is counted. *)
Lemma lookup_counted (id : string) (ms : list Movie) (n : nat) (m : Movie) :
  ms !! n = Some m -> imdbID m = id ->
  (1 <= length (filter (fun m' => imdbID m' = id) ms))%nat.
Proof.
  revert n. induction ms as [| m0 ms IH]; intros n Hn Hid; [discriminate |].
  destruct (decide (imdbID m0 = id)) as [H0 | H0].
  - rewrite filter_cons_True by exact H0. simpl. lia.
  - rewrite filter_cons_False by exact H0.
    destruct n as [| n]; [simpl in Hn; congruence |].
    now apply (IH n).
Qed.

(** With at most one lookup for [id], two indices of lookups for [id] are
    the same index. *)
Lemma lookup_unique (id : string) (ms : list Movie) :
  forall (n n' : nat) (m m' : Movie),
    (length (filter (fun m0 => imdbID m0 = id) ms) <= 1)%nat ->
    ms !! n = Some m -> imdbID m = id ->
    ms !! n' = Some m' -> imdbID m' = id ->
    n = n'.
Proof.
  induction ms as [| m0 ms IH]; intros n n' m m' Hle Hn Hid Hn' Hid';
    [discriminate |].
  destruct (decide (imdbID m0 = id)) as [H0 | H0].
  - rewrite filter_cons_True in Hle by exact H0. simpl in Hle.
    destruct n as [| n], n' as [| n']; [reflexivity | | |].
    + pose proof (lookup_counted id ms n' m' Hn' Hid'). lia.
    + pose proof (lookup_counted id ms n m Hn Hid). lia.
    + pose proof (lookup_counted id ms n m Hn Hid). lia.
  - rewrite filter_cons_False in Hle by exact H0.
    destruct n as [| n]; [simpl in Hn; congruence |].
    destruct n' as [| n']; [simpl in Hn'; congruence |].
    f_equal. now apply (IH n n' m m').
Qed.

(** The invariant reads the cache, the lookups, the settled set and the
    writes only. *)
Lemma lookup_tracked_ext (id : string) (s s' : Session) :
  trailerCache s' = trailerCache s -> lookups s' = lookups s ->
  settled s' = settled s -> writes s' = writes s ->
  lookup_tracked id s -> lookup_tracked id s'.
Proof.
  intros Hc Hl Hs Hw.
  unfold lookup_tracked, no_pending, lookup_count, write_count.
  now rewrite Hc, Hl, Hs, Hw.
Qed.

Lemma initialSession_tracked (id : string) : lookup_tracked id initialSession.
Proof.
  unfold lookup_tracked, lookup_count, write_count. cbn.
  split; [intros n Hn; set_solver |]. split; [lia |].
  split; [reflexivity |]. split; [reflexivity |]. split; [lia |].
  split; [intros n m Hn; discriminate |].
  rewrite lookup_empty. intros [c Hc]. discriminate.
Qed.

(** A step keeps the invariant, provided that, if it is a hover over a
    movie with this id, no lookup for the id is pending. *)
Lemma step_tracked (id : string) (s : Session) (e : event) :
  lookup_tracked id s ->
  match e with
  | HoveredMovieChanged (Some m) => imdbID m = id -> no_pending id s
  | _ => True
  end ->
  lookup_tracked id (step s e).
Proof.
  intros (J1 & J2 & J3 & J4 & J5 & J6 & J7) Hguard.
  destruct e as [[m |] | n key]; cbn [step].
  - unfold trailerEffect.
    destruct (trailerCache s !! imdbID m) as [cachedKey |] eqn:Hm.
    { apply (lookup_tracked_ext id s); try reflexivity.
      repeat split; assumption. }
    unfold lookup_tracked, no_pending, lookup_count, write_count in *.
    cbn [trailerCache lookups settled writes].
    rewrite lookup_count_snoc, length_app. simpl length.
    destruct (decide (imdbID m = id)) as [Hid | Hid].
    + rewrite Hid in Hm. specialize (Hguard Hid).
      pose proof (J4 Hm Hguard) as H0. specialize (J3 Hm).
      split; [intros n Hn; specialize (J1 n Hn); lia |].
      split; [lia |]. split; [intros _; exact J3 |].
      split.
      { intros _ Hquiet.
        specialize (Hquiet (length (lookups s)) m
                      (list_lookup_middle _ _ _ _ eq_refl) Hid).
        specialize (J1 _ Hquiet). lia. }
      split; [lia |]. split; [intros; exact J3 |].
      intros Hsome. rewrite Hm in Hsome. destruct Hsome as [c Hc].
      discriminate.
    + split; [intros n Hn; specialize (J1 n Hn); lia |].
      split; [lia |]. split; [exact J3 |].
      split.
      { intros Hnone Hquiet. rewrite Nat.add_0_r. apply (J4 Hnone).
        intros n m' Hn Hm'. apply (Hquiet n m'); [| exact Hm'].
        apply lookup_app_Some. now left. }
      split; [lia |]. split; [| exact J7].
      intros n m' Hn Hm' Hpending.
      apply lookup_app_Some in Hn as [Hn | [_ Hn]].
      * now apply (J6 n m').
      * apply list_lookup_singleton_Some in Hn as [_ <-]. contradiction.
  - apply (lookup_tracked_ext id s); try reflexivity.
    repeat split; assumption.
  - destruct (lookups s !! n) as [m |] eqn:Hn;
      [| repeat split; assumption].
    destruct (decide (n ∈ settled s)) as [Hin | Hnin];
      [repeat split; assumption |].
    unfold lookup_tracked, no_pending, lookup_count, write_count in *.
    unfold lookupCallback. cbn [trailerCache lookups settled writes].
    rewrite write_count_snoc.
    destruct (decide (imdbID m = id)) as [Hid | Hid].
    + pose proof (J6 n m Hn Hid Hnin) as Hw0.
      pose proof (lookup_counted id (lookups s) n m Hn Hid) as Hpos.
      rewrite Hid, lookup_insert_eq.
      split.
      { intros n' [Hn' | Hn']%elem_of_union; [| now apply J1].
        apply elem_of_singleton in Hn' as ->.
        now apply lookup_lt_Some in Hn. }
      split; [exact J2 |]. split; [discriminate |]. split; [discriminate |].
      split; [lia |]. split; [| intros _; lia].
      intros n' m' Hn' Hm' Hpending.
      assert (n' = n) as ->
        by (apply (lookup_unique id (lookups s) n' n m' m); assumption).
      destruct Hpending. apply elem_of_union_l, elem_of_singleton.
      reflexivity.
    + rewrite lookup_insert_ne by exact Hid. rewrite Nat.add_0_r.
      split.
      { intros n' [Hn' | Hn']%elem_of_union; [| now apply J1].
        apply elem_of_singleton in Hn' as ->.
        now apply lookup_lt_Some in Hn. }
      split; [exact J2 |]. split; [exact J3 |].
      split.
      { intros Hnone Hquiet. apply (J4 Hnone).
        intros n' m' Hn' Hm'.
        specialize (Hquiet n' m' Hn' Hm').
        apply elem_of_union in Hquiet as [Hq | Hq]; [| exact Hq].
        apply elem_of_singleton in Hq as ->. congruence. }
      split; [exact J5 |]. split; [| exact J7].
      intros n' m' Hn' Hm' Hpending. apply (J6 n' m' Hn' Hm').
      intros Hin. apply Hpending. now apply elem_of_union_r.
Qed.

Lemma run_tracked (id : string) (es : list event) :
  forall s : Session,
    lookup_tracked id s -> no_hover_while_pending id s es ->
    lookup_tracked id (run s es).
Proof.
  induction es as [| e es IH]; intros s Hs Hguard; [exact Hs |].
  change (run s (e :: es)) with (run (step s e) es).
  destruct Hguard as [Hhere Hlater].
  apply IH; [| exact Hlater]. now apply step_tracked.
Qed.

(** Lookups are only added. *)
Lemma step_lookup_count (id : string) (s : Session) (e : event) :
  (lookup_count id s <= lookup_count id (step s e))%nat.
Proof.
  destruct e as [[m |] | n key]; cbn [step].
  - unfold trailerEffect.
    destruct (trailerCache s !! imdbID m); unfold lookup_count;
      cbn [lookups]; [lia |].
    rewrite lookup_count_snoc. lia.
  - unfold lookup_count. cbn [trailerEffect lookups]. lia.
  - destruct (lookups s !! n); [| lia].
    destruct (decide (n ∈ settled s)); [lia |].
    unfold lookup_count, lookupCallback. cbn [lookups]. lia.
Qed.

Lemma run_lookup_count (id : string) (es : list event) :
  forall s : Session, (lookup_count id s <= lookup_count id (run s es))%nat.
Proof.
  induction es as [| e es IH]; intros s; [reflexivity |].
  change (run s (e :: es)) with (run (step s e) es).
  pose proof (step_lookup_count id s e). specialize (IH (step s e)). lia.
Qed.

(** A session with at most one lookup for [id] never hovers [id] while its
    lookup is pending. *)
Lemma single_lookup_guarded (id : string) (es : list event) :
  forall s : Session,
    lookup_tracked id s ->
    (lookup_count id (run s es) <= 1)%nat ->
    no_hover_while_pending id s es.
Proof.
  induction es as [| e es IH]; intros s Hs Hone; [exact I |].
  change (run s (e :: es)) with (run (step s e) es) in Hone.
  assert (Hhere : match e with
                  | HoveredMovieChanged (Some m) =>
                      imdbID m = id -> no_pending id s
                  | _ => True
                  end).
  { destruct e as [[m |] | n key]; [| exact I | exact I].
    intros Hid n m' Hn Hm'.
    destruct Hs as (J1 & J2 & J3 & J4 & J5 & J6 & J7).
    destruct (trailerCache s !! id) as [c |] eqn:Hc.
    - destruct (decide (n ∈ settled s)) as [Hin | Hnin]; [exact Hin |].
      pose proof (J6 n m' Hn Hm' Hnin) as Hw0.
      assert (Hsome : is_Some (Some c)) by now eexists.
      specialize (J7 Hsome). lia.
    - exfalso.
      assert (Hstep : lookup_count id (step s (HoveredMovieChanged (Some m)))
                      = S (lookup_count id s)).
      { cbn [step]. unfold trailerEffect. rewrite Hid, Hc.
        unfold lookup_count. cbn [lookups]. rewrite lookup_count_snoc.
        destruct (decide (imdbID m = id)); [lia | contradiction]. }
      pose proof (run_lookup_count id es
                    (step s (HoveredMovieChanged (Some m)))) as Hmono.
      pose proof (lookup_counted id (lookups s) n m' Hn Hm') as Hpos.
      change (1 <= lookup_count id s)%nat in Hpos. lia. }
  split; [exact Hhere |].
  apply IH; [| exact Hone]. now apply step_tracked.
Qed.

(** C4 (amended): once the cache has an entry for a movie id, every later
    hover over that movie shows the cached outcome (the explicit None
    included) and starts no lookup, the entry is never removed, and no
    further lookup is issued for the id, whatever the events that follow;
    if moreover no lookup for the id was in flight when the entry was
    written, the entry is never overwritten.  A hover over a movie whose
    id has no entry starts a lookup, and the outcome with which a lookup
    settles, None included, is written as the entry of its id.  Hence the
    id is looked up at most once in a session exactly when the id is never
    hovered while a lookup for it is pending, and in such a session its
    entry is written at most once; this is so in particular when every
    lookup is settled before the next hover. *)
Theorem trailer_cache_reuse (id : string) :
  (forall (s : Session) (es : list event),
     is_Some (trailerCache s !! id) ->
     is_Some (trailerCache (run s es) !! id)
     /\ lookup_count id (run s es) = lookup_count id s)
  /\
  (forall (s : Session) (m : Movie) (cached : option string),
     imdbID m = id ->
     trailerCache s !! id = Some cached ->
     let s' := step s (HoveredMovieChanged (Some m)) in
     trailer s' = {| youtubeKey := cached; loading := false;
                     error := is_null cached |}
     /\ trailerCache s' = trailerCache s
     /\ lookups s' = lookups s
     /\ writes s' = writes s)
  /\
  (forall (s : Session) (es : list event) (cached : option string),
     trailerCache s !! id = Some cached ->
     no_pending id s ->
     trailerCache (run s es) !! id = Some cached
     /\ write_count id (run s es) = write_count id s)
  /\
  (forall hs : list (option Movie * option string),
     (lookup_count id (run_settled initialSession hs) <= 1)%nat
     /\ (write_count id (run_settled initialSession hs) <= 1)%nat)
  /\
  (forall (s : Session) (m : Movie),
     imdbID m = id ->
     trailerCache s !! id = None ->
     let s' := step s (HoveredMovieChanged (Some m)) in
     lookups s' = lookups s ++ [m]
     /\ lookup_count id s' = S (lookup_count id s)
     /\ trailer s' = {| youtubeKey := None; loading := true; error := false |}
     /\ trailerCache s' = trailerCache s
     /\ writes s' = writes s)
  /\
  (forall (s : Session) (n : nat) (m : Movie) (key : option string),
     imdbID m = id ->
     lookups s !! n = Some m ->
     n ∉ settled s ->
     let s' := step s (LookupSettled n key) in
     trailerCache s' !! id = Some key
     /\ writes s' = writes s ++ [(id, key)]
     /\ lookups s' = lookups s)
  /\
  (forall es : list event,
     (lookup_count id (run initialSession es) <= 1)%nat
     <-> no_hover_while_pending id initialSession es)
  /\
  (forall es : list event,
     no_hover_while_pending id initialSession es ->
     (write_count id (run initialSession es) <= 1)%nat).
Proof.
  split; [| split; [| split; [| split; [| split; [| split; [| split]]]]]].
  - intros s es Hentry. now apply run_keeps_entry.
  - intros s m cached Hid Hentry. cbv zeta. cbn [step].
    rewrite <- Hid in Hentry. rewrite (trailerEffect_hit s m cached Hentry).
    repeat split.
  - intros s es cached Hentry Hquiet. now apply run_quiet.
  - intros hs.
    destruct (run_settled_all_settled hs initialSession
                initialSession_all_settled) as (_ & _ & J3 & J4).
    split; [apply J3 | rewrite J4; apply J3].
  - intros s m Hid Hmiss. cbv zeta. cbn [step]. unfold trailerEffect.
    rewrite Hid, Hmiss. unfold lookup_count. cbn [lookups trailer
      trailerCache writes].
    rewrite lookup_count_snoc.
    destruct (decide (imdbID m = id)); [| contradiction].
    split; [reflexivity |]. split; [lia |]. repeat split.
  - intros s n m key Hid Hn Hpending. cbv zeta. cbn [step].
    rewrite Hn. destruct (decide (n ∈ settled s)); [contradiction |].
    unfold lookupCallback. cbn [trailerCache writes lookups].
    rewrite Hid, lookup_insert_eq. repeat split.
  - intros es. split.
    + apply single_lookup_guarded. apply initialSession_tracked.
    + intros Hguard.
      destruct (run_tracked id es initialSession
                  (initialSession_tracked id) Hguard) as (_ & J2 & _).
      exact J2.
  - intros es Hguard.
    destruct (run_tracked id es initialSession
                (initialSession_tracked id) Hguard)
      as (_ & J2 & _ & _ & J5 & _).
    lia.
Qed.

Lemma trailer_cache_reuse_witness :
  let s1 :=
    run initialSession
      [HoveredMovieChanged (Some batman_begins); LookupSettled 0 None] in
  let later :=
    [HoveredMovieChanged None; HoveredMovieChanged (Some batman_begins);
     HoveredMovieChanged (Some dark_knight);
     LookupSettled 1 (Some "EXeTwQWrcwY");
     HoveredMovieChanged (Some batman_begins)] in
  let interleaved :=
    [HoveredMovieChanged (Some batman_begins);
     HoveredMovieChanged (Some dark_knight);
     LookupSettled 1 (Some "EXeTwQWrcwY");
     LookupSettled 0 None;
     HoveredMovieChanged (Some batman_begins)] in
  (is_Some (trailerCache (run s1 later) !! "tt0372784")
   /\ lookup_count "tt0372784" (run s1 later) = lookup_count "tt0372784" s1)
  /\ trailer (step s1 (HoveredMovieChanged (Some batman_begins)))
     = {| youtubeKey := None; loading := false; error := true |}
  /\ (trailerCache (run s1 later) !! "tt0372784" = Some None
      /\ write_count "tt0372784" (run s1 later) = write_count "tt0372784" s1)
  /\ lookups (step initialSession (HoveredMovieChanged (Some batman_begins)))
     = [batman_begins]
  /\ trailerCache
       (step (step initialSession (HoveredMovieChanged (Some batman_begins)))
          (LookupSettled 0 None)) !! "tt0372784"
     = Some None
  /\ (lookup_count "tt0372784" (run initialSession interleaved) <= 1)%nat
  /\ (write_count "tt0372784" (run initialSession interleaved) <= 1)%nat.
Proof.
  cbv zeta.
  destruct (trailer_cache_reuse "tt0372784")
    as (Hkeep & Hhit & Hquiet & _ & Hmiss & Hsettle & Honce & Hwrite).
  assert (Hguard : no_hover_while_pending "tt0372784" initialSession
                     [HoveredMovieChanged (Some batman_begins);
                      HoveredMovieChanged (Some dark_knight);
                      LookupSettled 1 (Some "EXeTwQWrcwY");
                      LookupSettled 0 None;
                      HoveredMovieChanged (Some batman_begins)]).
  { cbn [no_hover_while_pending].
    split; [intros _ n m Hn; discriminate Hn |].
    split; [intros Hid; discriminate Hid |].
    split; [exact I |]. split; [exact I |]. split; [| exact I].
    intros _ n m Hn _. apply lookup_lt_Some in Hn.
    vm_compute in Hn. vm_compute.
    destruct n as [| [| n]]; [set_solver | set_solver | lia]. }
  split; [| split; [| split; [| split; [| split; [| split]]]]].
  - apply Hkeep. exists None. reflexivity.
  - apply (Hhit _ batman_begins None); reflexivity.
  - apply Hquiet; [reflexivity |].
    intros n m Hn _. destruct n as [| n]; [| destruct n; discriminate Hn].
    apply elem_of_union_l, elem_of_singleton. reflexivity.
  - destruct (Hmiss initialSession batman_begins eq_refl eq_refl)
      as (Hl & _). exact Hl.
  - assert (Hl : lookups (step initialSession
                             (HoveredMovieChanged (Some batman_begins)))
                 !! 0%nat = Some batman_begins) by (vm_compute; reflexivity).
    destruct (Hsettle
                (step initialSession (HoveredMovieChanged (Some batman_begins)))
                0%nat batman_begins None eq_refl Hl)
      as (Hc & _); [| exact Hc].
    change (0%nat ∉ (∅ : gset nat)). apply not_elem_of_empty.
  - apply Honce. exact Hguard.
  - apply Hwrite. exact Hguard.
Defined.

(** Hover, close, hover again before the first lookup has settled: the
    second hover finds no entry and starts a second lookup; the first
    lookup then writes its key, and the second, settling with no trailer,
    overwrites it. *)
Lemma lookup_at_most_once_counterexample : ~ lookup_at_most_once_spec.
Proof.
  intros H.
  destruct (H "tt0372784"
              [HoveredMovieChanged (Some batman_begins);
               HoveredMovieChanged None;
               HoveredMovieChanged (Some batman_begins);
               LookupSettled 0 (Some "EXeTwQWrcwY")]) as [Hcount Hkeep].
  specialize (Hkeep [LookupSettled 1 None] (Some "EXeTwQWrcwY") eq_refl).
  vm_compute in Hcount, Hkeep. clear Hcount. discriminate Hkeep.
Qed.

(** When both lookups settle, the second overwrites the entry of the
    first. *)
Example stale_lookup_overwrites :
  let s :=
    run initialSession
      [HoveredMovieChanged (Some batman_begins);
       HoveredMovieChanged None;
       HoveredMovieChanged (Some batman_begins);
       LookupSettled 0 (Some "EXeTwQWrcwY")] in
  trailerCache s !! "tt0372784" = Some (Some "EXeTwQWrcwY")
  /\ trailerCache (step s (LookupSettled 1 None)) !! "tt0372784" = Some None
  /\ write_count "tt0372784" (step s (LookupSettled 1 None)) = 2%nat.
Proof. cbv zeta. repeat split. Qed.

(** ** Further properties of the genre mapper and the weather description *)

(** X1: whatever the weather code and the temperature, the genre returned
    is one of the seven entries of [GENRES]. *)
Theorem getGenreForWeather_in_GENRES (code : Z) (temp : Q) :
  In (getGenreForWeather code temp) GENRES.
Proof.
  unfold getGenreForWeather, GENRES.
  destruct ((0 <=? code) && (code <=? 3)); [simpl; tauto |].
  destruct ((45 <=? code) && (code <=? 48)); [simpl; tauto |].
  destruct ((51 <=? code) && (code <=? 67)); [simpl; tauto |].
  destruct ((71 <=? code) && (code <=? 77)); [simpl; tauto |].
  destruct (Qle_bool 30 temp); [simpl; tauto |].
  destruct (Qle_bool temp 5); simpl; tauto.
Qed.

Lemma genre_with_reason (code : Z) (temp : Q) :
  In (getGenreForWeather code temp, getWeatherDescription code temp)
     genre_reasons.
Proof.
  unfold getGenreForWeather, getWeatherDescription, genre_reasons.
  destruct (Z.leb_spec 0 code), (Z.leb_spec code 3),
    (Z.leb_spec 45 code), (Z.leb_spec code 48),
    (Z.leb_spec 51 code), (Z.leb_spec code 67),
    (Z.leb_spec 71 code), (Z.leb_spec code 77);
    cbn [andb]; try lia;
    destruct (Qle_bool 30 temp), (Qle_bool temp 5); simpl; tauto.
Qed.

(** X2: the description shown as the reason of the suggestions belongs to
    the same branch as the genre: the pair (genre, description) is always a
    row of [genre_reasons], although the two functions test the code ranges
    in opposite order; hence two weather reports get the same description
    exactly when they get the same genre. *)
Theorem weather_reason_matches_genre (code1 code2 : Z) (temp1 temp2 : Q) :
  In (getGenreForWeather code1 temp1, getWeatherDescription code1 temp1)
     genre_reasons
  /\ (getGenreForWeather code1 temp1 = getGenreForWeather code2 temp2
      <-> getWeatherDescription code1 temp1
          = getWeatherDescription code2 temp2).
Proof.
  split; [apply genre_with_reason |].
  pose proof (genre_with_reason code1 temp1) as H1.
  pose proof (genre_with_reason code2 temp2) as H2.
  unfold genre_reasons in H1, H2. simpl in H1, H2.
  destruct H1 as [H1 | [H1 | [H1 | [H1 | [H1 | [H1 | [H1 | []]]]]]]];
    destruct H2 as [H2 | [H2 | [H2 | [H2 | [H2 | [H2 | [H2 | []]]]]]]];
    injection H1 as <- <-; injection H2 as <- <-;
    split; intros H; first [reflexivity | discriminate H].
Qed.

Lemma weather_reason_matches_genre_witness :
  getWeatherDescription 75 31 = getWeatherDescription 73 (-5).
Proof.
  apply (weather_reason_matches_genre 75 73 31 (-5)). reflexivity.
Defined.

(** ** Further properties of the search controller *)

Lemma trim_start_all_spaces (s : string) :
  all_spaces s = true -> trim_start s = EmptyString.
Proof.
  induction s as [| c s IH]; [reflexivity |].
  simpl. intros H. apply andb_true_iff in H as [Hc Hs].
  rewrite Hc. now apply IH.
Qed.

(** X3: a search whose query is empty after trimming (for [trim_ascii]: a
    query made of white space only) is ignored: the handler returns at
    once, issues no request and leaves every cell of the state as it was. *)
Theorem blank_search_is_ignored (trim : string -> string) (fuel : nat)
    (P : Provider) (w : World) :
  (truthy (trim (query (app w))) = false ->
   handleSearch trim fuel P w = (Return tt, w))
  /\ (all_spaces (query (app w)) = true ->
      handleSearch trim_ascii fuel P w = (Return tt, w)).
Proof.
  split.
  - intros Hblank. rewrite handleSearch_run. cbv zeta. now rewrite Hblank.
  - intros Hspaces. rewrite handleSearch_run. cbv zeta.
    unfold trim_ascii. now rewrite trim_start_all_spaces.
Qed.

Lemma blank_search_is_ignored_witness :
  let w := with_app (typeQuery "   ") (after_all trim_ascii 10
             batman_and_spider start [TypeQuery "Batman"; Submit]) in
  handleSearch trim_ascii 10 batman_and_spider w = (Return tt, w).
Proof.
  cbv zeta.
  apply (blank_search_is_ignored trim_ascii 10 batman_and_spider
           (with_app (typeQuery "   ")
              (after_all trim_ascii 10 batman_and_spider start
                 [TypeQuery "Batman"; Submit]))).
  reflexivity.
Defined.

(** X4: when the page loop of a submitted search returns, the results
    displayed are exactly the movies it fetched, whatever was displayed
    before; the searching flag is cleared; and what is rendered is the
    results grid, or the "no results" block naming the trimmed query when
    nothing was fetched. *)
Theorem search_shows_fetched_results (trim : string -> string) (fuel : nat)
    (P : Provider) (w w1 : World) (results : list Movie) :
  truthy (trim (query (app w))) = true ->
  fetchAllMoviesByGenre fuel (trim (query (app w))) P
    (with_app (searchStarted (trim (query (app w)))) w)
  = (Return results, w1) ->
  let r := handleSearch trim fuel P w in
  r.1 = Return tt
  /\ log r.2 = log w1
  /\ movies (app r.2) = results
  /\ isSearching (app r.2) = false
  /\ searchedQuery (app r.2) = trim (query (app w))
  /\ render (app r.2)
     = if is_nil results then [NoResults (trim (query (app w)))]
       else [Results results].
Proof.
  intros Hq Hfetch. cbv zeta. rewrite handleSearch_run. cbv zeta. rewrite Hq.
  change (fetchAllMoviesByGenre_loop fuel (trim (query (app w))) [] 1)
    with (fetchAllMoviesByGenre fuel (trim (query (app w)))).
  pose proof (loop_keeps_app fuel (trim (query (app w))) P [] 1
                (with_app (searchStarted (trim (query (app w)))) w)) as Happ.
  change (fetchAllMoviesByGenre_loop fuel (trim (query (app w))) [] 1)
    with (fetchAllMoviesByGenre fuel (trim (query (app w)))) in Happ.
  rewrite Hfetch in *. cbn [fst snd with_app app log] in *.
  rewrite Happ. unfold searchCompleted, searchStarted.
  do 5 (split; [reflexivity |]).
  unfold render, show_no_results, show_suggested, show_results.
  cbn. destruct results; reflexivity.
Qed.

Lemma search_shows_fetched_results_witness :
  let w := with_app (typeQuery "Batman") start in
  render (app (handleSearch trim_ascii 10 batman_and_spider w).2)
  = [Results [batman_begins; dark_knight]]
  /\ render (app (handleSearch trim_ascii 10 batman_and_spider
                    (with_app (typeQuery "xyz") start)).2)
     = [NoResults "xyz"].
Proof.
  cbv zeta. split.
  - apply (search_shows_fetched_results trim_ascii 10 batman_and_spider
             (with_app (typeQuery "Batman") start)
             (fetchAllMoviesByGenre 10 "Batman" batman_and_spider
                (with_app (searchStarted "Batman")
                   (with_app (typeQuery "Batman") start))).2
             [batman_begins; dark_knight]); reflexivity.
  - apply (search_shows_fetched_results trim_ascii 10 batman_and_spider
             (with_app (typeQuery "xyz") start)
             (fetchAllMoviesByGenre 10 "xyz" batman_and_spider
                (with_app (searchStarted "xyz")
                   (with_app (typeQuery "xyz") start))).2
             []); reflexivity.
Defined.

Lemma loop_result_length (n : nat) (genre : string) (P : Provider) :
  (forall i s p ms, omdb_search P i s p = Json (Some ms) ->
                    (length ms <= n)%nat) ->
  forall (fuel : nat) (acc : list Movie) (page : Z) (w w' : World)
         (ms : list Movie),
    fetchAllMoviesByGenre_loop fuel genre acc page P w = (Return ms, w') ->
    (length ms
     <= length acc + Nat.max 1 (Z.to_nat (11 - page)) * n)%nat.
Proof.
  intros Hsize. induction fuel as [| fuel IH];
    intros acc page w w' ms Hrun; [discriminate Hrun |].
  rewrite loop_unfold in Hrun.
  destruct (omdb_search P (length (log w)) genre page)
    as [e | [search |]] eqn:Hreply.
  - discriminate Hrun.
  - specialize (Hsize _ _ _ _ Hreply).
    destruct (Z.ltb_spec 10 (page + 1)) as [Hcap | Hmore].
    + injection Hrun as <- _. rewrite length_app. nia.
    + apply IH in Hrun. rewrite length_app in Hrun.
      replace (Nat.max 1 (Z.to_nat (11 - page)))
        with (S (Nat.max 1 (Z.to_nat (11 - (page + 1))))) by lia.
      nia.
  - injection Hrun as <- _. lia.
Qed.

(** X5: if no page of the provider holds more than [n] movies, the
    paginated fetcher returns at most 10 * n of them (100 for OMDB's pages
    of ten). *)
Theorem fetchAllMoviesByGenre_at_most_ten_pages (n fuel : nat)
    (genre : string) (P : Provider) (w w' : World) (ms : list Movie) :
  (forall i s p page, omdb_search P i s p = Json (Some page) ->
                      (length page <= n)%nat) ->
  fetchAllMoviesByGenre fuel genre P w = (Return ms, w') ->
  (length ms <= 10 * n)%nat.
Proof.
  intros Hsize Hrun.
  apply (loop_result_length n genre P Hsize) in Hrun. simpl in Hrun. lia.
Qed.

Lemma fetchAllMoviesByGenre_at_most_ten_pages_witness :
  exists ms w',
    fetchAllMoviesByGenre 10 "Batman"
      (eleven_pages [batman_begins; dark_knight]) start = (Return ms, w')
    /\ (length ms <= 10 * 2)%nat.
Proof.
  exists (match (fetchAllMoviesByGenre 10 "Batman"
                   (eleven_pages [batman_begins; dark_knight]) start).1 with
          | Return ms => ms
          | _ => []
          end),
         (fetchAllMoviesByGenre 10 "Batman"
            (eleven_pages [batman_begins; dark_knight]) start).2.
  split; [reflexivity |].
  apply (fetchAllMoviesByGenre_at_most_ten_pages 2 10 "Batman"
           (eleven_pages [batman_begins; dark_knight]) start
           (fetchAllMoviesByGenre 10 "Batman"
              (eleven_pages [batman_begins; dark_knight]) start).2).
  - intros i s p page. unfold eleven_pages. cbn [omdb_search].
    destruct (p <=? 11); [intros [= <-]; simpl; lia | discriminate].
  - reflexivity.
Defined.

Lemma fetch_requests_shape (fuel : nat)
    (genre : string) (P : Provider) (w : World) :
  (10 <= fuel)%nat ->
  exists k : nat,
    (1 <= k <= 10)%nat
    /\ (fetchAllMoviesByGenre fuel genre P w).2
       = issue (page_requests genre k) w.
Proof.
  intros Hfuel.
  destruct (pages_prefix_exists P w genre) as (pages & Hpages & Hend).
  pose proof (pages_have_results_from P w genre pages Hpages) as Hfrom.
  unfold fetchAllMoviesByGenre, page_requests.
  destruct Hend as [Hlen | [Hlen Hstop]].
  - exists 10%nat. split; [lia |].
    rewrite (loop_stops_at_ceiling genre P pages fuel [] 1 w);
      [now rewrite Hlen | lia | lia | exact Hfrom].
  - exists (S (length pages)). split; [lia |].
    rewrite (loop_stops_without_results genre P pages fuel [] 1 w
               (page_reply P w genre (Z.of_nat (length pages) + 1)));
      [reflexivity | lia | lia | exact Hfrom | | exact Hstop].
    unfold page_reply.
    replace (Z.to_nat (Z.of_nat (length pages) + 1 - 1)) with (length pages)
      by lia.
    now replace (Z.of_nat (length pages) + 1)
      with (1 + Z.of_nat (length pages)) by lia.
Qed.

(** X6: for every provider, the requests of one run of the fetcher are the
    requests for pages 1, 2, ..., k of the given term, in this order, for
    some k between 1 and 10: no page is skipped or asked twice, and no other
    endpoint is called. *)
Theorem fetchAllMoviesByGenre_consecutive_pages (fuel : nat)
    (genre : string) (P : Provider) (w : World) :
  (10 <= fuel)%nat ->
  exists k : nat,
    (1 <= k <= 10)%nat
    /\ (fetchAllMoviesByGenre fuel genre P w).2
       = issue (page_requests genre k) w.
Proof. apply fetch_requests_shape. Qed.

Lemma fetchAllMoviesByGenre_consecutive_pages_witness :
  exists k : nat,
    (1 <= k <= 10)%nat
    /\ (fetchAllMoviesByGenre 10 "Batman" batman_and_spider start).2
       = issue (page_requests "Batman" k) start.
Proof.
  apply (fetchAllMoviesByGenre_consecutive_pages 10 "Batman"
           batman_and_spider start). lia.
Defined.

(** X7: "back" undoes a submitted search.  From a state the handlers can
    produce in which a search is displayed, typing any non-blank text,
    submitting it and, once the handler has ended (by return or by throw),
    going back restores the displayed query, the results and the history
    stack of before; the search field then shows the restored query. *)
Theorem back_undoes_search (trim : string -> string) (fuel : nat)
    (P : Provider) (w : World) (text : string) :
  well_formed (app w) ->
  hasSearched (app w) = true ->
  truthy (trim text) = true ->
  let w' := after_all trim fuel P w [TypeQuery text; Submit; Back] in
  searchedQuery (app w') = searchedQuery (app w)
  /\ movies (app w') = movies (app w)
  /\ searchHistory (app w') = searchHistory (app w)
  /\ query (app w') = searchedQuery (app w)
  /\ hasSearched (app w') = true
  /\ suggested (app w') = suggested (app w).
Proof.
  intros [Hsq _] Hhas Htext. cbv zeta.
  change (after_all trim fuel P w [TypeQuery text; Submit; Back])
    with (with_app handleBack
            (after trim fuel P (with_app (typeQuery text) w) Submit)).
  destruct (after_submit trim fuel P (with_app (typeQuery text) w) Htext)
    as (_ & _ & Hhas' & _ & Hsugg & _ & Hhist).
  cbn [with_app app typeQuery setQuery hasSearched searchedQuery
         searchHistory suggested] in Hhist, Hsugg.
  rewrite Hhas, (Hsq Hhas) in Hhist. cbn [andb] in Hhist.
  cbn [with_app app]. rewrite (handleBack_pop _ _ _ Hhist).
  cbn. repeat split; assumption.
Qed.

Lemma back_undoes_search_witness :
  let w :=
    after_all trim_ascii 10 batman_and_spider start
      [TypeQuery "Batman"; Submit] in
  let w' :=
    after_all trim_ascii 10 batman_and_spider w
      [TypeQuery "Spider"; Submit; Back] in
  searchedQuery (app w') = "Batman"
  /\ movies (app w') = [batman_begins; dark_knight]
  /\ searchHistory (app w') = []
  /\ query (app w') = "Batman"
  /\ hasSearched (app w') = true
  /\ suggested (app w') = [].
Proof.
  cbv zeta.
  apply (back_undoes_search trim_ascii 10 batman_and_spider
           (after_all trim_ascii 10 batman_and_spider start
              [TypeQuery "Batman"; Submit]) "Spider").
  - split; [reflexivity | constructor].
  - reflexivity.
  - reflexivity.
Defined.

(** X8: in every state reached from the first render by loading
    suggestions and then typing, submitting, selecting genres and going
    back, in any order and whatever the provider answers, a displayed
    search has a non-empty query and so has every entry of the history. *)
Theorem handlers_keep_well_formed (trim : string -> string) (fuel : nat)
    (P : Provider) (reason : string) (loaded : list Movie)
    (actions : list action) :
  let s :=
    app (after_all trim fuel P
           (with_app (suggestionsLoaded reason loaded) start) actions) in
  (hasSearched s = true -> searchedQuery s <> EmptyString)
  /\ (forall entry, In entry (searchHistory s) ->
        SearchHistoryEntry.query entry <> EmptyString).
Proof.
  cbv zeta.
  destruct (after_all_well_formed trim fuel P actions
              (with_app (suggestionsLoaded reason loaded) start))
    as [Hq Hh].
  { split; [discriminate | constructor]. }
  split.
  - intros Hhas Hempty. specialize (Hq Hhas). rewrite Hempty in Hq.
    discriminate Hq.
  - intros entry Hin Hempty. rewrite Forall_forall in Hh.
    specialize (Hh entry). rewrite list_elem_of_In in Hh.
    specialize (Hh Hin). rewrite Hempty in Hh. discriminate Hh.
Qed.

Lemma handlers_keep_well_formed_witness :
  let s :=
    app (after_all trim_ascii 10 batman_and_spider
           (with_app (suggestionsLoaded "the weather is mild" [spider_man])
              start)
           [TypeQuery "Batman"; Submit; TypeQuery "Spider"; Submit]) in
  searchedQuery s <> EmptyString.
Proof.
  cbv zeta.
  apply (handlers_keep_well_formed trim_ascii 10 batman_and_spider
           "the weather is mild" [spider_man]
           [TypeQuery "Batman"; Submit; TypeQuery "Spider"; Submit]).
  reflexivity.
Defined.

(** X9: a failing page request during a genre selection is not caught: if
    pages 1 to k (k < 10) have results and the request for page k+1 is
    rejected, [handleGenreSelect] throws that rejection; the pages fetched
    are dropped, the searching flag stays set, and nothing is rendered
    below the search bar although the genre is shown as selected. *)
Theorem genre_select_failure_stays_searching (fuel : nat) (genre : string)
    (P : Provider) (w : World) (pages : list (list Movie)) (e : exn) :
  (10 <= fuel)%nat ->
  truthy genre = true ->
  (length pages < 10)%nat ->
  pages_have_results P w genre pages ->
  page_reply P w genre (Z.of_nat (length pages) + 1) = Rejected e ->
  let r := handleGenreSelect fuel genre P w in
  r.1 = Throw e
  /\ isSearching (app r.2) = true
  /\ movies (app r.2) = []
  /\ selectedGenre (app r.2) = genre
  /\ searchedQuery (app r.2) = genre
  /\ render (app r.2) = [].
Proof.
  intros Hfuel Hg Hlen Hpages Hfail. cbv zeta.
  rewrite handleGenreSelect_run, Hg. unfold fetchAllMoviesByGenre.
  match goal with
  | |- context [fetchAllMoviesByGenre_loop fuel genre [] 1 P ?w1] =>
      rewrite (loop_stops_without_results genre P pages fuel [] 1 w1
                 (Rejected e));
        [| lia | lia | | | discriminate]
  end.
  - cbn. repeat split.
  - apply (pages_have_results_from P w genre pages Hpages).
  - unfold page_reply in Hfail. cbn [with_app log].
    replace (Z.to_nat (Z.of_nat (length pages) + 1 - 1)) with (length pages)
      in Hfail by lia.
    now replace (1 + Z.of_nat (length pages))
      with (Z.of_nat (length pages) + 1) by lia.
Qed.

Lemma genre_select_failure_stays_searching_witness :
  let r := handleGenreSelect 10 "drama" offline start in
  r.1 = Throw NetworkError
  /\ isSearching (app r.2) = true
  /\ movies (app r.2) = []
  /\ selectedGenre (app r.2) = "drama"
  /\ searchedQuery (app r.2) = "drama"
  /\ render (app r.2) = [].
Proof.
  cbv zeta.
  apply (genre_select_failure_stays_searching 10 "drama" offline start []
           NetworkError);
    [lia | reflexivity | simpl; lia | intros i ms; discriminate | reflexivity].
Defined.

(** X10: a failing page request during a submitted search drops what the
    earlier pages returned: if pages 1 to k (k < 10) have results and the
    request for page k+1 is rejected, [handleSearch] throws that rejection
    and leaves no results, the searching flag set and the new query
    recorded as searched; the requests issued are those for pages 1 to
    k+1. *)
Theorem search_failure_drops_pages (trim : string -> string) (fuel : nat)
    (P : Provider) (w : World) (pages : list (list Movie)) (e : exn) :
  (10 <= fuel)%nat ->
  truthy (trim (query (app w))) = true ->
  (length pages < 10)%nat ->
  pages_have_results P w (trim (query (app w))) pages ->
  page_reply P w (trim (query (app w))) (Z.of_nat (length pages) + 1)
  = Rejected e ->
  let r := handleSearch trim fuel P w in
  r.1 = Throw e
  /\ movies (app r.2) = []
  /\ isSearching (app r.2) = true
  /\ searchedQuery (app r.2) = trim (query (app w))
  /\ render (app r.2) = []
  /\ log r.2
     = log w ++ page_requests (trim (query (app w))) (S (length pages)).
Proof.
  intros Hfuel Hq Hlen Hpages Hfail. cbv zeta.
  rewrite handleSearch_run. cbv zeta. rewrite Hq.
  set (q := trim (query (app w))) in *.
  rewrite (loop_stops_without_results q P pages fuel [] 1
             (with_app (searchStarted q) w) (Rejected e));
    [| lia | lia | | | discriminate].
  - unfold searchStarted.
    destruct (hasSearched (app w) && truthy (searchedQuery (app w)));
      cbn; repeat split.
  - apply (pages_have_results_from P w q pages Hpages).
  - unfold page_reply in Hfail. cbn [with_app log].
    replace (Z.to_nat (Z.of_nat (length pages) + 1 - 1)) with (length pages)
      in Hfail by lia.
    now replace (1 + Z.of_nat (length pages))
      with (Z.of_nat (length pages) + 1) by lia.
Qed.

Lemma search_failure_drops_pages_witness :
  let fails_on_page_2 :=
    {| omdb_search := fun _ _ page =>
         if page =? 1 then Json (Some [batman_begins])
         else Rejected NetworkError;
       tmdb_search_movie := no_tmdb_search;
       tmdb_movie_videos := no_tmdb_videos |} in
  let r :=
    handleSearch trim_ascii 10 fails_on_page_2
      (with_app (typeQuery "Batman") start) in
  r.1 = Throw NetworkError
  /\ movies (app r.2) = []
  /\ isSearching (app r.2) = true
  /\ searchedQuery (app r.2) = "Batman"
  /\ render (app r.2) = []
  /\ log r.2 = [OmdbSearch "Batman" 1; OmdbSearch "Batman" 2].
Proof.
  cbv zeta.
  apply (search_failure_drops_pages trim_ascii 10
           {| omdb_search := fun _ _ page =>
                if page =? 1 then Json (Some [batman_begins])
                else Rejected NetworkError;
              tmdb_search_movie := no_tmdb_search;
              tmdb_movie_videos := no_tmdb_videos |}
           (with_app (typeQuery "Batman") start) [[batman_begins]]
           NetworkError);
    [lia | reflexivity | simpl; lia | | reflexivity].
  intros i ms. destruct i as [| i]; simpl; [intros [= <-]; reflexivity |].
  destruct i; discriminate.
Defined.

(** ** Further properties of the trailer resolver *)

(** X11: a key returned by the resolver is never empty and is the key of an
    entry hosted on YouTube in the video listing of the first match of the
    title search, made with a configured API key. *)
Theorem fetchTrailerFromTMDB_key_is_youtube (TMDB_API_KEY : option string)
    (title year : string) (P : Provider) (w : World) (k : string) :
  (fetchTrailerFromTMDB TMDB_API_KEY title year P w).1 = Return (Some k) ->
  k <> EmptyString
  /\ exists api_key first others videos v,
       TMDB_API_KEY = Some api_key
       /\ truthy api_key = true
       /\ tmdb_search_movie P (length (log w)) api_key title year
          = Json (Some (first :: others))
       /\ tmdb_movie_videos P (S (length (log w))) api_key
            (TmdbMovie.id first) = Json (Some videos)
       /\ In v videos
       /\ Video.site v = "YouTube"
       /\ Video.key v = k.
Proof.
  intros Hk. destruct TMDB_API_KEY as [api_key |]; [| discriminate Hk].
  destruct (truthy api_key) eqn:Hkey.
  2: { unfold fetchTrailerFromTMDB in Hk. rewrite Hkey in Hk.
       discriminate Hk. }
  rewrite (fetchTrailerFromTMDB_run api_key title year P w Hkey) in Hk.
  cbv zeta in Hk.
  assert (Hlen : length (log (with_request
                    (TmdbSearchMovie api_key title year) w))
                 = S (length (log w))).
  { cbn [with_request log]. rewrite length_app. simpl. lia. }
  rewrite Hlen in Hk.
  destruct (tmdb_search_movie P (length (log w)) api_key title year)
    as [e | [[| first others] |]] eqn:Hsearch; try discriminate Hk.
  destruct (tmdb_movie_videos P (S (length (log w))) api_key
              (TmdbMovie.id first)) as [e | [[| v0 videos] |]] eqn:Hvideos;
    try discriminate Hk.
  cbn [fst] in Hk. injection Hk as Hk.
  pose proof (find_trailer_selected (v0 :: videos)) as Hsel.
  destruct (find_trailer (v0 :: videos)) as [v |]; [| discriminate Hk].
  cbn [key_or_null] in Hk.
  destruct (truthy (Video.key v)) eqn:Hv; [| discriminate Hk].
  injection Hk as <-.
  split; [intros Hempty; rewrite Hempty in Hv; discriminate Hv |].
  exists api_key, first, others, (v0 :: videos), v.
  split; [reflexivity |]. split; [exact Hkey |].
  split; [exact Hsearch |]. split; [exact Hvideos |].
  assert (Hfirst : forall p, first_with p (v0 :: videos) v ->
                     In v (v0 :: videos) /\ p v = true).
  { intros p (before & rest & Heq & Hp & _). split; [| exact Hp].
    rewrite Heq. apply in_or_app. right. now left. }
  inversion Hsel as [v' Hf | v' _ Hf | v' _ _ Hf |]; subst;
    destruct (Hfirst _ Hf) as [Hin Hp]; (split; [exact Hin |]);
    (split; [| reflexivity]).
  - unfold is_youtube in Hp. apply andb_true_iff in Hp as [_ Hp].
    now apply String.eqb_eq.
  - unfold is_youtube in Hp. apply andb_true_iff in Hp as [_ Hp].
    now apply String.eqb_eq.
  - unfold on_youtube in Hp. now apply String.eqb_eq.
Qed.

Lemma fetchTrailerFromTMDB_key_is_youtube_witness :
  "abc" <> EmptyString
  /\ exists api_key first others videos v,
       Some "k" = Some api_key
       /\ truthy api_key = true
       /\ tmdb_search_movie
            (tmdb_with [video "Trailer" "Vimeo" "x";
                        video "Clip" "YouTube" "abc"])
            (length (log start)) api_key "Batman Begins" "2005"
          = Json (Some (first :: others))
       /\ tmdb_movie_videos
            (tmdb_with [video "Trailer" "Vimeo" "x";
                        video "Clip" "YouTube" "abc"])
            (S (length (log start))) api_key (TmdbMovie.id first)
          = Json (Some videos)
       /\ In v videos
       /\ Video.site v = "YouTube"
       /\ Video.key v = "abc".
Proof.
  apply (fetchTrailerFromTMDB_key_is_youtube (Some "k") "Batman Begins"
           "2005"
           (tmdb_with [video "Trailer" "Vimeo" "x";
                       video "Clip" "YouTube" "abc"]) start "abc").
  reflexivity.
Defined.

(** X12: one call of the resolver issues no request without a configured
    API key, and otherwise the title search followed, only when that search
    answered with a first match, by the video listing of that match: never
    more than two requests, and none to OMDB. *)
Theorem fetchTrailerFromTMDB_requests (TMDB_API_KEY : option string)
    (title year : string) (P : Provider) (w : World) :
  let r := fetchTrailerFromTMDB TMDB_API_KEY title year P w in
  (configured TMDB_API_KEY = false -> log r.2 = log w)
  /\ (forall api_key,
        TMDB_API_KEY = Some api_key -> truthy api_key = true ->
        match tmdb_search_movie P (length (log w)) api_key title year with
        | Json (Some (first :: _)) =>
            log r.2
            = log w ++ [TmdbSearchMovie api_key title year;
                        TmdbMovieVideos api_key (TmdbMovie.id first)]
        | _ => log r.2 = log w ++ [TmdbSearchMovie api_key title year]
        end).
Proof.
  cbv zeta. split.
  - intros Hno. destruct TMDB_API_KEY as [api_key |]; [| reflexivity].
    cbn [configured] in Hno. unfold fetchTrailerFromTMDB.
    now rewrite Hno.
  - intros api_key -> Hkey.
    rewrite (fetchTrailerFromTMDB_run api_key title year P w Hkey).
    cbv zeta.
    destruct (tmdb_search_movie P (length (log w)) api_key title year)
      as [e | [[| first others] |]]; try reflexivity.
    destruct (tmdb_movie_videos P _ api_key (TmdbMovie.id first))
      as [e | [[| v videos] |]];
      cbn [snd with_request log]; now rewrite <- app_assoc.
Qed.

Lemma fetchTrailerFromTMDB_requests_witness :
  log (fetchTrailerFromTMDB None "Batman Begins" "2005"
         (tmdb_with [video "Trailer" "YouTube" "abc"]) start).2
  = log start.
Proof.
  apply (fetchTrailerFromTMDB_requests None "Batman Begins" "2005"
           (tmdb_with [video "Trailer" "YouTube" "abc"]) start).
  reflexivity.
Defined.

(** ** Preview controller: proofs *)

Lemma lookup_without (ref : option positive)
    (pending : gmap positive (Z * callback)) (id : positive)
    (x : Z * callback) :
  without ref pending !! id = Some x ->
  pending !! id = Some x /\ ref <> Some id.
Proof.
  destruct ref as [r |]; cbn [without]; intros H.
  - apply lookup_delete_Some in H as [Hne H]. split; [exact H | congruence].
  - split; [exact H | discriminate].
Qed.

(** What each handler does to the timers and the refs. *)
Lemma handleMouseEnter_timers (movie : Movie) (has_card : bool)
    (s : Preview.t) :
  let s' := handleMouseEnter movie has_card s in
  Preview.timers s'
  = <[Preview.nextTimer s := (700, ShowPreview movie has_card)]>
      (without (Preview.closeTimeoutRef s)
         (without (Preview.hoverTimeoutRef s) (Preview.timers s)))
  /\ Preview.hoverTimeoutRef s' = Some (Preview.nextTimer s)
  /\ Preview.closeTimeoutRef s' = None
  /\ Preview.nextTimer s' = Pos.succ (Preview.nextTimer s)
  /\ Preview.hoveredMovie s' = Preview.hoveredMovie s
  /\ Preview.previewMode s' = Preview.previewMode s.
Proof.
  unfold handleMouseEnter.
  destruct (Preview.hoverTimeoutRef s), (Preview.closeTimeoutRef s) eqn:Hc;
    cbn; rewrite ?Hc; cbn; repeat split; auto.
Qed.

Lemma handleMouseLeave_timers (s : Preview.t) :
  let s' := handleMouseLeave s in
  let stays :=
    is_modal (Preview.previewMode s) && is_some (Preview.hoveredMovie s) in
  Preview.timers s'
  = (if stays then without (Preview.hoverTimeoutRef s) (Preview.timers s)
     else <[Preview.nextTimer s := (300, ClosePreview)]>
            (without (Preview.hoverTimeoutRef s) (Preview.timers s)))
  /\ Preview.hoverTimeoutRef s' = None
  /\ Preview.closeTimeoutRef s'
     = (if stays then Preview.closeTimeoutRef s
        else Some (Preview.nextTimer s))
  /\ Preview.nextTimer s'
     = (if stays then Preview.nextTimer s else Pos.succ (Preview.nextTimer s))
  /\ Preview.hoveredMovie s' = Preview.hoveredMovie s
  /\ Preview.previewMode s' = Preview.previewMode s.
Proof.
  unfold handleMouseLeave.
  destruct (Preview.hoverTimeoutRef s) eqn:Hh; cbn;
    destruct (is_modal (Preview.previewMode s)
              && is_some (Preview.hoveredMovie s));
    cbn; rewrite ?Hh; repeat split; auto.
Qed.

Lemma handlePreviewEnter_timers (s : Preview.t) :
  let s' := handlePreviewEnter s in
  Preview.timers s'
  = without (Preview.closeTimeoutRef s)
      (without (Preview.hoverTimeoutRef s) (Preview.timers s))
  /\ Preview.hoverTimeoutRef s' = Preview.hoverTimeoutRef s
  /\ Preview.closeTimeoutRef s' = None
  /\ Preview.nextTimer s' = Preview.nextTimer s
  /\ Preview.hoveredMovie s' = Preview.hoveredMovie s
  /\ Preview.previewMode s' = Preview.previewMode s.
Proof.
  unfold handlePreviewEnter.
  destruct (Preview.hoverTimeoutRef s) eqn:Hh,
    (Preview.closeTimeoutRef s) eqn:Hc;
    cbn; rewrite ?Hc, ?Hh; cbn; repeat split; auto.
Qed.

Lemma handleInstantClose_timers (s : Preview.t) :
  let s' := handleInstantClose s in
  Preview.timers s'
  = without (Preview.closeTimeoutRef s)
      (without (Preview.hoverTimeoutRef s) (Preview.timers s))
  /\ Preview.hoverTimeoutRef s' = Preview.hoverTimeoutRef s
  /\ Preview.closeTimeoutRef s' = Preview.closeTimeoutRef s
  /\ Preview.nextTimer s' = Preview.nextTimer s
  /\ Preview.hoveredMovie s' = None
  /\ Preview.previewMode s' = Preview.previewMode s.
Proof.
  unfold handleInstantClose.
  destruct (Preview.hoverTimeoutRef s) eqn:Hh,
    (Preview.closeTimeoutRef s) eqn:Hc;
    cbn; rewrite ?Hc, ?Hh; cbn; repeat split; auto.
Qed.

Lemma preview_step_tracked (s : Preview.t) (i : input) :
  timers_tracked s -> timers_tracked (preview_step s i).
Proof.
  intros (T1 & T2 & T3 & T4).
  assert (Hnone : forall id delay movie has_card,
            without (Preview.hoverTimeoutRef s) (Preview.timers s) !! id
            <> Some (delay, ShowPreview movie has_card)).
  { intros id delay movie has_card H. apply lookup_without in H as [H Hne].
    apply Hne, T1. now exists delay, movie, has_card. }
  assert (Hlt : forall ref1 ref2 id,
            is_Some (without ref1 (without ref2 (Preview.timers s)) !! id) ->
            (id < Preview.nextTimer s)%positive).
  { intros ref1 ref2 id [x Hx]. apply lookup_without in Hx as [Hx _].
    apply lookup_without in Hx as [Hx _]. apply T2. now exists x. }
  destruct i as [movie has_card | | | | key | mode | id rect window];
    cbn [preview_step].
  - destruct (handleMouseEnter_timers movie has_card s)
      as (Ht & Hh & Hc & Hn & _). cbv zeta in *.
    unfold timers_tracked, show_pending. rewrite Ht, Hh, Hc, Hn.
    split; [| split; [| split]].
    + intros id (delay & m & hc & H).
      apply lookup_insert_Some in H as [[<- _] | [Hne H]]; [reflexivity |].
      apply lookup_without in H as [H _]. now destruct (Hnone _ _ _ _ H).
    + intros id [x Hx].
      apply lookup_insert_Some in Hx as [[<- _] | [Hne Hx]]; [lia |].
      assert (id < Preview.nextTimer s)%positive; [| lia].
      eapply Hlt. eexists. exact Hx.
    + intros id [= <-]. lia.
    + intros id [=].
  - destruct (handleMouseLeave_timers s) as (Ht & Hh & Hc & Hn & _).
    cbv zeta in *.
    unfold timers_tracked, show_pending. rewrite Ht, Hh, Hc, Hn.
    destruct (is_modal (Preview.previewMode s)
              && is_some (Preview.hoveredMovie s)).
    + split; [| split; [| split]].
      * intros id (delay & m & hc & H). now destruct (Hnone _ _ _ _ H).
      * intros id Hid. apply (Hlt None (Preview.hoverTimeoutRef s)). exact Hid.
      * intros id [=].
      * exact T4.
    + split; [| split; [| split]].
      * intros id (delay & m & hc & H).
        apply lookup_insert_Some in H as [[_ [=]] | [Hne H]].
        now destruct (Hnone _ _ _ _ H).
      * intros id [x Hx].
        apply lookup_insert_Some in Hx as [[<- _] | [Hne Hx]]; [lia |].
        assert (id < Preview.nextTimer s)%positive; [| lia].
        apply (Hlt None (Preview.hoverTimeoutRef s)). now exists x.
      * intros id [=].
      * intros id [= <-]. lia.
  - destruct (handlePreviewEnter_timers s) as (Ht & Hh & Hc & Hn & _).
    cbv zeta in *.
    unfold timers_tracked, show_pending. rewrite Ht, Hh, Hc, Hn.
    split; [| split; [| split]].
    + intros id (delay & m & hc & H).
      apply lookup_without in H as [H _]. now destruct (Hnone _ _ _ _ H).
    + intros id Hid. eapply Hlt. exact Hid.
    + exact T3.
    + intros id [=].
  - destruct (handleInstantClose_timers s) as (Ht & Hh & Hc & Hn & _).
    cbv zeta in *.
    unfold timers_tracked, show_pending. rewrite Ht, Hh, Hc, Hn.
    split; [| split; [| split]].
    + intros id (delay & m & hc & H).
      apply lookup_without in H as [H _]. now destruct (Hnone _ _ _ _ H).
    + intros id Hid. eapply Hlt. exact Hid.
    + exact T3.
    + exact T4.
  - unfold handleKeyDown.
    destruct (String.eqb key "Escape" && is_some (Preview.hoveredMovie s));
      [| repeat split; assumption].
    destruct (handleInstantClose_timers s) as (Ht & Hh & Hc & Hn & _).
    cbv zeta in *.
    unfold timers_tracked, show_pending. rewrite Ht, Hh, Hc, Hn.
    split; [| split; [| split]].
    + intros id (delay & m & hc & H).
      apply lookup_without in H as [H _]. now destruct (Hnone _ _ _ _ H).
    + intros id Hid. eapply Hlt. exact Hid.
    + exact T3.
    + exact T4.
  - repeat split; assumption.
  - destruct (Preview.timers s !! id) as [[delay cb] |] eqn:Hid;
      [| repeat split; assumption].
    assert (Hsame : timers_tracked (clearTimeout id s)).
    { split; [| split; [| split]]; cbn.
      - intros id' (d & m & hc & H). cbn in H.
        apply lookup_delete_Some in H as [_ H]. apply T1.
        now exists d, m, hc.
      - intros id' [x Hx]. apply lookup_delete_Some in Hx as [_ Hx].
        apply T2. now exists x.
      - exact T3.
      - exact T4. }
    destruct cb as [movie has_card |]; exact Hsame.
Qed.

Lemma initialPreview_tracked : timers_tracked initialPreview.
Proof.
  split; [| split; [| split]]; cbn.
  - intros id (d & m & hc & H). cbn in H. now rewrite lookup_empty in H.
  - intros id [x Hx]. now rewrite lookup_empty in Hx.
  - intros id [=].
  - intros id [=].
Qed.

Lemma preview_run_tracked (inputs : list input) :
  forall s : Preview.t,
    timers_tracked s -> timers_tracked (preview_run s inputs).
Proof.
  induction inputs as [| i inputs IH]; intros s Hs; [exact Hs |].
  change (preview_run s (i :: inputs))
    with (preview_run (preview_step s i) inputs).
  apply IH. now apply preview_step_tracked.
Qed.

Lemma preview_run_app (s : Preview.t) (before later : list input) :
  preview_run s (before ++ later) = preview_run (preview_run s before) later.
Proof. unfold preview_run. apply foldl_app. Qed.

(** X13: at any time at most one show timer is pending, and it is the one
    [hoverTimeoutRef] holds: entering a card cancels the timer of the card
    entered before. *)
Theorem at_most_one_show_timer (inputs : list input) (id : positive) :
  let s := preview_run initialPreview inputs in
  show_pending s id ->
  Preview.hoverTimeoutRef s = Some id
  /\ forall id', show_pending s id' -> id' = id.
Proof.
  cbv zeta. intros Hp.
  destruct (preview_run_tracked inputs initialPreview initialPreview_tracked)
    as (T1 & _).
  split; [now apply T1 |].
  intros id' Hp'. apply T1 in Hp, Hp'. congruence.
Qed.

Lemma at_most_one_show_timer_witness :
  let s :=
    preview_run initialPreview
      [MouseEnter batman_begins true; MouseEnter dark_knight true] in
  Preview.hoverTimeoutRef s = Some 2%positive
  /\ forall id', show_pending s id' -> id' = 2%positive.
Proof.
  cbv zeta.
  apply (at_most_one_show_timer
           [MouseEnter batman_begins true; MouseEnter dark_knight true]
           2%positive).
  exists 700, dark_knight, true. reflexivity.
Defined.

Lemma step_without_mouse_enter (s : Preview.t) (i : input) :
  no_show_pending s ->
  is_mouse_enter i = false ->
  no_show_pending (preview_step s i)
  /\ (Preview.hoveredMovie (preview_step s i) = Preview.hoveredMovie s
      \/ Preview.hoveredMovie (preview_step s i) = None).
Proof.
  intros Hquiet Hi.
  assert (Hsub : forall ref1 ref2 id d m hc,
            without ref1 (without ref2 (Preview.timers s)) !! id
            <> Some (d, ShowPreview m hc)).
  { intros ref1 ref2 id d m hc H. apply lookup_without in H as [H _].
    apply lookup_without in H as [H _]. apply (Hquiet id).
    now exists d, m, hc. }
  destruct i as [movie has_card | | | | key | mode | id rect window];
    [discriminate Hi | | | | | |]; cbn [preview_step].
  - destruct (handleMouseLeave_timers s) as (Ht & _ & _ & _ & Hh & _).
    cbv zeta in *. split; [| now left].
    intros id (d & m & hc & H). rewrite Ht in H.
    destruct (is_modal (Preview.previewMode s)
              && is_some (Preview.hoveredMovie s)).
    + now apply (Hsub None (Preview.hoverTimeoutRef s) id d m hc).
    + apply lookup_insert_Some in H as [[_ [=]] | [_ H]].
      now apply (Hsub None (Preview.hoverTimeoutRef s) id d m hc).
  - destruct (handlePreviewEnter_timers s) as (Ht & _ & _ & _ & Hh & _).
    cbv zeta in *. split; [| now left].
    intros id (d & m & hc & H). rewrite Ht in H. now apply Hsub in H.
  - destruct (handleInstantClose_timers s) as (Ht & _ & _ & _ & Hh & _).
    cbv zeta in *. split; [| now right].
    intros id (d & m & hc & H). rewrite Ht in H. now apply Hsub in H.
  - unfold handleKeyDown.
    destruct (String.eqb key "Escape" && is_some (Preview.hoveredMovie s));
      [| split; [exact Hquiet | now left]].
    destruct (handleInstantClose_timers s) as (Ht & _ & _ & _ & Hh & _).
    cbv zeta in *. split; [| now right].
    intros id (d & m & hc & H). rewrite Ht in H. now apply Hsub in H.
  - split; [exact Hquiet | now left].
  - destruct (Preview.timers s !! id) as [[delay cb] |] eqn:Hid;
      [| split; [exact Hquiet | now left]].
    destruct cb as [movie has_card |].
    + exfalso. apply (Hquiet id). now exists delay, movie, has_card.
    + split; [| now right].
      intros id' (d & m & hc & H). cbn in H.
      apply lookup_delete_Some in H as [_ H]. apply (Hquiet id').
      now exists d, m, hc.
Qed.

Lemma run_without_mouse_enter (inputs : list input) :
  forall s : Preview.t,
    no_show_pending s ->
    no_mouse_enter inputs ->
    Preview.hoveredMovie (preview_run s inputs) = Preview.hoveredMovie s
    \/ Preview.hoveredMovie (preview_run s inputs) = None.
Proof.
  induction inputs as [| i inputs IH]; intros s Hquiet Hno; [now left |].
  change (preview_run s (i :: inputs))
    with (preview_run (preview_step s i) inputs).
  unfold no_mouse_enter in Hno. cbn [forallb] in Hno.
  apply andb_true_iff in Hno as [Hi Hno]. apply negb_true_iff in Hi.
  destruct (step_without_mouse_enter s i Hquiet Hi) as [Hquiet' Hstep].
  destruct (IH (preview_step s i) Hquiet' Hno) as [Hrun | Hrun];
    [| now right].
  rewrite Hrun. exact Hstep.
Qed.

Lemma handleMouseLeave_no_show (s : Preview.t) :
  timers_tracked s -> no_show_pending (handleMouseLeave s).
Proof.
  intros (T1 & _) id (d & m & hc & H).
  destruct (handleMouseLeave_timers s) as (Ht & _). cbv zeta in Ht.
  rewrite Ht in H.
  assert (Hsub : without (Preview.hoverTimeoutRef s) (Preview.timers s) !! id
                 <> Some (d, ShowPreview m hc)).
  { intros H'. apply lookup_without in H' as [H' Hne]. apply Hne, T1.
    now exists d, m, hc. }
  destruct (is_modal (Preview.previewMode s)
            && is_some (Preview.hoveredMovie s)); [now apply Hsub |].
  apply lookup_insert_Some in H as [[_ [=]] | [_ H]]. now apply Hsub.
Qed.

Lemma handleInstantClose_no_show (s : Preview.t) :
  timers_tracked s -> no_show_pending (handleInstantClose s).
Proof.
  intros (T1 & _) id (d & m & hc & H).
  destruct (handleInstantClose_timers s) as (Ht & _). cbv zeta in Ht.
  rewrite Ht in H. apply lookup_without in H as [H _].
  apply lookup_without in H as [H Hne]. apply Hne, T1. now exists d, m, hc.
Qed.

(** X14: leaving a card cancels its show timer, so the preview of a newly
    hovered movie never opens after the leave: whatever happened before,
    once the pointer has left and until it enters a card again, the
    hovered movie stays what it was at the leave or becomes none. *)
Theorem leave_cancels_show (before later : list input) :
  no_mouse_enter later ->
  let s := preview_run initialPreview (before ++ [MouseLeave]) in
  no_show_pending s
  /\ (Preview.hoveredMovie (preview_run s later) = Preview.hoveredMovie s
      \/ Preview.hoveredMovie (preview_run s later) = None).
Proof.
  intros Hno. cbv zeta. rewrite preview_run_app.
  change (preview_run (preview_run initialPreview before) [MouseLeave])
    with (handleMouseLeave (preview_run initialPreview before)).
  assert (Hquiet : no_show_pending
                     (handleMouseLeave (preview_run initialPreview before))).
  { apply handleMouseLeave_no_show, preview_run_tracked,
      initialPreview_tracked. }
  split; [exact Hquiet | now apply run_without_mouse_enter].
Qed.

Lemma leave_cancels_show_witness :
  Preview.hoveredMovie
    (preview_run
       (preview_run initialPreview [MouseEnter batman_begins true; MouseLeave])
       [TimerFires 1 (card_at 100) wide_window;
        TimerFires 2 (card_at 100) wide_window])
  = None.
Proof.
  destruct (leave_cancels_show [MouseEnter batman_begins true]
              [TimerFires 1 (card_at 100) wide_window;
               TimerFires 2 (card_at 100) wide_window] eq_refl)
    as [_ [H | H]]; exact H.
Defined.

(** X15: an open preview in modal mode stays open as long as no close timer
    is pending and the user neither presses Escape, clicks the backdrop or
    the close button, nor touches the mode toggle: leaving the card or the
    panel arms nothing, and no timer that fires closes it. *)
Theorem modal_stays_open (s : Preview.t) (inputs : list input) :
  Preview.previewMode s = modal ->
  is_Some (Preview.hoveredMovie s) ->
  no_close_pending s ->
  keeps_modal_open inputs ->
  is_Some (Preview.hoveredMovie (preview_run s inputs))
  /\ Preview.previewMode (preview_run s inputs) = modal
  /\ no_close_pending (preview_run s inputs).
Proof.
  revert s. induction inputs as [| i inputs IH];
    intros s Hmode Hopen Hquiet Hkeep; [repeat split; assumption |].
  change (preview_run s (i :: inputs))
    with (preview_run (preview_step s i) inputs).
  unfold keeps_modal_open in Hkeep. cbn [forallb] in Hkeep.
  apply andb_true_iff in Hkeep as [Hi Hkeep]. apply negb_true_iff in Hi.
  assert (Hsub : forall ref1 ref2 id d,
            without ref1 (without ref2 (Preview.timers s)) !! id
            <> Some (d, ClosePreview)).
  { intros ref1 ref2 id d H. apply lookup_without in H as [H _].
    apply lookup_without in H as [H _]. apply (Hquiet id). now exists d. }
  assert (Hstep : Preview.previewMode (preview_step s i) = modal
                  /\ is_Some (Preview.hoveredMovie (preview_step s i))
                  /\ no_close_pending (preview_step s i)).
  { destruct i as [movie has_card | | | | key | mode | id rect window];
      try discriminate Hi; cbn [preview_step].
    - destruct (handleMouseEnter_timers movie has_card s)
        as (Ht & _ & _ & _ & Hh & Hm). cbv zeta in *.
      rewrite Hh, Hm. repeat split; try assumption.
      intros id (d & H). rewrite Ht in H.
      apply lookup_insert_Some in H as [[_ [=]] | [_ H]]. now apply Hsub in H.
    - destruct (handleMouseLeave_timers s) as (Ht & _ & _ & _ & Hh & Hm).
      cbv zeta in *. rewrite Hh, Hm. repeat split; try assumption.
      intros id (d & H). rewrite Ht, Hmode in H.
      destruct Hopen as [m Hm']. rewrite Hm' in H. cbn in H.
      now apply (Hsub None (Preview.hoverTimeoutRef s)) in H.
    - destruct (handlePreviewEnter_timers s) as (Ht & _ & _ & _ & Hh & Hm).
      cbv zeta in *. rewrite Hh, Hm. repeat split; try assumption.
      intros id (d & H). rewrite Ht in H. now apply Hsub in H.
    - cbn [closes_modal] in Hi. unfold handleKeyDown. rewrite Hi.
      cbn [andb]. repeat split; assumption.
    - destruct (Preview.timers s !! id) as [[delay cb] |] eqn:Hid;
        [| repeat split; assumption].
      destruct cb as [movie has_card |].
      + cbn. split; [exact Hmode |]. split; [now eexists |].
        intros id' (d & H). cbn in H.
        apply lookup_delete_Some in H as [_ H]. apply (Hquiet id').
        now exists d.
      + exfalso. apply (Hquiet id). now exists delay. }
  destruct Hstep as (Hmode' & Hopen' & Hquiet').
  now apply IH.
Qed.

Lemma modal_stays_open_witness :
  is_Some
    (Preview.hoveredMovie
       (preview_run
          (preview_run initialPreview
             [ToggleMode modal; MouseEnter batman_begins true;
              TimerFires 1 (card_at 100) wide_window])
          [MouseLeave; TimerFires 2 (card_at 100) wide_window;
           PreviewEnter; MouseLeave; KeyDown "Enter"])).
Proof.
  apply (modal_stays_open
           (preview_run initialPreview
              [ToggleMode modal; MouseEnter batman_begins true;
               TimerFires 1 (card_at 100) wide_window])
           [MouseLeave; TimerFires 2 (card_at 100) wide_window;
            PreviewEnter; MouseLeave; KeyDown "Enter"]).
  - reflexivity.
  - now eexists.
  - intros id (d & H).
    assert (Hnone : Preview.timers
                      (preview_run initialPreview
                         [ToggleMode modal; MouseEnter batman_begins true;
                          TimerFires 1 (card_at 100) wide_window]) = ∅)
      by reflexivity.
    rewrite Hnone, lookup_empty in H. discriminate H.
  - reflexivity.
Defined.

(** X16: a click on the backdrop or on the close button, and the Escape
    key while a preview is open, close the preview at once and for good:
    whatever happened before and whatever follows, the hovered movie is
    none until the pointer enters a card again. *)
Theorem instant_close_stays_closed (before later : list input) :
  no_mouse_enter later ->
  Preview.hoveredMovie
    (preview_run initialPreview (before ++ InstantClose :: later)) = None
  /\ (is_Some (Preview.hoveredMovie (preview_run initialPreview before)) ->
      Preview.hoveredMovie
        (preview_run initialPreview (before ++ KeyDown "Escape" :: later))
      = None).
Proof.
  intros Hno.
  pose proof (preview_run_tracked before initialPreview
                initialPreview_tracked) as Htracked.
  assert (Hclosed :
            Preview.hoveredMovie
              (preview_run
                 (handleInstantClose (preview_run initialPreview before))
                 later) = None).
  { destruct (run_without_mouse_enter later
                (handleInstantClose (preview_run initialPreview before)))
      as [H | H]; [now apply handleInstantClose_no_show | exact Hno | |
                   exact H].
    rewrite H.
    now destruct (handleInstantClose_timers
                    (preview_run initialPreview before))
      as (_ & _ & _ & _ & Hh & _). }
  split.
  - rewrite preview_run_app. exact Hclosed.
  - intros [m Hm]. rewrite preview_run_app.
    change (preview_run (preview_run initialPreview before)
              (KeyDown "Escape" :: later))
      with (preview_run
              (handleKeyDown "Escape" (preview_run initialPreview before))
              later).
    unfold handleKeyDown. rewrite Hm. exact Hclosed.
Qed.

Lemma instant_close_stays_closed_witness :
  Preview.hoveredMovie
    (preview_run initialPreview
       ([MouseEnter batman_begins true;
         TimerFires 1 (card_at 100) wide_window; MouseLeave]
        ++ KeyDown "Escape"
           :: [TimerFires 2 (card_at 100) wide_window; PreviewEnter]))
  = None.
Proof.
  destruct (instant_close_stays_closed
              [MouseEnter batman_begins true;
               TimerFires 1 (card_at 100) wide_window; MouseLeave]
              [TimerFires 2 (card_at 100) wide_window; PreviewEnter]
              eq_refl) as [_ Hescape].
  apply Hescape. now eexists.
Defined.

(** X17: outside an open modal preview, leaving arms a 300ms close timer
    held by [closeTimeoutRef]; if it fires the preview closes; entering the
    panel, or a card, before it fires cancels it, and the preview then
    stays as it is.  This needs no other close timer to be pending:
    [handleMouseLeave] does not clear the one armed by an earlier leave. *)
Theorem close_timer_grace_period (s : Preview.t) (rect : DOMRect.t)
    (window : Window.t) (movie : Movie) (has_card : bool) :
  no_close_pending s ->
  is_modal (Preview.previewMode s) && is_some (Preview.hoveredMovie s)
  = false ->
  let id := Preview.nextTimer s in
  let left := handleMouseLeave s in
  Preview.closeTimeoutRef left = Some id
  /\ Preview.timers left !! id = Some (300, ClosePreview)
  /\ Preview.hoveredMovie left = Preview.hoveredMovie s
  /\ Preview.hoveredMovie (preview_step left (TimerFires id rect window))
     = None
  /\ (no_close_pending (handlePreviewEnter left)
      /\ Preview.hoveredMovie (handlePreviewEnter left)
         = Preview.hoveredMovie s)
  /\ (no_close_pending (handleMouseEnter movie has_card left)
      /\ Preview.hoveredMovie (handleMouseEnter movie has_card left)
         = Preview.hoveredMovie s).
Proof.
  intros Hquiet Hstay. cbv zeta.
  destruct (handleMouseLeave_timers s) as (Ht & Hh & Hc & Hn & Hhov & Hm).
  cbv zeta in *. rewrite Hstay in *.
  assert (Hleft : forall id d,
            Preview.timers (handleMouseLeave s) !! id = Some (d, ClosePreview) ->
            id = Preview.nextTimer s).
  { intros id d H. rewrite Ht in H.
    apply lookup_insert_Some in H as [[<- _] | [_ H]]; [reflexivity |].
    apply lookup_without in H as [H _]. exfalso. apply (Hquiet id).
    now exists d. }
  split; [exact Hc |].
  split; [rewrite Ht; apply lookup_insert_eq |].
  split; [exact Hhov |].
  split; [| split].
  - cbn [preview_step]. rewrite Ht, lookup_insert_eq. reflexivity.
  - destruct (handlePreviewEnter_timers (handleMouseLeave s))
      as (Ht' & _ & _ & _ & Hhov' & _). cbv zeta in *.
    split; [| congruence].
    intros id (d & H). rewrite Ht', Hc in H.
    apply lookup_without in H as [H Hne].
    apply lookup_without in H as [H _].
    apply Hne. f_equal. symmetry. now apply (Hleft id d).
  - destruct (handleMouseEnter_timers movie has_card (handleMouseLeave s))
      as (Ht' & _ & _ & _ & Hhov' & _). cbv zeta in *.
    split; [| congruence].
    intros id (d & H). rewrite Ht', Hc in H.
    apply lookup_insert_Some in H as [[_ [=]] | [_ H]].
    apply lookup_without in H as [H Hne].
    apply lookup_without in H as [H _].
    apply Hne. f_equal. symmetry. now apply (Hleft id d).
Qed.

Lemma close_timer_grace_period_witness :
  let s :=
    preview_run initialPreview
      [MouseEnter batman_begins true;
       TimerFires 1 (card_at 100) wide_window] in
  Preview.hoveredMovie (handlePreviewEnter (handleMouseLeave s))
  = Some batman_begins
  /\ Preview.hoveredMovie
       (preview_step (handleMouseLeave s)
          (TimerFires 2 (card_at 100) wide_window))
     = None.
Proof.
  cbv zeta.
  destruct (close_timer_grace_period
              (preview_run initialPreview
                 [MouseEnter batman_begins true;
                  TimerFires 1 (card_at 100) wide_window])
              (card_at 100) wide_window dark_knight true)
    as (_ & _ & _ & Hfire & [_ Henter] & _).
  - intros id (d & H).
    assert (Hnone : Preview.timers
                      (preview_run initialPreview
                         [MouseEnter batman_begins true;
                          TimerFires 1 (card_at 100) wide_window]) = ∅)
      by reflexivity.
    rewrite Hnone, lookup_empty in H. discriminate H.
  - reflexivity.
  - split; [exact Henter | exact Hfire].
Defined.

(** X18: entering a card arms a 700ms show timer held by
    [hoverTimeoutRef]; when it fires the movie becomes the hovered one and,
    for a non-null card, the preview is placed at the position computed
    from the card's rectangle at that time; if the card is left first, the
    timer is no longer pending and its firing changes nothing. *)
Theorem hover_shows_preview (s : Preview.t) (movie : Movie)
    (rect : DOMRect.t) (window : Window.t) :
  let id := Preview.nextTimer s in
  let entered := handleMouseEnter movie true s in
  let shown := preview_step entered (TimerFires id rect window) in
  Preview.hoverTimeoutRef entered = Some id
  /\ Preview.timers entered !! id = Some (700, ShowPreview movie true)
  /\ Preview.hoveredMovie entered = Preview.hoveredMovie s
  /\ Preview.hoveredMovie shown = Some movie
  /\ Preview.previewPosition shown = computePreviewPosition rect window
  /\ Preview.timers (handleMouseLeave entered) !! id = None
  /\ preview_step (handleMouseLeave entered) (TimerFires id rect window)
     = handleMouseLeave entered.
Proof.
  cbv zeta.
  destruct (handleMouseEnter_timers movie true s)
    as (Ht & Hh & Hc & Hn & Hhov & Hm). cbv zeta in *.
  split; [exact Hh |].
  split; [rewrite Ht; apply lookup_insert_eq |].
  split; [exact Hhov |].
  assert (Hgone : Preview.timers (handleMouseLeave (handleMouseEnter movie true s))
                  !! Preview.nextTimer s = None).
  { destruct (handleMouseLeave_timers (handleMouseEnter movie true s))
      as (Ht' & _). cbv zeta in Ht'. rewrite Ht', Hh, Hn, Ht.
    cbn [without].
    destruct (is_modal _ && is_some _).
    - apply lookup_delete_eq.
    - rewrite lookup_insert_ne by lia. apply lookup_delete_eq. }
  split; [| split; [| split]].
  - cbn [preview_step]. rewrite Ht, lookup_insert_eq. reflexivity.
  - cbn [preview_step]. rewrite Ht, lookup_insert_eq. reflexivity.
  - exact Hgone.
  - cbn [preview_step]. now rewrite Hgone.
Qed.

(** ** Suggestion loader: proofs *)

Lemma bindL_eq {A B} (m : L A) (k : A -> L B) (S : Services) (site : Site) :
  bindL m k S site
  = match m S site with
    | (Return a, site') => k a S site'
    | (Throw e, site') => (Throw e, site')
    | (OutOfFuel, site') => (OutOfFuel, site')
    end.
Proof. reflexivity. Qed.

Lemma after_calls_app (new1 new2 : list call) (site : Site) :
  after_calls new2 (after_calls new1 site) = after_calls (new1 ++ new2) site.
Proof. unfold after_calls. cbn. now rewrite <- app_assoc. Qed.

(** A lifted run of the paginated fetcher: it ends, leaves the state alone
    and appends the requests for pages 1 to k. *)
Lemma lift_fetch (fuel : nat) (genre : string) (S : Services) (site : Site) :
  (10 <= fuel)%nat ->
  exists r k,
    (1 <= k <= 10)%nat
    /\ lift (fetchAllMoviesByGenre fuel genre) S site
       = (r, after_requests (page_requests genre k) site)
    /\ r <> OutOfFuel.
Proof.
  intros Hfuel. unfold lift. cbv zeta.
  set (P := shift (length (calls site)) (movies_provider S)).
  set (w := {| app := state site; log := [] |}).
  destruct (fetch_requests_shape fuel genre P w Hfuel) as (k & Hk & Hw).
  destruct (loop_terminates fuel genre P [] 1 w)
    as (r & reqs & Heq & Hr & _); [lia | lia |].
  fold (fetchAllMoviesByGenre fuel genre) in Heq.
  exists r, k. split; [exact Hk |]. split; [| exact Hr].
  rewrite Hw. rewrite Heq. reflexivity.
Qed.

Lemma collect_imdb_run (api_key : string) (results : list TmdbListing.t)
    (S : Services) :
  forall (movies : list Movie) (site : Site),
  exists r new,
    collect_imdb api_key results movies S site = (r, after_calls new site)
    /\ r <> OutOfFuel
    /\ forallb is_tmdb_call new = true
    /\ filter (fun c => is_top_rated_call c = true) new = []
    /\ forall ms, r = Return ms ->
         exists added,
           ms = movies ++ added
           /\ Forall has_imdb_id added
           /\ (length added <= length results)%nat.
Proof.
  induction results as [| tmdbMovie rest IH]; intros movies site.
  - exists (Return movies), []. unfold after_calls. cbn.
    rewrite app_nil_r. destruct site.
    split; [reflexivity |]. split; [discriminate |]. split; [reflexivity |].
    split; [reflexivity |].
    intros ms [= <-]. exists []. rewrite app_nil_r.
    split; [reflexivity |]. split; [apply Forall_nil; exact I | simpl; lia].
  - cbn [collect_imdb]. rewrite bindL_eq. unfold fetch_external_ids.
    set (c := ExternalIdsCall api_key (TmdbListing.id tmdbMovie)).
    destruct (tmdb_external_ids S (length (calls site)) api_key
                (TmdbListing.id tmdbMovie)) as [e | imdb_id];
      cbn [of_reply].
    + exists (Throw e), [c]. repeat split; try discriminate.
    + set (movies' := match imdb_id with
                      | Some i => if truthy i
                                  then movies ++ [toMovie tmdbMovie i]
                                  else movies
                      | None => movies
                      end).
      destruct (IH movies' (called c site))
        as (r & new & Heq & Hr & Htm & Htop & Hret).
      exists r, (c :: new). rewrite Heq.
      change (called c site) with (after_calls [c] site).
      rewrite after_calls_app. repeat split; try assumption.
      intros ms Hms. destruct (Hret ms Hms) as (added & -> & Hadded & Hlen).
      subst movies'. destruct imdb_id as [i |].
      * destruct (truthy i) eqn:Hi.
        -- exists (toMovie tmdbMovie i :: added). rewrite <- app_assoc.
           repeat split; [| simpl; lia].
           constructor; [| exact Hadded].
           unfold has_imdb_id. cbn. intros ->. discriminate Hi.
        -- exists added. repeat split; [exact Hadded | simpl; lia].
      * exists added. repeat split; [exact Hadded | simpl; lia].
Qed.

Lemma top_rated_pages_run (api_key : string) (S : Services)
    (remaining : nat) :
  forall (page : Z) (movies : list Movie) (site : Site),
  exists r new,
    top_rated_pages api_key remaining page movies S site
    = (r, after_calls new site)
    /\ r <> OutOfFuel
    /\ forallb is_tmdb_call new = true
    /\ forall ms, r = Return ms ->
         filter (fun c => is_top_rated_call c = true) new
         = top_rated_calls api_key page remaining
         /\ exists added, ms = movies ++ added /\ Forall has_imdb_id added.
Proof.
  induction remaining as [| remaining IH]; intros page movies site.
  - exists (Return movies), []. unfold after_calls. cbn.
    rewrite app_nil_r. destruct site.
    split; [reflexivity |]. split; [discriminate |]. split; [reflexivity |].
    intros ms' [= <-]. split; [reflexivity |].
    exists []. rewrite app_nil_r.
    split; [reflexivity | apply Forall_nil; exact I].
  - cbn [top_rated_pages]. rewrite bindL_eq. unfold fetch_top_rated.
    set (c := TopRatedCall api_key page).
    destruct (tmdb_top_rated S (length (calls site)) api_key page)
      as [e | data_results]; cbn [of_reply].
    + exists (Throw e), [c]. repeat split; try discriminate.
    + rewrite bindL_eq.
      assert (Hinner : exists r1 new1,
                (match data_results with
                 | Some results => collect_imdb api_key results movies
                 | None => retL movies
                 end) S (called c site) = (r1, after_calls new1 (called c site))
                /\ r1 <> OutOfFuel
                /\ forallb is_tmdb_call new1 = true
                /\ filter (fun c => is_top_rated_call c = true) new1 = []
                /\ forall ms, r1 = Return ms ->
                     exists added, ms = movies ++ added
                                   /\ Forall has_imdb_id added).
      { destruct data_results as [results |].
        - destruct (collect_imdb_run api_key results S movies (called c site))
            as (r1 & new1 & Heq & Hr & Htm & Htop & Hret).
          exists r1, new1. repeat split; try assumption.
          intros ms Hms. destruct (Hret ms Hms) as (added & Ha & Hf & _).
          now exists added.
        - exists (Return movies), []. unfold after_calls, retL. cbn.
          rewrite app_nil_r.
          split; [reflexivity |]. split; [discriminate |].
          split; [reflexivity |]. split; [reflexivity |].
          intros ms' [= <-]. exists []. rewrite app_nil_r.
          split; [reflexivity | apply Forall_nil; exact I]. }
      destruct Hinner as (r1 & new1 & Heq1 & Hr1 & Htm1 & Htop1 & Hret1).
      rewrite Heq1.
      change (called c site) with (after_calls [c] site).
      rewrite after_calls_app.
      destruct r1 as [movies1 | e |].
      * destruct (IH (page + 1) movies1 (after_calls ([c] ++ new1) site))
          as (r & new & Heq & Hr & Htm & Hret).
        exists r, (([c] ++ new1) ++ new). rewrite Heq, after_calls_app.
        split; [reflexivity |]. split; [exact Hr |]. split.
        { rewrite !forallb_app, Htm1, Htm. reflexivity. }
        intros ms Hms. destruct (Hret ms Hms) as (Htop & added & -> & Hadded).
        destruct (Hret1 movies1 eq_refl) as (added1 & -> & Hadded1).
        split.
        -- rewrite !filter_app, Htop1, Htop. reflexivity.
        -- exists (added1 ++ added). rewrite app_assoc.
           split; [reflexivity | now apply Forall_app].
      * exists (Throw e), ([c] ++ new1).
        repeat split; try discriminate.
        rewrite forallb_app, Htm1. reflexivity.
      * now destruct Hr1.
Qed.

Lemma before_dash_no_dash (s : string) : no_dash (before_dash s) = true.
Proof.
  induction s as [| c s IH]; [reflexivity |].
  cbn [before_dash]. destruct (Ascii.eqb c dash) eqn:Hc; [reflexivity |].
  cbn [no_dash]. now rewrite Hc, IH.
Qed.

Lemma before_dash_prefix (year rest : string) :
  no_dash year = true ->
  before_dash (year ++ String dash rest) = year.
Proof.
  induction year as [| c year IH]; intros Hno.
  - reflexivity.
  - cbn [no_dash] in Hno. apply andb_true_iff in Hno as [Hc Hno].
    apply negb_true_iff in Hc.
    change (before_dash (String c year ++ String dash rest))
      with (if Ascii.eqb c dash then EmptyString
            else String c (before_dash (year ++ String dash rest))).
    rewrite Hc. f_equal. now apply IH.
Qed.

(** X19: the movie built from a top-rated listing entry keeps the IMDB id
    it was given; its year is never empty and contains no dash: it is the
    part of the release date before the first dash (the year of a
    yyyy-mm-dd date), or "N/A" when the date is absent or starts with a
    dash; its poster is never empty. *)
Theorem toMovie_year_and_poster (tmdbMovie : TmdbListing.t)
    (imdb_id : string) :
  let m := toMovie tmdbMovie imdb_id in
  imdbID m = imdb_id
  /\ Year m <> EmptyString
  /\ no_dash (Year m) = true
  /\ Poster m <> EmptyString
  /\ (TmdbListing.release_date tmdbMovie = None -> Year m = "N/A")
  /\ (forall year rest : string,
        TmdbListing.release_date tmdbMovie
        = Some (year ++ String dash rest)%string ->
        no_dash year = true ->
        Year m = if truthy year then year else "N/A").
Proof.
  cbv zeta. unfold toMovie. cbn [imdbID Year Poster].
  split; [reflexivity |]. split; [| split; [| split; [| split]]].
  - unfold year_of. destruct (TmdbListing.release_date tmdbMovie) as [d |];
      [| discriminate].
    destruct (truthy (before_dash d)) eqn:Ht; [| discriminate].
    intros He. rewrite He in Ht. discriminate Ht.
  - unfold year_of. destruct (TmdbListing.release_date tmdbMovie) as [d |];
      [| reflexivity].
    destruct (truthy (before_dash d)); [apply before_dash_no_dash | reflexivity].
  - unfold poster_of. destruct (TmdbListing.poster_path tmdbMovie) as [p |];
      [| discriminate].
    destruct (truthy p); discriminate.
  - intros Hnone. unfold year_of. now rewrite Hnone.
  - intros year rest Hdate Hno. unfold year_of.
    now rewrite Hdate, before_dash_prefix.
Qed.

Lemma toMovie_year_and_poster_witness :
  Year (toMovie
          {| TmdbListing.id := 155; TmdbListing.title := "The Dark Knight";
             TmdbListing.release_date := Some "2008-07-16";
             TmdbListing.poster_path := Some "/qJ2tW6WMUDux911r6m7haRef0WH.jpg" |}
          "tt0468569")
  = "2008".
Proof.
  destruct (toMovie_year_and_poster
              {| TmdbListing.id := 155; TmdbListing.title := "The Dark Knight";
                 TmdbListing.release_date := Some "2008-07-16";
                 TmdbListing.poster_path :=
                   Some "/qJ2tW6WMUDux911r6m7haRef0WH.jpg" |}
              "tt0468569") as (_ & _ & _ & _ & _ & Hyear).
  exact (Hyear "2008" "07-16" eq_refl eq_refl).
Defined.

(** [fetchTopRatedMovies] with a configured key: the listing path, then the
    OMDB search if it threw. *)
Lemma fetchTopRatedMovies_with_key (api_key : string) (fuel : nat)
    (S : Services) (site : Site) :
  truthy api_key = true ->
  fetchTopRatedMovies (Some api_key) fuel S site
  = match top_rated_pages api_key 3 1 [] S site with
    | (Throw e, site') => lift (fetchAllMoviesByGenre fuel "movie") S site'
    | r => r
    end.
Proof.
  intros Hkey. unfold fetchTopRatedMovies. rewrite Hkey. reflexivity.
Qed.

Lemma fetchTopRatedMovies_without_key_run (TMDB_API_KEY : option string)
    (fuel : nat) (S : Services) (site : Site) :
  configured TMDB_API_KEY = false ->
  fetchTopRatedMovies TMDB_API_KEY fuel S site
  = lift (fetchAllMoviesByGenre fuel "movie") S site.
Proof.
  intros Hno. unfold fetchTopRatedMovies.
  destruct TMDB_API_KEY as [api_key |]; [| reflexivity].
  cbn [configured] in Hno. now rewrite Hno.
Qed.

(** [fetchTopRatedMovies] ends, only appends calls, and leaves the state
    alone. *)
Lemma fetchTopRatedMovies_run (TMDB_API_KEY : option string) (fuel : nat)
    (S : Services) (site : Site) :
  (10 <= fuel)%nat ->
  exists r new,
    fetchTopRatedMovies TMDB_API_KEY fuel S site = (r, after_calls new site)
    /\ r <> OutOfFuel.
Proof.
  intros Hfuel. destruct (configured TMDB_API_KEY) eqn:Hc.
  - destruct TMDB_API_KEY as [api_key |]; [| discriminate Hc].
    cbn [configured] in Hc.
    rewrite (fetchTopRatedMovies_with_key api_key fuel S site Hc).
    destruct (top_rated_pages_run api_key S 3 1 [] site)
      as (r & new & Heq & Hr & _). rewrite Heq.
    destruct r as [ms | e |].
    + exists (Return ms), new. split; [reflexivity | discriminate].
    + destruct (lift_fetch fuel "movie" S (after_calls new site) Hfuel)
        as (r' & k & _ & Heq' & Hr').
      exists r', (new ++ map MovieCall (page_requests "movie" k)).
      rewrite Heq'. split; [| exact Hr'].
      unfold after_requests, after_calls. cbn. now rewrite <- app_assoc.
    + now destruct Hr.
  - rewrite (fetchTopRatedMovies_without_key_run _ fuel S site Hc).
    destruct (lift_fetch fuel "movie" S site Hfuel)
      as (r & k & _ & Heq & Hr).
    exists r, (map MovieCall (page_requests "movie" k)).
    split; [exact Heq | exact Hr].
Qed.

Lemma all_answered_app (S : Services) (cs1 cs2 : list call) :
  forall i : nat,
    all_answered S i (cs1 ++ cs2)
    = all_answered S i cs1 && all_answered S (i + length cs1) cs2.
Proof.
  induction cs1 as [| c cs1 IH]; intros i.
  - simpl. now rewrite Nat.add_0_r.
  - simpl. destruct (tmdb_failure S i c); [reflexivity |].
    rewrite IH. do 2 f_equal. lia.
Qed.

(** The shape of a run of the inner loop: it returns when every call was
    answered, and throws at the first call that was rejected. *)
Lemma collect_imdb_trace (api_key : string) (results : list TmdbListing.t)
    (S : Services) :
  forall (movies : list Movie) (site : Site),
  exists r new,
    collect_imdb api_key results movies S site = (r, after_calls new site)
    /\ forallb is_tmdb_call new = true
    /\ match r with
       | Return _ => all_answered S (length (calls site)) new = true
       | Throw e =>
           exists before c,
             new = before ++ [c]
             /\ all_answered S (length (calls site)) before = true
             /\ tmdb_failure S (length (calls site) + length before) c = Some e
       | OutOfFuel => False
       end.
Proof.
  induction results as [| tmdbMovie rest IH]; intros movies site.
  - exists (Return movies), []. unfold after_calls. cbn.
    rewrite app_nil_r. destruct site. repeat split.
  - cbn [collect_imdb]. rewrite bindL_eq. unfold fetch_external_ids.
    set (c := ExternalIdsCall api_key (TmdbListing.id tmdbMovie)).
    destruct (tmdb_external_ids S (length (calls site)) api_key
                (TmdbListing.id tmdbMovie)) as [e | imdb_id] eqn:Hreply;
      cbn [of_reply].
    + exists (Throw e), [c]. split; [reflexivity |]. split; [reflexivity |].
      exists [], c. split; [reflexivity |]. split; [reflexivity |].
      simpl. rewrite Nat.add_0_r. subst c. cbn [tmdb_failure].
      now rewrite Hreply.
    + set (movies' := match imdb_id with
                      | Some i => if truthy i
                                  then movies ++ [toMovie tmdbMovie i]
                                  else movies
                      | None => movies
                      end).
      destruct (IH movies' (called c site)) as (r & new & Heq & Htm & Hr).
      exists r, (c :: new). rewrite Heq.
      change (called c site) with (after_calls [c] site).
      rewrite after_calls_app. split; [reflexivity |].
      split; [exact Htm |].
      assert (Hc : tmdb_failure S (length (calls site)) c = None).
      { subst c. cbn [tmdb_failure]. now rewrite Hreply. }
      assert (Hlen : length (calls (called c site))
                     = (length (calls site) + 1)%nat).
      { cbn. now rewrite length_app. }
      rewrite Hlen in Hr.
      destruct r as [ms | e |]; [| | exact Hr].
      * cbn [all_answered]. now rewrite Hc.
      * destruct Hr as (before & c' & -> & Hbefore & Hfail).
        exists (c :: before), c'. split; [reflexivity |].
        split; [cbn [all_answered]; now rewrite Hc |].
        simpl length.
        replace (length (calls site) + Datatypes.S (length before))%nat
          with (length (calls site) + 1 + length before)%nat by lia.
        exact Hfail.
Qed.

Lemma top_rated_pages_trace (api_key : string) (S : Services)
    (remaining : nat) :
  forall (page : Z) (movies : list Movie) (site : Site),
  exists r new,
    top_rated_pages api_key remaining page movies S site
    = (r, after_calls new site)
    /\ forallb is_tmdb_call new = true
    /\ match r with
       | Return _ => all_answered S (length (calls site)) new = true
       | Throw e =>
           exists before c,
             new = before ++ [c]
             /\ all_answered S (length (calls site)) before = true
             /\ tmdb_failure S (length (calls site) + length before) c = Some e
       | OutOfFuel => False
       end.
Proof.
  induction remaining as [| remaining IH]; intros page movies site.
  - exists (Return movies), []. unfold after_calls. cbn.
    rewrite app_nil_r. destruct site. repeat split.
  - cbn [top_rated_pages]. rewrite bindL_eq. unfold fetch_top_rated.
    set (c := TopRatedCall api_key page).
    destruct (tmdb_top_rated S (length (calls site)) api_key page)
      as [e | data_results] eqn:Hreply; cbn [of_reply].
    + exists (Throw e), [c]. split; [reflexivity |]. split; [reflexivity |].
      exists [], c. split; [reflexivity |]. split; [reflexivity |].
      simpl. rewrite Nat.add_0_r. subst c. cbn [tmdb_failure].
      now rewrite Hreply.
    + rewrite bindL_eq.
      assert (Hc : tmdb_failure S (length (calls site)) c = None).
      { subst c. cbn [tmdb_failure]. now rewrite Hreply. }
      assert (Hlen : length (calls (called c site))
                     = (length (calls site) + 1)%nat).
      { cbn. now rewrite length_app. }
      assert (Hinner : exists r1 new1,
                (match data_results with
                 | Some results => collect_imdb api_key results movies
                 | None => retL movies
                 end) S (called c site) = (r1, after_calls new1 (called c site))
                /\ forallb is_tmdb_call new1 = true
                /\ match r1 with
                   | Return _ =>
                       all_answered S (length (calls site) + 1) new1 = true
                   | Throw e =>
                       exists before c',
                         new1 = before ++ [c']
                         /\ all_answered S (length (calls site) + 1) before
                            = true
                         /\ tmdb_failure S
                              (length (calls site) + 1 + length before) c'
                            = Some e
                   | OutOfFuel => False
                   end).
      { destruct data_results as [results |].
        - destruct (collect_imdb_trace api_key results S movies
                      (called c site)) as (r1 & new1 & Heq & Htm & Hr).
          rewrite Hlen in Hr. now exists r1, new1.
        - exists (Return movies), []. unfold after_calls, retL. cbn.
          rewrite app_nil_r. repeat split. }
      destruct Hinner as (r1 & new1 & Heq1 & Htm1 & Hr1).
      rewrite Heq1.
      change (called c site) with (after_calls [c] site).
      rewrite after_calls_app.
      destruct r1 as [movies1 | e |]; [| | now destruct Hr1].
      * destruct (IH (page + 1) movies1 (after_calls ([c] ++ new1) site))
          as (r & new & Heq & Htm & Hr).
        exists r, (([c] ++ new1) ++ new). rewrite Heq, after_calls_app.
        split; [reflexivity |]. split.
        { rewrite !forallb_app, Htm1, Htm. reflexivity. }
        assert (Hhere : all_answered S (length (calls site)) ([c] ++ new1)
                        = true).
        { change ([c] ++ new1) with (c :: new1). cbn [all_answered].
          now rewrite Hc. }
        assert (Hlen' : length (calls (after_calls ([c] ++ new1) site))
                        = (length (calls site) + length ([c] ++ new1))%nat).
        { cbn [after_calls calls]. now rewrite length_app. }
        rewrite Hlen' in Hr.
        destruct r as [ms | e |]; [| | exact Hr].
        -- now rewrite all_answered_app, Hhere, Hr.
        -- destruct Hr as (before & c' & -> & Hbefore & Hfail).
           exists (([c] ++ new1) ++ before), c'.
           split; [now rewrite <- !app_assoc |].
           split; [now rewrite all_answered_app, Hhere, Hbefore |].
           rewrite length_app, Nat.add_assoc. exact Hfail.
      * destruct Hr1 as (before & c' & -> & Hbefore & Hfail).
        exists (Throw e), ([c] ++ before ++ [c']).
        split; [reflexivity |]. split.
        { exact Htm1. }
        exists (c :: before), c'. split; [reflexivity |].
        split; [cbn [all_answered]; now rewrite Hc |].
        simpl length.
        replace (length (calls site) + Datatypes.S (length before))%nat
          with (length (calls site) + 1 + length before)%nat by lia.
        exact Hfail.
Qed.

(** X20: with a configured API key, [fetchTopRatedMovies] ends in one of
    two ways, decided by the answers of TMDB.  Either every TMDB call was
    answered: then the three listing pages 1, 2, 3 were read, only TMDB was
    called, and it returns movies that all have a non-empty IMDB id.  Or a
    TMDB call was rejected: then that call is the last TMDB call made (every
    call before it was answered), and what the function returns or throws
    is the outcome of the OMDB search for "movie" that follows, pages 1 to
    k, the movies collected from TMDB before the failure being dropped.
    The state is untouched in both cases. *)
Theorem fetchTopRatedMovies_listing_or_search (api_key : string)
    (fuel : nat) (S : Services) (site : Site) :
  (10 <= fuel)%nat ->
  truthy api_key = true ->
  let r := fetchTopRatedMovies (Some api_key) fuel S site in
  r.1 <> OutOfFuel
  /\ state r.2 = state site
  /\ ((exists ms new,
         r = (Return ms, after_calls new site)
         /\ all_answered S (length (calls site)) new = true
         /\ Forall has_imdb_id ms
         /\ forallb is_tmdb_call new = true
         /\ filter (fun c => is_top_rated_call c = true) new
            = [TopRatedCall api_key 1; TopRatedCall api_key 2;
               TopRatedCall api_key 3])
      \/ (exists before c e k,
            (1 <= k <= 10)%nat
            /\ forallb is_tmdb_call (before ++ [c]) = true
            /\ all_answered S (length (calls site)) before = true
            /\ tmdb_failure S (length (calls site) + length before) c = Some e
            /\ r = lift (fetchAllMoviesByGenre fuel "movie") S
                     (after_calls (before ++ [c]) site)
            /\ calls r.2
               = calls site ++ (before ++ [c])
                 ++ map MovieCall (page_requests "movie" k))).
Proof.
  intros Hfuel Hkey. cbv zeta.
  rewrite (fetchTopRatedMovies_with_key api_key fuel S site Hkey).
  destruct (top_rated_pages_run api_key S 3 1 [] site)
    as (r & new & Heq & Hr & Htm & Hret).
  destruct (top_rated_pages_trace api_key S 3 1 [] site)
    as (r' & new' & Heq' & _ & Htrace).
  rewrite Heq in Heq'. injection Heq' as <- Hnew.
  apply app_inv_head in Hnew. subst new'.
  rewrite Heq.
  destruct r as [ms | e |].
  - split; [discriminate |]. split; [reflexivity |]. left.
    destruct (Hret ms eq_refl) as (Htop & added & -> & Hadded).
    exists ([] ++ added), new. repeat split; assumption.
  - destruct Htrace as (before & c & -> & Hbefore & Hfail).
    destruct (lift_fetch fuel "movie" S (after_calls (before ++ [c]) site)
                Hfuel) as (r' & k & Hk & Heq' & Hr').
    rewrite Heq'. split; [exact Hr' |]. split; [reflexivity |]. right.
    exists before, c, e, k. split; [exact Hk |]. split; [exact Htm |].
    split; [exact Hbefore |]. split; [exact Hfail |].
    split; [symmetry; exact Heq' |].
    unfold after_requests, after_calls. cbn. now rewrite <- !app_assoc.
  - now destruct Hr.
Qed.

Lemma fetchTopRatedMovies_listing_or_search_witness :
  let r := fetchTopRatedMovies (Some "k") 10 (sunny offline) opened in
  let r' :=
    fetchTopRatedMovies (Some "k") 10 (only_omdb batman_and_spider) opened in
  (r = (Return [toMovie the_dark_knight "tt0468569"],
        after_calls
          [TopRatedCall "k" 1; ExternalIdsCall "k" 155; ExternalIdsCall "k" 999;
           TopRatedCall "k" 2; TopRatedCall "k" 3] opened)
   /\ r.1 <> OutOfFuel)
  /\ (r' = (Return [],
            after_calls [TopRatedCall "k" 1; MovieCall (OmdbSearch "movie" 1)]
              opened)
      /\ r'.1 <> OutOfFuel).
Proof.
  cbv zeta. split.
  - split; [reflexivity |].
    apply (fetchTopRatedMovies_listing_or_search "k" 10 (sunny offline) opened);
      [lia | reflexivity].
  - split; [reflexivity |].
    apply (fetchTopRatedMovies_listing_or_search "k" 10
             (only_omdb batman_and_spider) opened); [lia | reflexivity].
Defined.

(** X21: without a configured API key, [fetchTopRatedMovies] never calls
    TMDB: it is the OMDB search for "movie".  Its outcome (the movies
    returned, or the failure thrown) is the outcome of that search, run
    against OMDB from the calls made so far; the calls it adds are the
    requests for pages 1 to k of "movie", for some k up to 10, and the
    state is untouched. *)
Theorem fetchTopRatedMovies_without_key (TMDB_API_KEY : option string)
    (fuel : nat) (S : Services) (site : Site) :
  (10 <= fuel)%nat ->
  configured TMDB_API_KEY = false ->
  let search :=
    fetchAllMoviesByGenre fuel "movie"
      (shift (length (calls site)) (movies_provider S))
      {| app := state site; log := [] |} in
  exists k : nat,
    (1 <= k <= 10)%nat
    /\ fetchTopRatedMovies TMDB_API_KEY fuel S site
       = (search.1, after_requests (page_requests "movie" k) site)
    /\ log search.2 = page_requests "movie" k
    /\ search.1 <> OutOfFuel.
Proof.
  intros Hfuel Hno. cbv zeta.
  rewrite (fetchTopRatedMovies_without_key_run _ fuel S site Hno).
  unfold lift. cbv zeta.
  set (P := shift (length (calls site)) (movies_provider S)).
  set (w := {| app := state site; log := [] |}).
  destruct (fetch_requests_shape fuel "movie" P w Hfuel) as (k & Hk & Hw).
  destruct (loop_terminates fuel "movie" P [] 1 w)
    as (r & reqs & Heq & Hr & _); [lia | lia |].
  fold (fetchAllMoviesByGenre fuel "movie") in Heq.
  exists k. split; [exact Hk |]. rewrite Hw.
  split; [reflexivity |]. split; [reflexivity |].
  rewrite Heq. exact Hr.
Qed.

Lemma fetchTopRatedMovies_without_key_witness :
  exists k : nat,
    (1 <= k <= 10)%nat
    /\ fetchTopRatedMovies None 10 (sunny (two_pages [batman_begins] [])) opened
       = (Return [batman_begins],
          after_requests (page_requests "movie" k) opened).
Proof.
  destruct (fetchTopRatedMovies_without_key None 10
              (sunny (two_pages [batman_begins] [])) opened)
    as (k & Hk & Heq & _); [lia | reflexivity |].
  exists k. split; [exact Hk | exact Heq].
Defined.

(** X22: the callback run when the position is denied never throws,
    whatever the services answer: it sets the reason to "top rated", and
    the suggestions to what [fetchTopRatedMovies] returns; when that throws
    (the OMDB search failed too) the rejection is caught, the suggestions
    stay as they were and the reason remains set.  No other cell of the
    state changes. *)
Theorem positionDenied_never_throws (TMDB_API_KEY : option string)
    (fuel : nat) (S : Services) (site : Site) :
  (10 <= fuel)%nat ->
  let r := positionDenied TMDB_API_KEY fuel S site in
  let asked :=
    fetchTopRatedMovies TMDB_API_KEY fuel S
      {| state := setWeatherReason top_rated_reason (state site);
         calls := calls site |} in
  r.1 = Return tt
  /\ weatherReason (state r.2) = top_rated_reason
  /\ search_cells (state r.2) = search_cells (state site)
  /\ calls r.2 = calls asked.2
  /\ suggested (state r.2)
     = match asked.1 with
       | Return topMovies => topMovies
       | _ => suggested (state site)
       end.
Proof.
  intros Hfuel. cbv zeta.
  cbv [positionDenied try_catchL bindL setL retL].
  destruct (fetchTopRatedMovies_run TMDB_API_KEY fuel S
              {| state := setWeatherReason top_rated_reason (state site);
                 calls := calls site |} Hfuel)
    as (r & new & Heq & Hr).
  rewrite Heq. destruct r as [ms | e |]; [| | now destruct Hr];
    cbn; repeat split.
Qed.

Lemma positionDenied_never_throws_witness :
  let r := positionDenied None 10 (only_omdb offline) opened in
  r.1 = Return tt
  /\ weatherReason (state r.2) = top_rated_reason
  /\ suggested (state r.2) = [].
Proof.
  cbv zeta.
  destruct (positionDenied_never_throws None 10 (only_omdb offline) opened)
    as (Hret & Hreason & _ & _ & Hsugg); [lia |].
  split; [exact Hret | split; [exact Hreason | exact Hsugg]].
Defined.

(** Names [site] the site a lifted function starts from. *)
Ltac name_lift_site S site :=
  repeat match goal with
         | |- context [lift ?m S ?x] =>
             lazymatch x with
             | site => fail
             | _ => change (lift m S x) with (lift m S site)
             end
         end.

(** X23: when the position is granted, the reason displayed matches the
    source of the suggestions.  If the forecast resolves and the search for
    the genre mapped from it returns, the callback returns with that
    search's movies as suggestions and the description of the same weather
    as reason.  If the forecast is rejected, or if it resolves and the genre
    search throws, the reason is "top rated" (even though the weather
    description had been set before the genre search failed); the
    suggestions are what [fetchTopRatedMovies], called from there, returns,
    and if that throws, the callback throws too and leaves the suggestions
    as they were.  No other cell of the state changes. *)
Theorem positionGranted_reason_matches (TMDB_API_KEY : option string)
    (fuel : nat) (latitude longitude : Q) (S : Services) (site : Site) :
  (10 <= fuel)%nat ->
  let r := positionGranted TMDB_API_KEY fuel latitude longitude S site in
  let asked := called (ForecastCall latitude longitude) site in
  let forecast := open_meteo S (length (calls site)) latitude longitude in
  r.1 <> OutOfFuel
  /\ search_cells (state r.2) = search_cells (state site)
  /\ (forall (weatherCode : Z) (temperature : Q),
        forecast = Json (weatherCode, temperature) ->
        let searched :=
          lift (fetchAllMoviesByGenre fuel
                  (getGenreForWeather weatherCode temperature)) S
            {| state := setWeatherReason
                          (getWeatherDescription weatherCode temperature)
                          (state site);
               calls := calls asked |} in
        (forall allMovies : list Movie,
           searched.1 = Return allMovies ->
           r.1 = Return tt
           /\ weatherReason (state r.2)
              = getWeatherDescription weatherCode temperature
           /\ suggested (state r.2) = allMovies
           /\ calls r.2 = calls searched.2)
        /\ (forall e : exn,
              searched.1 = Throw e ->
              let fallback :=
                fetchTopRatedMovies TMDB_API_KEY fuel S
                  (top_rated_announced searched.2) in
              r.1 = ignoring_value fallback.1
              /\ weatherReason (state r.2) = top_rated_reason
              /\ suggested (state r.2)
                 = match fallback.1 with
                   | Return topMovies => topMovies
                   | _ => suggested (state site)
                   end
              /\ calls r.2 = calls fallback.2))
  /\ (forall e : exn,
        forecast = Rejected e ->
        let fallback :=
          fetchTopRatedMovies TMDB_API_KEY fuel S (top_rated_announced asked) in
        r.1 = ignoring_value fallback.1
        /\ weatherReason (state r.2) = top_rated_reason
        /\ suggested (state r.2)
           = match fallback.1 with
             | Return topMovies => topMovies
             | _ => suggested (state site)
             end
        /\ calls r.2 = calls fallback.2).
Proof.
  intros Hfuel. cbv zeta.
  cbv [positionGranted try_catchL bindL setL fetch_forecast].
  destruct (open_meteo S (length (calls site)) latitude longitude)
    as [e | [weatherCode temperature]]; cbn [of_reply fst snd].
  - fold (top_rated_announced (called (ForecastCall latitude longitude) site)).
    destruct (fetchTopRatedMovies_run TMDB_API_KEY fuel S
                (top_rated_announced
                   (called (ForecastCall latitude longitude) site)) Hfuel)
      as (r & new & Heq & Hr).
    rewrite Heq. destruct r as [ms | e' |]; [| | now destruct Hr].
    + split; [discriminate |]. split; [reflexivity |].
      split; [intros ? ? [=] |]. intros e0 _. repeat split.
    + split; [discriminate |]. split; [reflexivity |].
      split; [intros ? ? [=] |]. intros e0 _. repeat split.
  - set (site1 := {| state := setWeatherReason
                                 (getWeatherDescription weatherCode temperature)
                                 (state (called (ForecastCall latitude longitude) site));
                     calls := calls (called (ForecastCall latitude longitude) site) |}).
    destruct (lift_fetch fuel (getGenreForWeather weatherCode temperature)
                S site1 Hfuel) as (r & k & _ & Heq & Hr).
    rewrite Heq. destruct r as [ms | e' |]; [| | now destruct Hr].
    + split; [discriminate |]. split; [reflexivity |].
      split; [| intros ? [=]].
      intros c t [= <- <-]. name_lift_site S site1.
      rewrite Heq. cbn [fst snd].
      split; [| intros ? [=]].
      intros allMovies [= <-]. repeat split.
    + fold (top_rated_announced
              (after_requests
                 (page_requests (getGenreForWeather weatherCode temperature) k)
                 site1)).
      destruct (fetchTopRatedMovies_run TMDB_API_KEY fuel S
                  (top_rated_announced
                     (after_requests
                        (page_requests
                           (getGenreForWeather weatherCode temperature) k)
                        site1)) Hfuel)
        as (r & new & Heq2 & Hr2).
      rewrite Heq2. destruct r as [ms | e'' |]; [| | now destruct Hr2].
      * split; [discriminate |]. split; [reflexivity |].
        split; [| intros ? [=]].
        intros c t [= <- <-]. name_lift_site S site1.
        rewrite Heq. cbn [fst snd].
        split; [intros ? [=] |].
        intros e0 _. rewrite Heq2. repeat split.
      * split; [discriminate |]. split; [reflexivity |].
        split; [| intros ? [=]].
        intros c t [= <- <-]. name_lift_site S site1.
        rewrite Heq. cbn [fst snd].
        split; [intros ? [=] |].
        intros e0 _. rewrite Heq2. repeat split.
Qed.

Lemma positionGranted_reason_matches_witness :
  let r :=
    positionGranted None 10 (51 # 1) (0 # 1)
      (sunny (two_pages [batman_begins] [dark_knight])) opened in
  r.1 = Return tt
  /\ weatherReason (state r.2) = "it's clear and sunny ☀️"
  /\ suggested (state r.2) = [batman_begins; dark_knight].
Proof.
  cbv zeta.
  destruct (positionGranted_reason_matches None 10 (51 # 1) (0 # 1)
              (sunny (two_pages [batman_begins] [dark_knight])) opened)
    as (_ & _ & Hweather & _); [lia |].
  destruct (Hweather 0 25%Q eq_refl) as (Hfound & _).
  destruct (Hfound [batman_begins; dark_knight] eq_refl)
    as (Hret & Hreason & Hsugg & _).
  split; [exact Hret |]. split; [exact Hreason | exact Hsugg].
Defined.

(** ** The search handler as first written: proofs *)

(** X24: in the first version of [handleSearch], a failing page request
    makes the handler throw: if pages 1 to k (k < 10) have results and the
    request for page k+1 is rejected, the handler throws that rejection
    after the requests for pages 1 to k+1 and leaves the whole state as it
    was, so the results of the previous search stay displayed.  A search
    that returns replaces the results by the movies fetched for the query
    as typed (untrimmed); an empty query does nothing. *)
Theorem handleSearch_first_keeps_state_on_failure (fuel : nat)
    (P : Provider) (w : World) :
  let r := handleSearch_first fuel P w in
  (forall (pages : list (list Movie)) (e : exn),
     (10 <= fuel)%nat ->
     truthy (query (app w)) = true ->
     (length pages < 10)%nat ->
     pages_have_results P w (query (app w)) pages ->
     page_reply P w (query (app w)) (Z.of_nat (length pages) + 1)
     = Rejected e ->
     r.1 = Throw e
     /\ app r.2 = app w
     /\ log r.2 = log w ++ page_requests (query (app w)) (S (length pages)))
  /\ (forall e, r.1 = Throw e -> app r.2 = app w)
  /\ (forall results w1,
        truthy (query (app w)) = true ->
        fetchAllMoviesByGenre fuel (query (app w)) P w = (Return results, w1) ->
        r = (Return tt, with_app (setMovies results) w1)
        /\ app r.2 = setMovies results (app w))
  /\ (truthy (query (app w)) = false -> r = (Return tt, w)).
Proof.
  cbv zeta. split.
  { intros pages e Hfuel Hq Hlen Hpages Hfail.
    cbv [handleSearch_first bind render_state set ret].
    change handleSearch_loop with fetchAllMoviesByGenre_loop.
    rewrite Hq. cbn [negb].
    rewrite (loop_stops_without_results (query (app w)) P pages fuel [] 1 w
               (Rejected e)); [| lia | lia | | | discriminate].
    - cbn [stop_outcome fst snd issue app log]. repeat split.
    - apply (pages_have_results_from P w _ pages Hpages).
    - unfold page_reply in Hfail.
      replace (Z.to_nat (Z.of_nat (length pages) + 1 - 1)) with (length pages)
        in Hfail by lia.
      now replace (1 + Z.of_nat (length pages))
        with (Z.of_nat (length pages) + 1) by lia. }
  cbv [handleSearch_first bind render_state set ret].
  change handleSearch_loop with fetchAllMoviesByGenre_loop.
  pose proof (loop_keeps_app fuel (query (app w)) P [] 1 w) as Happ.
  destruct (truthy (query (app w))); cbn [negb].
  - destruct (fetchAllMoviesByGenre_loop fuel (query (app w)) [] 1 P w)
      as [[ms | e |] w'] eqn:Hloop; cbn [fst snd] in *.
    + split; [discriminate |]. split; [| discriminate].
      intros results w1 _ Hfetch. unfold fetchAllMoviesByGenre in Hfetch.
      rewrite Hloop in Hfetch. injection Hfetch as <- <-.
      split; [reflexivity |]. cbn. now rewrite Happ.
    + split; [intros _ _; exact Happ |]. split; [| discriminate].
      intros results w1 _ Hfetch. unfold fetchAllMoviesByGenre in Hfetch.
      rewrite Hloop in Hfetch. discriminate Hfetch.
    + split; [discriminate |]. split; [| discriminate].
      intros results w1 _ Hfetch. unfold fetchAllMoviesByGenre in Hfetch.
      rewrite Hloop in Hfetch. discriminate Hfetch.
  - split; [discriminate |]. split; [discriminate | reflexivity].
Qed.

Lemma handleSearch_first_keeps_state_on_failure_witness :
  let displayed_batman :=
    (handleSearch_first 10 batman_and_spider
       (with_app (typeQuery "Batman") start)).2 in
  let fails_on_page_2 :=
    {| omdb_search := fun _ _ page =>
         if page =? 1 then Json (Some [spider_man])
         else Rejected NetworkError;
       tmdb_search_movie := no_tmdb_search;
       tmdb_movie_videos := no_tmdb_videos |} in
  let r :=
    handleSearch_first 10 fails_on_page_2
      (with_app (typeQuery "Spider") displayed_batman) in
  r.1 = Throw NetworkError
  /\ movies (app r.2) = [batman_begins; dark_knight]
  /\ log r.2
     = [OmdbSearch "Batman" 1; OmdbSearch "Batman" 2;
        OmdbSearch "Spider" 1; OmdbSearch "Spider" 2].
Proof.
  cbv zeta.
  destruct (handleSearch_first_keeps_state_on_failure 10
              {| omdb_search := fun _ _ page =>
                   if page =? 1 then Json (Some [spider_man])
                   else Rejected NetworkError;
                 tmdb_search_movie := no_tmdb_search;
                 tmdb_movie_videos := no_tmdb_videos |}
              (with_app (typeQuery "Spider")
                 (handleSearch_first 10 batman_and_spider
                    (with_app (typeQuery "Batman") start)).2))
    as (Hfail & _).
  destruct (Hfail [[spider_man]] NetworkError) as (Hthrow & Happ & Hlog).
  - lia.
  - reflexivity.
  - simpl. lia.
  - intros i ms. destruct i as [| i]; simpl; [intros [= <-]; reflexivity |].
    destruct i; discriminate.
  - reflexivity.
  - split; [exact Hthrow |]. split; [rewrite Happ; reflexivity | exact Hlog].
Defined.
